(** * mpflow: the project creator ([Creator] / [CreatorAPI])

    A shallow embedding of [packages/cli/src/Creator.ts]: the seven tapable
    hooks of the creation pipeline, the default handlers the constructor
    taps, template acquisition ([getTemplatePath]), [create],
    [installPlugin], [resolvePluginInfos] and [initPlugins], which is
    rejected when a plugin's [creator] function throws.

    Asynchronous code is embedded in a state-and-error monad with an
    append-only event log: [await e] is monadic bind, a rejected promise is
    [Err].  Objects shared by reference (the [files] record handed to the
    render, beforeEmit and emit hooks) live in a heap indexed by locations. *)

From Stdlib Require Import String Ascii List Bool Arith Lia Sorted.
From stdpp Require Import base option list strings gmap.

Import ListNotations.
Local Open Scope string_scope.
Local Open Scope list_scope.

(** ** JavaScript values the pipeline passes around *)

(** A rejected promise carries an arbitrary value; a message is enough. *)
Inductive error : Type :=
| JsError (message : string).

Inductive result (A : Type) : Type :=
| Ok (a : A)
| Err (e : error).
Arguments Ok {A} a.
Arguments Err {A} e.

(** The reason a promise was rejected with, if it was. *)
Definition rejection {A} (r : result A) : option error :=
  match r with Ok _ => None | Err e => Some e end.

(** Heap locations of [Record<string, string>] objects. *)
Abbreviation loc := positive.
Abbreviation Files := (gmap string string).

(** [{ projectName, appId, templateName }], the value of the prepare hook. *)
Record Infos : Type := mkInfos {
  inf_projectName : string;
  inf_appId : string;
  inf_templateName : string
}.

(** [{ projectName, appId, templatePath }], first argument of the render hook. *)
Record RenderInfos : Type := mkRenderInfos {
  ri_projectName : string;
  ri_appId : string;
  ri_templatePath : string
}.

Inductive Value : Type :=
| VUndefined
| VString (s : string)
| VInfos (i : Infos)
| VRenderInfos (i : RenderInfos)
| VObject (l : loc).

(** ** The [Generator] collaborator ([./Generator]), as far as [Creator] drives it *)

(** [{ id }] *)
Record GenPlugin : Type := mkGenPlugin { gp_id : string }.

(** [api.transform(codemod, { fieldName, items })] inside a [processFile] callback. *)
Record Transform : Type := mkTransform {
  tr_codemod : string;
  tr_fieldName : string;
  tr_items : list string
}.

(** [generator.processFile(owner, glob, (file, api) => api.transform ...)] *)
Record ProcessFile : Type := mkProcessFile {
  pf_owner : string;
  pf_glob : string;
  pf_transform : Transform
}.

(** [new Generator(context, { plugins })] followed by [processFile] calls. *)
Record Generator : Type := mkGenerator {
  g_context : string;
  g_plugins : list GenPlugin;
  g_processFiles : list ProcessFile
}.

Definition newGenerator (context : string) (plugins : list GenPlugin) : Generator :=
  mkGenerator context plugins [].

Definition processFile (g : Generator) (owner glob : string) (t : Transform) : Generator :=
  mkGenerator (g_context g) (g_plugins g) (g_processFiles g ++ [mkProcessFile owner glob t]).

(** ** Events *)

Inductive LogMsg : Type :=
| MsgUseTemplate (templateName : string)
| MsgLocalTemplate (localTemplatePath : string)
| MsgNpmLookup (templateName : string)
| MsgDownload (downloadUrl : string).

(** Calls that leave the process (file system, network, subprocesses,
    console), each recorded with its arguments. *)
Inductive Eff : Type :=
| EConsoleLog (m : LogMsg)
| ETmpDir
| ETmpRemove (dir : string)
| EExecSync (command : string)
| EAxiosGet (url : string)
| ETarExtract (C : string)
| ERenderFiles (templatePath glob projectName appId : string)
| ESyncFiles (context : string) (files : Files)
| EInstallNodeModules (context : string) (modules : option (list string))
| EGetBuiltInPlugins (context : string)
| EGenerate (g : Generator) (applyAll : bool)
| EPlugin (note : string).

(** The seven hooks of [Creator.hooks], in declaration order. *)
Inductive Stage : Type :=
| Prepare | ResolveTemplate | Render | BeforeEmit | Emit | Init | AfterInit.

Global Instance Stage_eq_dec : EqDecision Stage.
Proof. solve_decision. Defined.

(** What the hook machinery itself records: a hook's [promise] being
    called (with its arguments) and settled, a tapped function being called and its promise
    settling (with the rejection reason, if any), and the effects the
    tapped functions perform. *)
Inductive Ev : Type :=
| EvStageBegin (st : Stage) (args : list Value)
| EvStageSettled (st : Stage) (rejected : option error)
| EvCall (st : Stage) (name : string) (args : list Value)
| EvSettled (st : Stage) (name : string) (rejected : option error)
| EvEff (e : Eff).

(** ** Reading a log *)

Definition stage_order : list Stage :=
  [Prepare; ResolveTemplate; Render; BeforeEmit; Emit; Init; AfterInit].

Definition stage_index (st : Stage) : nat :=
  match st with
  | Prepare => 0 | ResolveTemplate => 1 | Render => 2 | BeforeEmit => 3
  | Emit => 4 | Init => 5 | AfterInit => 6
  end.

(** The hook an event belongs to; effects carry no tag. *)
Definition ev_stage (e : Ev) : option Stage :=
  match e with
  | EvStageBegin st _ | EvStageSettled st _ | EvCall st _ _ | EvSettled st _ _ => Some st
  | EvEff _ => None
  end.

(** The hook-level events of one stage, in order. *)
Definition stage_view (st : Stage) (t : list Ev) : list Ev :=
  filter (fun e => ev_stage e = Some st) t.

(** [promise] calls and settlements only. *)
Inductive Mark : Type :=
| Begun (st : Stage)
| Settled (st : Stage).

Definition mark_of (e : Ev) : list Mark :=
  match e with
  | EvStageBegin st _ => [Begun st]
  | EvStageSettled st _ => [Settled st]
  | _ => []
  end.

Definition stage_marks (t : list Ev) : list Mark := flat_map mark_of t.

(** An event inside a stage that is not a rejection: a call of one of the
    stage's taps, a tap's promise being fulfilled, or an effect. *)
Definition quiet (st : Stage) (e : Ev) : Prop :=
  match e with
  | EvCall st' _ _ => st' = st
  | EvSettled st' _ r => st' = st /\ r = None
  | EvEff _ => True
  | EvStageBegin _ _ | EvStageSettled _ _ => False
  end.

(** The log of one [hook.promise(...)]: it opens with the call, closes
    with the settlement, and a rejected tap is the last thing before a
    rejected settlement. *)
Inductive stage_segment (st : Stage) : option error -> list Ev -> Prop :=
| segment_fulfilled args body :
    Forall (quiet st) body ->
    stage_segment st None (EvStageBegin st args :: body ++ [EvStageSettled st None])
| segment_rejected args body name e :
    Forall (quiet st) body ->
    stage_segment st (Some e)
      (EvStageBegin st args :: body ++ [EvSettled st name (Some e); EvStageSettled st (Some e)]).

(** A log made of the segments of the given stages, one after the other,
    cut short after the first rejected one. *)
Inductive pipeline_trace : list Stage -> list Ev -> option error -> Prop :=
| pipeline_done : pipeline_trace [] [] None
| pipeline_next st rest t t' r :
    stage_segment st None t ->
    pipeline_trace rest t' r ->
    pipeline_trace (st :: rest) (t ++ t') r
| pipeline_abort st rest t e :
    stage_segment st (Some e) t ->
    pipeline_trace (st :: rest) t (Some e).

(** Within stage [st] the first function called is the one tapped as
    [name], and its promise settles before anything else of the stage
    happens; if it is rejected the stage settles at once.  (Or the stage
    was never reached.) *)
Definition runs_first (name : string) (st : Stage) (t : list Ev) : Prop :=
  stage_view st t = []
  \/ exists args r rest,
       stage_view st t
       = EvStageBegin st args :: EvCall st name args :: EvSettled st name r :: rest
       /\ match r with
          | Some _ => rest = [EvStageSettled st r]
          | None => True
          end.

(** The [npm info] commands run, and whether an effect is part of a download. *)
Definition lookups (t : list Eff) : list string :=
  flat_map (fun e => match e with EExecSync c => [c] | _ => [] end) t.

Definition is_download (e : Eff) : bool :=
  match e with
  | EAxiosGet _ | ETarExtract _ => true
  | _ => false
  end.

Definition is_tmp_remove (e : Eff) : bool :=
  match e with
  | ETmpRemove _ => true
  | _ => false
  end.

Inductive Kind : Type := Waterfall | Series.

(** ** State and the monad *)

Section Machine.

Context {Ext : Type}.

(** [heap] holds the objects shared by reference, [ext] everything outside
    the process (disk, network, registry). *)
Record Store : Type := mkStore {
  heap : gmap loc Files;
  ext : Ext
}.

(** An asynchronous computation logging events of type [E]. *)
Definition Act (E A : Type) : Type := Store -> list E * Store * result A.

Definition ret {E A} (a : A) : Act E A := fun s => ([], s, Ok a).

Definition bind {E A B} (m : Act E A) (k : A -> Act E B) : Act E B :=
  fun s =>
    match m s with
    | (t1, s1, Ok a) =>
        match k a s1 with
        | (t2, s2, r) => (t1 ++ t2, s2, r)
        end
    | (t1, s1, Err e) => (t1, s1, Err e)
    end.

Definition throw {E A} (e : error) : Act E A := fun s => ([], s, Err e).

Definition log {E} (e : E) : Act E unit := fun s => ([e], s, Ok tt).

Definition trace_of {E A} (x : list E * Store * result A) : list E := fst (fst x).
Definition store_of {E A} (x : list E * Store * result A) : Store := snd (fst x).
Definition result_of {E A} (x : list E * Store * result A) : result A := snd x.

End Machine.

Arguments Store : clear implicits.
Arguments Act : clear implicits.

Declare Scope act_scope.
Delimit Scope act_scope with act.
Notation "x <- m ;; k" := (bind m (fun x => k))
  (at level 100, m at next level, right associativity) : act_scope.
Notation "m ;;; k" := (bind m (fun _ => k))
  (at level 100, right associativity) : act_scope.

(** ** Collaborators outside [Creator.ts]

    Node's [path], [tmp], [child_process], [axios] and [tar], the helpers
    of [./utils] and [./Generator], and the engine's [String.prototype.trim].
    Those that act on the outside world [Ext] may fail. *)
Class Externals (Ext : Type) : Type := {
  (** [path.resolve(p)] (the working directory is fixed during a run) *)
  path_resolve : string -> string;
  (** [path.join(...segments)] *)
  path_join : list string -> string;
  (** [tmp.dir({ unsafeCleanup: true }, cb)]: the name passed to [cb] *)
  tmp_dir : Ext -> result string * Ext;
  (** the third argument [tmp] passes to [cb]: removes the directory *)
  tmp_removeCallback : string -> Ext -> result unit * Ext;
  (** [cp.execSync(command, { encoding: 'utf8' })] *)
  execSync : string -> Ext -> result string * Ext;
  (** [s.trim()]: the string without the white space and line terminators
      at its two ends, as the JavaScript engine defines them *)
  trim : string -> string;
  (** [axios.get(url, { responseType: 'stream' })] then piping [data]
      into [tar.x({ C })] until [close] or [error] *)
  axios_get : string -> Ext -> result string * Ext;
  tar_x : string -> string -> Ext -> result unit * Ext;
  (** [renderFiles(inputFileSystem, templatePath, glob, { projectName, appId })] *)
  renderFiles : string -> string -> string -> string -> Ext -> result Files * Ext;
  (** [syncFiles(outputFileSystem, context, files)] *)
  syncFiles : string -> Files -> Ext -> result unit * Ext;
  (** [installNodeModules(context, modules)] *)
  installNodeModules : string -> option (list string) -> Ext -> result unit * Ext;
  (** [getLocalService(context).ServiceRunner.getBuiltInPlugins()] *)
  getBuiltInPlugins : string -> Ext -> result (list GenPlugin) * Ext;
  (** [generator.generate(applyAll)] *)
  generate : Generator -> bool -> Ext -> result unit * Ext;
  (** whether a directory exists on disk *)
  dir_exists : Ext -> string -> bool
}.

Section Creator.

Context {Ext : Type} {X : Externals Ext}.

Local Open Scope act_scope.

(** Handlers and the methods of [Creator] log effects. *)
Abbreviation H := (Act Ext Eff).
(** Running a hook logs hook events around them. *)
Abbreviation M := (Act Ext Ev).

(** A call to a collaborator: logged, then run against the outside world. *)
Definition extcall {A} (e : Eff) (f : Ext -> result A * Ext) : H A :=
  fun s =>
    match f (ext s) with
    | (r, x') => ([e], mkStore (heap s) x', r)
    end.

Definition console_log (m : LogMsg) : H unit := log (EConsoleLog m).

(** A handler running inside a hook: its effects are kept, wrapped. *)
Definition lift {A} (h : H A) : M A :=
  fun s =>
    match h s with
    | (t, s', r) => (map EvEff t, s', r)
    end.

(** ** tapable hooks *)

(** [hook.tapPromise(name, fn)] called with a plain, non-empty name
    appends to the hook's taps. *)
Record Tap (F : Type) : Type := mkTap { tap_name : string; tap_fn : F }.
Arguments mkTap {F} tap_name tap_fn.
Arguments tap_name {F} t.
Arguments tap_fn {F} t.

(** [AsyncSeriesWaterfallHook<A>]: each function receives the current
    value; a result other than [undefined] replaces it. *)
Record AsyncSeriesWaterfallHook (A : Type) : Type := mkWaterfall {
  w_taps : list (Tap (A -> H (option A)))
}.
Arguments mkWaterfall {A} w_taps.
Arguments w_taps {A} a.

(** [AsyncSeriesHook<A>]: each function receives the arguments of
    [promise]; what it resolves to is dropped. *)
Record AsyncSeriesHook (A : Type) : Type := mkSeries {
  s_taps : list (Tap (A -> H Value))
}.
Arguments mkSeries {A} s_taps.
Arguments s_taps {A} a.

Definition tapPromiseW {A} (hk : AsyncSeriesWaterfallHook A) (name : string)
    (fn : A -> H (option A)) : AsyncSeriesWaterfallHook A :=
  mkWaterfall (w_taps hk ++ [mkTap name fn]).

Definition tapPromiseS {A} (hk : AsyncSeriesHook A) (name : string)
    (fn : A -> H Value) : AsyncSeriesHook A :=
  mkSeries (s_taps hk ++ [mkTap name fn]).

(** One tapped function: called, awaited. *)
Definition callTap {R} (st : Stage) (name : string) (args : list Value) (h : H R) : M R :=
  fun s =>
    match lift h s with
    | (t, s', r) => (EvCall st name args :: t ++ [EvSettled st name (rejection r)], s', r)
    end.

Fixpoint runWaterfall {A} (st : Stage) (show : A -> list Value)
    (taps : list (Tap (A -> H (option A)))) (current : A) : M A :=
  match taps with
  | [] => ret current
  | t :: rest =>
      r <- callTap st (tap_name t) (show current) (tap_fn t current) ;;
      runWaterfall st show rest
        (match r with Some v => v | None => current end)
  end.

Fixpoint runSeries {A} (st : Stage) (show : A -> list Value)
    (taps : list (Tap (A -> H Value))) (args : A) : M unit :=
  match taps with
  | [] => ret tt
  | t :: rest =>
      callTap st (tap_name t) (show args) (tap_fn t args) ;;;
      runSeries st show rest args
  end.

(** [hook.promise(...)]: settles once the chain of taps has. *)
Definition settle {A} (st : Stage) (args : list Value) (m : M A) : M A :=
  fun s =>
    match m s with
    | (t, s', r) => (EvStageBegin st args :: t ++ [EvStageSettled st (rejection r)], s', r)
    end.

Definition promiseW {A} (st : Stage) (show : A -> list Value)
    (hk : AsyncSeriesWaterfallHook A) (x : A) : M A :=
  settle st (show x) (runWaterfall st show (w_taps hk) x).

Definition promiseS {A} (st : Stage) (show : A -> list Value)
    (hk : AsyncSeriesHook A) (x : A) : M unit :=
  settle st (show x) (runSeries st show (s_taps hk) x).

(** ** JavaScript string helpers *)

(** [s.startsWith(p)] *)
Definition startsWith (s p : string) : bool := String.prefix p s.

(** [s.substr(n)] *)
Definition substr (s : string) (n : nat) : string :=
  String.substring n (String.length s - n) s.

(** [/^https?:\/\//.test(s)] *)
Definition test_http_url (s : string) : bool :=
  startsWith s "http://" || startsWith s "https://".

(** [x || ''] for an optional string *)
Definition or_empty (x : option string) : string :=
  match x with
  | Some v => v
  | None => ""
  end.

(** ** [Creator] *)

Record Hooks : Type := mkHooks {
  prepare : AsyncSeriesWaterfallHook Infos;
  resolveTemplate : AsyncSeriesWaterfallHook string;
  render : AsyncSeriesHook (RenderInfos * loc);
  beforeEmit : AsyncSeriesHook loc;
  emit : AsyncSeriesHook (string * loc);
  init : AsyncSeriesHook string;
  afterInit : AsyncSeriesHook string
}.

(** How each hook's arguments appear in the log. *)
Definition showInfos (i : Infos) : list Value := [VInfos i].
Definition showString (x : string) : list Value := [VString x].
Definition showRender (a : RenderInfos * loc) : list Value := [VRenderInfos (fst a); VObject (snd a)].
Definition showFiles (l : loc) : list Value := [VObject l].
Definition showEmit (a : string * loc) : list Value := [VString (fst a); VObject (snd a)].

(** What a plugin's [creator] function may do with its [CreatorAPI]:
    one constructor per [tap*] method. *)
Inductive TapCall : Type :=
| tapPrepare (handler : Infos -> H (option Infos))
| tapResolveTemplate (handler : string -> H (option string))
| tapRender (handler : RenderInfos * loc -> H Value)
| tapBeforeEmit (handler : loc -> H Value)
| tapEmit (handler : string * loc -> H Value)
| tapInit (handler : string -> H Value).

(** What a plugin's [creator] function does, step by step: it calls a
    [tap*] method of the [CreatorAPI] it was given, or it throws. *)
Inductive CreatorStep : Type :=
| step_call (c : TapCall)
| step_throw (e : error).

(** A plugin module; [creator] is optional. *)
Record CreatorPlugin : Type := mkPlugin {
  creator : option (list CreatorStep)
}.

Record PluginInfo : Type := mkPluginInfo {
  id : string;
  module : CreatorPlugin
}.

(** The three modules under [./creator-plugins]. *)
Record BuiltIns : Type := mkBuiltIns {
  request_app_id : CreatorPlugin;
  recommended : CreatorPlugin;
  init_git : CreatorPlugin
}.

Record CreatorOptions : Type := mkOptions {
  opt_templateName : option string;
  opt_projectName : option string;
  opt_appId : option string;
  opt_plugins : list PluginInfo
}.

Record CreatorT : Type := mkCreator {
  context : string;
  inlinePlugins : list PluginInfo;
  builtins : BuiltIns;
  templateName : option string;
  projectName : option string;
  appId : option string;
  hooks : Hooks
}.

Definition setHooks (this : CreatorT) (h : Hooks) : CreatorT :=
  mkCreator (context this) (inlinePlugins this) (builtins this)
    (templateName this) (projectName this) (appId this) h.

(** [getTemplatePath(templateName)] *)
Definition getTemplatePath (templateName : string) : H string :=
  console_log (MsgUseTemplate templateName) ;;;
  if startsWith templateName "file://" then
    let localTemplatePath :=
      path_join [path_resolve (substr templateName 7); "template"] in
    console_log (MsgLocalTemplate localTemplatePath) ;;;
    ret localTemplatePath
  else
    tmpPath <- extcall ETmpDir tmp_dir ;;
    downloadUrl <-
      (if negb (test_http_url templateName) then
         console_log (MsgNpmLookup templateName) ;;;
         let command := ("npm info " ++ templateName ++ " dist.tarball")%string in
         out <- extcall (EExecSync command) (execSync command) ;;
         ret (trim out)
       else ret templateName) ;;
    console_log (MsgDownload downloadUrl) ;;;
    downloadStream <- extcall (EAxiosGet downloadUrl) (axios_get downloadUrl) ;;
    extcall (ETarExtract tmpPath) (tar_x tmpPath downloadStream) ;;;
    ret (path_join [tmpPath; "package"; "template"]).

(** [Object.assign(files, rendered)] on the object at [l] *)
Definition object_assign (l : loc) (rendered : Files) : H unit :=
  fun s => ([], mkStore (<[l := rendered ∪ (heap s !!! l)]> (heap s)) (ext s), Ok tt).

(** [const files = {}] *)
Definition new_object : M loc :=
  fun s =>
    let l := fresh (dom (heap s)) in
    ([], mkStore (<[l := ∅]> (heap s)) (ext s), Ok l).

(** The four functions the constructor taps under the name ['creator']. *)
Definition default_resolveTemplate (templateName : string) : H (option string) :=
  p <- getTemplatePath templateName ;;
  ret (Some p).

Definition default_render (a : RenderInfos * loc) : H Value :=
  let '(infos, files) := a in
  rendered <- extcall
    (ERenderFiles (ri_templatePath infos) "**/*" (ri_projectName infos) (ri_appId infos))
    (renderFiles (ri_templatePath infos) "**/*" (ri_projectName infos) (ri_appId infos)) ;;
  object_assign files rendered ;;;
  ret VUndefined.

Definition default_emit (a : string * loc) : H Value :=
  let '(context, files) := a in
  (fun s => extcall (ESyncFiles context (heap s !!! files))
              (syncFiles context (heap s !!! files)) s) ;;;
  ret VUndefined.

Definition default_init (this_context : string) (context : string) : H Value :=
  extcall (EInstallNodeModules context None) (installNodeModules context None) ;;;
  extcall (EInstallNodeModules this_context (Some ["@mpflow/service"]))
    (installNodeModules this_context (Some ["@mpflow/service"])) ;;;
  plugins <- extcall (EGetBuiltInPlugins this_context) (getBuiltInPlugins this_context) ;;
  let generator := newGenerator this_context plugins in
  extcall (EGenerate generator false) (generate generator false) ;;;
  ret VUndefined.

(** The [hooks] field initialiser: seven hooks without taps. *)
Definition initial_hooks : Hooks :=
  mkHooks (mkWaterfall []) (mkWaterfall []) (mkSeries []) (mkSeries [])
    (mkSeries []) (mkSeries []) (mkSeries []).

(** [new Creator(context, { templateName, projectName, appId, ...options })].
    The base class keeps [context] and the [plugins] option. *)
Definition newCreator (context : string) (b : BuiltIns) (o : CreatorOptions) : CreatorT :=
  let h := initial_hooks in
  mkCreator context (opt_plugins o) b
    (opt_templateName o) (opt_projectName o) (opt_appId o)
    (mkHooks
       (prepare h)
       (tapPromiseW (resolveTemplate h) "creator" default_resolveTemplate)
       (tapPromiseS (render h) "creator" default_render)
       (beforeEmit h)
       (tapPromiseS (emit h) "creator" default_emit)
       (tapPromiseS (init h) "creator" (default_init context))
       (afterInit h)).

(** [resolvePluginInfos(inlinePlugins)] *)
Definition resolvePluginInfos (b : BuiltIns) (inlinePlugins : list PluginInfo) : list PluginInfo :=
  let buildInPlugins :=
    [ mkPluginInfo "@mpflow/cli/lib/creator-plugins/request-app-id" (request_app_id b);
      mkPluginInfo "@mpflow/cli/lib/creator-plugins/recommended" (recommended b);
      mkPluginInfo "@mpflow/cli/lib/creator-plugins/init-git" (init_git b) ] in
  buildInPlugins ++ inlinePlugins.

(** Modelled from the spec: [resolvePlugins] of the base service is not
    part of this file; it resolves [resolvePluginInfos] applied to the
    plugins given at construction, keeping their order. *)
Definition resolvePlugins (this : CreatorT) : list PluginInfo :=
  resolvePluginInfos (builtins this) (inlinePlugins this).

(** tapable's [tapPromise(name, fn)] throws when [name] is the empty
    string, before it adds anything. *)
Definition tap_name_error (name : string) : option error :=
  if String.eqb name "" then Some (JsError "Missing name for tapPromise") else None.

(** One [api.tap*(handler)] call of the [CreatorAPI] bound to [id]:
    [this.service.hooks.<hook>.tapPromise(this.id, handler)]. *)
Definition applyTap (id : string) (h : Hooks) (c : TapCall) : result Hooks :=
  match tap_name_error id with
  | Some e => Err e
  | None =>
      Ok match c with
         | tapPrepare f =>
             mkHooks (tapPromiseW (prepare h) id f) (resolveTemplate h) (render h)
               (beforeEmit h) (emit h) (init h) (afterInit h)
         | tapResolveTemplate f =>
             mkHooks (prepare h) (tapPromiseW (resolveTemplate h) id f) (render h)
               (beforeEmit h) (emit h) (init h) (afterInit h)
         | tapRender f =>
             mkHooks (prepare h) (resolveTemplate h) (tapPromiseS (render h) id f)
               (beforeEmit h) (emit h) (init h) (afterInit h)
         | tapBeforeEmit f =>
             mkHooks (prepare h) (resolveTemplate h) (render h)
               (tapPromiseS (beforeEmit h) id f) (emit h) (init h) (afterInit h)
         | tapEmit f =>
             mkHooks (prepare h) (resolveTemplate h) (render h)
               (beforeEmit h) (tapPromiseS (emit h) id f) (init h) (afterInit h)
         | tapInit f =>
             mkHooks (prepare h) (resolveTemplate h) (render h)
               (beforeEmit h) (emit h) (tapPromiseS (init h) id f) (afterInit h)
         end
  end.

(** [plugin.creator(new CreatorAPI(id, this))]: the hooks as the function
    leaves them, and what it threw, if it did.  The taps made before the
    exception stay. *)
Fixpoint runCreator (id : string) (steps : list CreatorStep) (h : Hooks)
    : Hooks * option error :=
  match steps with
  | [] => (h, None)
  | step_call c :: rest =>
      match applyTap id h c with
      | Ok h' => runCreator id rest h'
      | Err e => (h, Some e)
      end
  | step_throw e :: _ => (h, Some e)
  end.

(** [plugin.creator && plugin.creator(new CreatorAPI(id, this))] *)
Definition registerPlugin (h : Hooks) (p : PluginInfo) : Hooks * option error :=
  match creator (module p) with
  | Some steps => runCreator (id p) steps h
  | None => (h, None)
  end.

(** [plugins.forEach(...)]: an exception ends the loop, and the plugins
    after the one that threw are not looked at. *)
Fixpoint registerPlugins (plugins : list PluginInfo) (h : Hooks) : Hooks * option error :=
  match plugins with
  | [] => (h, None)
  | p :: rest =>
      match registerPlugin h p with
      | (h', None) => registerPlugins rest h'
      | (h', Some e) => (h', Some e)
      end
  end.

(** [initPlugins()]: the object as the call leaves it, whether it returns
    or throws, *)
Definition initPlugins (this : CreatorT) : CreatorT :=
  let plugins := resolvePlugins this in
  setHooks this (fst (registerPlugins plugins (hooks this))).

(** and the error its promise is rejected with, if a creator threw. *)
Definition initPlugins_rejection (this : CreatorT) : option error :=
  let plugins := resolvePlugins this in
  snd (registerPlugins plugins (hooks this)).

(** [create()]: the object as [initPlugins] leaves it, and the run.  When
    the awaited [initPlugins()] is rejected so is [create()], before any
    hook is promised; otherwise the seven hooks follow. *)
Definition create (this : CreatorT) (s : Store Ext)
    : CreatorT * (list Ev * Store Ext * result unit) :=
  let registration := initPlugins_rejection this in
  let this := initPlugins this in
  (this,
   match registration with
   | Some e => ([], s, Err e)
   | None =>
       (infos <- promiseW Prepare showInfos (prepare (hooks this))
                   (mkInfos (or_empty (projectName this)) (or_empty (appId this))
                      (or_empty (templateName this))) ;;
        templatePath <- promiseW ResolveTemplate showString (resolveTemplate (hooks this))
                          (inf_templateName infos) ;;
        files <- new_object ;;
        promiseS Render showRender (render (hooks this))
          (mkRenderInfos (inf_projectName infos) (inf_appId infos) templatePath, files) ;;;
        promiseS BeforeEmit showFiles (beforeEmit (hooks this)) files ;;;
        promiseS Emit showEmit (emit (hooks this)) (context this, files) ;;;
        promiseS Init showString (init (hooks this)) (context this) ;;;
        promiseS AfterInit showString (afterInit (hooks this)) (context this)) s
   end).

(** [installPlugin(pluginNames)] *)
Definition installPlugin (this_context : string) (pluginNames : list string) : H unit :=
  match pluginNames with
  | [] => ret tt
  | _ =>
      extcall (EInstallNodeModules this_context (Some pluginNames))
        (installNodeModules this_context (Some pluginNames)) ;;;
      let generator := newGenerator this_context (map mkGenPlugin pluginNames) in
      let generator :=
        processFile generator "creator" "mpflow.config.js"
          (mkTransform "@mpflow/service-core/lib/codemods/add-to-exports"
             "plugins" pluginNames) in
      extcall (EGenerate generator true) (generate generator true)
  end.

(** Lines 194-207 of [getTemplatePath]: what both the URL and the package
    branch do once [downloadUrl] is known. *)
Definition downloadTemplate (tmpPath downloadUrl : string) : H string :=
  console_log (MsgDownload downloadUrl) ;;;
  downloadStream <- extcall (EAxiosGet downloadUrl) (axios_get downloadUrl) ;;
  extcall (ETarExtract tmpPath) (tar_x tmpPath downloadStream) ;;;
  ret (path_join [tmpPath; "package"; "template"]).

(** The object at the start of [create]'s pipeline. *)
Definition prepare_input (this : CreatorT) : Infos :=
  mkInfos (or_empty (projectName this)) (or_empty (appId this))
    (or_empty (templateName this)).

(** [create] from the prepare hook up to and including the beforeEmit hook
    (lines 215-226), returning the [files] object. *)
Definition create_until_emit (this : CreatorT) : M loc :=
  infos <- promiseW Prepare showInfos (prepare (hooks this)) (prepare_input this) ;;
  templatePath <- promiseW ResolveTemplate showString (resolveTemplate (hooks this))
                    (inf_templateName infos) ;;
  files <- new_object ;;
  promiseS Render showRender (render (hooks this))
    (mkRenderInfos (inf_projectName infos) (inf_appId infos) templatePath, files) ;;;
  promiseS BeforeEmit showFiles (beforeEmit (hooks this)) files ;;;
  ret files.

(** [create] from the emit hook on (lines 227-230). *)
Definition create_from_emit (this : CreatorT) (files : loc) : M unit :=
  promiseS Emit showEmit (emit (hooks this)) (context this, files) ;;;
  promiseS Init showString (init (hooks this)) (context this) ;;;
  promiseS AfterInit showString (afterInit (hooks this)) (context this).

(** What [create] hands to the render, beforeEmit and emit hooks, and
    what their taps are called with, is the object [files]. *)
Definition passes_files (context : string) (files : loc) (e : Ev) : Prop :=
  match e with
  | EvStageBegin st args | EvCall st _ args =>
      match st with
      | Render => exists infos, args = [VRenderInfos infos; VObject files]
      | BeforeEmit => args = [VObject files]
      | Emit => args = [VString context; VObject files]
      | _ => True
      end
  | _ => True
  end.

(** What [create] hands to each of the five series hooks, and what their
    taps are called with: the object [files] and the project directory. *)
Definition series_input (context : string) (files : loc) (e : Ev) : Prop :=
  match e with
  | EvStageBegin st args | EvCall st _ args =>
      match st with
      | Prepare | ResolveTemplate => True
      | Render => exists infos, args = [VRenderInfos infos; VObject files]
      | BeforeEmit => args = [VObject files]
      | Emit => args = [VString context; VObject files]
      | Init | AfterInit => args = [VString context]
      end
  | _ => True
  end.

(** Every hook-level event belongs to [st], and calls carry [args]. *)
Definition within (st : Stage) (args : list Value) (e : Ev) : Prop :=
  match e with
  | EvStageBegin st' a | EvCall st' _ a => st' = st /\ a = args
  | EvStageSettled st' _ | EvSettled st' _ _ => st' = st
  | EvEff _ => True
  end.

(** [h'] has all the taps of [h], in the same order, possibly followed
    by more. *)
Definition hooks_extend (h h' : Hooks) : Prop :=
  (exists more, w_taps (prepare h') = w_taps (prepare h) ++ more)
  /\ (exists more, w_taps (resolveTemplate h') = w_taps (resolveTemplate h) ++ more)
  /\ (exists more, s_taps (render h') = s_taps (render h) ++ more)
  /\ (exists more, s_taps (beforeEmit h') = s_taps (beforeEmit h) ++ more)
  /\ (exists more, s_taps (emit h') = s_taps (emit h) ++ more)
  /\ (exists more, s_taps (init h') = s_taps (init h) ++ more)
  /\ (exists more, s_taps (afterInit h') = s_taps (afterInit h) ++ more).

(** The taps the constructor adds come first on their four hooks. *)
Definition defaults_first (this_context : string) (h : Hooks) : Prop :=
  (exists more, w_taps (resolveTemplate h)
                = mkTap "creator" default_resolveTemplate :: more)
  /\ (exists more, s_taps (render h) = mkTap "creator" default_render :: more)
  /\ (exists more, s_taps (emit h) = mkTap "creator" default_emit :: more)
  /\ (exists more, s_taps (init h)
                   = mkTap "creator" (default_init this_context) :: more).

(** The ways a run of [create] can go once [initPlugins] has returned:
    rejected in one of the seven hooks, or settled with the last.  From the
    emit hook on: *)
Inductive emit_run (c : CreatorT) (files : loc)
    : Store Ext -> list Ev * Store Ext * result unit -> Prop :=
| rejected_emit s4 t5 s5 e :
    promiseS Emit showEmit (emit (hooks c)) (context c, files) s4 = (t5, s5, Err e) ->
    emit_run c files s4 (t5, s5, Err e)
| rejected_init s4 t5 s5 t6 s6 e :
    promiseS Emit showEmit (emit (hooks c)) (context c, files) s4 = (t5, s5, Ok tt) ->
    promiseS Init showString (init (hooks c)) (context c) s5 = (t6, s6, Err e) ->
    emit_run c files s4 (t5 ++ t6, s6, Err e)
| settled_afterInit s4 t5 s5 t6 s6 t7 s7 r :
    promiseS Emit showEmit (emit (hooks c)) (context c, files) s4 = (t5, s5, Ok tt) ->
    promiseS Init showString (init (hooks c)) (context c) s5 = (t6, s6, Ok tt) ->
    promiseS AfterInit showString (afterInit (hooks c)) (context c) s6 = (t7, s7, r) ->
    emit_run c files s4 (t5 ++ t6 ++ t7, s7, r).

(** from the render hook on, with [files] allocated: *)
Inductive render_run (c : CreatorT) (infos : Infos) (templatePath : string) (files : loc)
    : Store Ext -> list Ev * Store Ext * result unit -> Prop :=
| rejected_render s2 t3 s3 e :
    promiseS Render showRender (render (hooks c))
      (mkRenderInfos (inf_projectName infos) (inf_appId infos) templatePath, files) s2
      = (t3, s3, Err e) ->
    render_run c infos templatePath files s2 (t3, s3, Err e)
| rejected_beforeEmit s2 t3 s3 t4 s4 e :
    promiseS Render showRender (render (hooks c))
      (mkRenderInfos (inf_projectName infos) (inf_appId infos) templatePath, files) s2
      = (t3, s3, Ok tt) ->
    promiseS BeforeEmit showFiles (beforeEmit (hooks c)) files s3 = (t4, s4, Err e) ->
    render_run c infos templatePath files s2 (t3 ++ t4, s4, Err e)
| after_beforeEmit s2 t3 s3 t4 s4 rest :
    promiseS Render showRender (render (hooks c))
      (mkRenderInfos (inf_projectName infos) (inf_appId infos) templatePath, files) s2
      = (t3, s3, Ok tt) ->
    promiseS BeforeEmit showFiles (beforeEmit (hooks c)) files s3 = (t4, s4, Ok tt) ->
    emit_run c files s4 rest ->
    render_run c infos templatePath files s2
      (t3 ++ t4 ++ trace_of rest, store_of rest, result_of rest).

(** and from the start: *)
Inductive create_run (c : CreatorT) (s : Store Ext)
    : list Ev * Store Ext * result unit -> Prop :=
| rejected_prepare t1 s1 e :
    promiseW Prepare showInfos (prepare (hooks c)) (prepare_input c) s = (t1, s1, Err e) ->
    create_run c s (t1, s1, Err e)
| rejected_resolveTemplate t1 s1 infos t2 s2 e :
    promiseW Prepare showInfos (prepare (hooks c)) (prepare_input c) s = (t1, s1, Ok infos) ->
    promiseW ResolveTemplate showString (resolveTemplate (hooks c))
      (inf_templateName infos) s1 = (t2, s2, Err e) ->
    create_run c s (t1 ++ t2, s2, Err e)
| after_resolveTemplate t1 s1 infos t2 s2 templatePath files rest :
    promiseW Prepare showInfos (prepare (hooks c)) (prepare_input c) s = (t1, s1, Ok infos) ->
    promiseW ResolveTemplate showString (resolveTemplate (hooks c))
      (inf_templateName infos) s1 = (t2, s2, Ok templatePath) ->
    files = fresh (dom (heap s2)) ->
    render_run c infos templatePath files
      (mkStore (<[files := ∅]> (heap s2)) (ext s2)) rest ->
    create_run c s (t1 ++ t2 ++ trace_of rest, store_of rest, result_of rest).

(** A tap whose function resolves to [f v] instead of [v]. *)
Definition map_resolved {A} (f : Value -> Value) (t : Tap (A -> H Value)) : Tap (A -> H Value) :=
  mkTap (tap_name t) (fun a => v <- tap_fn t a ;; ret (f v)).

(** A hook of either kind. *)
Inductive AnyHook : Type :=
| WaterfallOf {A : Type} (hk : AsyncSeriesWaterfallHook A)
| SeriesOf {A : Type} (hk : AsyncSeriesHook A).

Definition kind (a : AnyHook) : Kind :=
  match a with
  | WaterfallOf _ => Waterfall
  | SeriesOf _ => Series
  end.

(** The field of [hooks] a stage names. *)
Definition hookOf (h : Hooks) (st : Stage) : AnyHook :=
  match st with
  | Prepare => WaterfallOf (prepare h)
  | ResolveTemplate => WaterfallOf (resolveTemplate h)
  | Render => SeriesOf (render h)
  | BeforeEmit => SeriesOf (beforeEmit h)
  | Emit => SeriesOf (emit h)
  | Init => SeriesOf (init h)
  | AfterInit => SeriesOf (afterInit h)
  end.

(** Putting a prefix in front of a run's log. *)
Definition prepend {E A} (pre : list E) (x : list E * Store Ext * result A)
    : list E * Store Ext * result A :=
  (pre ++ trace_of x, store_of x, result_of x).

End Creator.

Arguments mkTap {F} tap_name tap_fn.
Arguments tap_name {F} t.
Arguments tap_fn {F} t.
Arguments AsyncSeriesWaterfallHook : clear implicits.
Arguments mkWaterfall {Ext A} w_taps.
Arguments w_taps {Ext A} a.
Arguments AsyncSeriesHook : clear implicits.
Arguments mkSeries {Ext A} s_taps.
Arguments s_taps {Ext A} a.
Arguments Hooks : clear implicits.
Arguments TapCall : clear implicits.
Arguments CreatorStep : clear implicits.
Arguments CreatorPlugin : clear implicits.
Arguments PluginInfo : clear implicits.
Arguments BuiltIns : clear implicits.
Arguments CreatorOptions : clear implicits.
Arguments CreatorT : clear implicits.
Arguments AnyHook : clear implicits.

(** ** Registration, hook by hook *)

Section Registration.

Context {Ext : Type}.

Local Abbreviation H := (Act Ext Eff).

(** The [api.tap*] calls among the steps of a [creator]. *)
Definition callsOf (steps : list (CreatorStep Ext)) : list (TapCall Ext) :=
  flat_map (fun st => match st with step_call c => [c] | step_throw _ => [] end) steps.

(** The [api.tap*] calls a plugin's [creator] makes (none without one). *)
Definition pluginCalls (p : PluginInfo Ext) : list (TapCall Ext) :=
  match creator (module p) with
  | Some steps => callsOf steps
  | None => []
  end.

(** A plugin that [initPlugins] gets past: its [creator], if there is
    one, does not throw, and the plugin has a name if it taps at all. *)
Definition registers (p : PluginInfo Ext) : Prop :=
  match creator (module p) with
  | Some steps =>
      Forall (fun st => exists c, st = step_call c) steps
      /\ (steps = [] \/ id p <> "")
  | None => True
  end.

(** The plugin [id] whose [creator] makes the calls [done] and returns. *)
Definition calling (id : string) (done : list (TapCall Ext)) : PluginInfo Ext :=
  mkPluginInfo id (mkPlugin (Some (map step_call done))).

(** How the [creator] of the plugin [id] ends in the exception [e] after
    the calls [done], with the steps [rest] still to go: the next step is a
    call that tapable refuses because the plugin has no name (then it is the
    first call), or the next step throws [e]. *)
Definition fails_at (id : string) (done : list (TapCall Ext))
    (rest : list (CreatorStep Ext)) (e : error) : Prop :=
  (exists c rest',
     rest = step_call c :: rest' /\ id = "" /\ done = []
     /\ e = JsError "Missing name for tapPromise")
  \/ (exists rest', rest = step_throw e :: rest' /\ (done = [] \/ id <> "")).

(** What a sequence of [api.tap*] calls of the plugin [id] adds to each hook. *)
Definition prepareTapsOf (id : string) (calls : list (TapCall Ext))
    : list (Tap (Infos -> H (option Infos))) :=
  flat_map (fun c => match c with tapPrepare f => [mkTap id f] | _ => [] end) calls.

Definition resolveTemplateTapsOf (id : string) (calls : list (TapCall Ext))
    : list (Tap (string -> H (option string))) :=
  flat_map (fun c => match c with tapResolveTemplate f => [mkTap id f] | _ => [] end) calls.

Definition renderTapsOf (id : string) (calls : list (TapCall Ext))
    : list (Tap (RenderInfos * loc -> H Value)) :=
  flat_map (fun c => match c with tapRender f => [mkTap id f] | _ => [] end) calls.

Definition beforeEmitTapsOf (id : string) (calls : list (TapCall Ext))
    : list (Tap (loc -> H Value)) :=
  flat_map (fun c => match c with tapBeforeEmit f => [mkTap id f] | _ => [] end) calls.

Definition emitTapsOf (id : string) (calls : list (TapCall Ext))
    : list (Tap (string * loc -> H Value)) :=
  flat_map (fun c => match c with tapEmit f => [mkTap id f] | _ => [] end) calls.

Definition initTapsOf (id : string) (calls : list (TapCall Ext))
    : list (Tap (string -> H Value)) :=
  flat_map (fun c => match c with tapInit f => [mkTap id f] | _ => [] end) calls.

(** The taps of a list of plugins, as one record of hooks: plugin after
    plugin, call after call. *)
Definition registered (plugins : list (PluginInfo Ext)) : Hooks Ext :=
  mkHooks
    (mkWaterfall (flat_map (fun p => prepareTapsOf (id p) (pluginCalls p)) plugins))
    (mkWaterfall (flat_map (fun p => resolveTemplateTapsOf (id p) (pluginCalls p)) plugins))
    (mkSeries (flat_map (fun p => renderTapsOf (id p) (pluginCalls p)) plugins))
    (mkSeries (flat_map (fun p => beforeEmitTapsOf (id p) (pluginCalls p)) plugins))
    (mkSeries (flat_map (fun p => emitTapsOf (id p) (pluginCalls p)) plugins))
    (mkSeries (flat_map (fun p => initTapsOf (id p) (pluginCalls p)) plugins))
    (mkSeries []).

(** Hook by hook, the taps of [h] followed by those of [more]. *)
Definition hooks_app (h more : Hooks Ext) : Hooks Ext :=
  mkHooks
    (mkWaterfall (w_taps (prepare h) ++ w_taps (prepare more)))
    (mkWaterfall (w_taps (resolveTemplate h) ++ w_taps (resolveTemplate more)))
    (mkSeries (s_taps (render h) ++ s_taps (render more)))
    (mkSeries (s_taps (beforeEmit h) ++ s_taps (beforeEmit more)))
    (mkSeries (s_taps (emit h) ++ s_taps (emit more)))
    (mkSeries (s_taps (init h) ++ s_taps (init more)))
    (mkSeries (s_taps (afterInit h) ++ s_taps (afterInit more))).

(** [more] repeated [n] times after [h]. *)
Fixpoint hooks_app_n (n : nat) (h more : Hooks Ext) : Hooks Ext :=
  match n with
  | 0 => h
  | S k => hooks_app (hooks_app_n k h more) more
  end.

End Registration.

(** ** [create] when no plugin taps anything *)

Section Plain.

Context {Ext : Type} {X : Externals Ext}.

Local Open Scope act_scope.

(** The effects in a log, without the hook events around them. *)
Definition effects (t : list Ev) : list Eff :=
  flat_map (fun e => match e with EvEff x => [x] | _ => [] end) t.

(** Resolve, render, write, initialise: the four functions the
    constructor taps, one after the other, on the values [create] would
    hand them when nothing else is tapped. *)
Definition create_without_plugins (context templateName projectName appId : string)
    : Act Ext Eff unit :=
  templatePath <- getTemplatePath templateName ;;
  rendered <- extcall (ERenderFiles templatePath "**/*" projectName appId)
                (renderFiles templatePath "**/*" projectName appId) ;;
  extcall (ESyncFiles context rendered) (syncFiles context rendered) ;;;
  default_init context context ;;;
  ret tt.

(** A handler that leaves every object on the heap as it found it. *)
Definition keeps_heap {A} (m : Act Ext Eff A) : Prop :=
  forall s, heap (store_of (m s)) = heap s.

End Plain.

(** The calls [getTemplatePath] makes besides writing to the console. *)
Inductive CallKind : Type :=
| KTmpDir | KExecSync | KAxiosGet | KTarExtract | KOther.

Definition call_kinds (t : list Eff) : list CallKind :=
  flat_map
    (fun e =>
       match e with
       | EConsoleLog _ => []
       | ETmpDir => [KTmpDir]
       | EExecSync _ => [KExecSync]
       | EAxiosGet _ => [KAxiosGet]
       | ETarExtract _ => [KTarExtract]
       | _ => [KOther]
       end) t.

(** ** A small concrete world

    Enough of a disk, a registry and a web server to run the pipeline. *)
Module Demo.

Record World : Type := mkWorld {
  dirs : list string;
  tmp_free : bool;
  npm_registry : list (string * string);
  web : list (string * string);
  template_files : list (string * string);
  written : list (string * Files);
  installed : list (string * option (list string));
  generated : list (Generator * bool)
}.

Fixpoint assoc (k : string) (l : list (string * string)) : option string :=
  match l with
  | [] => None
  | (k', v) :: rest => if String.eqb k k' then Some v else assoc k rest
  end.

Definition has_dir (w : World) (d : string) : bool :=
  existsb (String.eqb d) (dirs w).

Definition with_dirs (w : World) (ds : list string) : World :=
  mkWorld ds (tmp_free w) (npm_registry w) (web w) (template_files w)
    (written w) (installed w) (generated w).

(** [path] on a POSIX machine whose working directory is [/cwd]. *)
Fixpoint split_path (p : string) : list string :=
  match p with
  | EmptyString => [EmptyString]
  | String c rest =>
      if Ascii.eqb c "/" then EmptyString :: split_path rest
      else
        match split_path rest with
        | seg :: segs => String c seg :: segs
        | [] => [String c EmptyString]
        end
  end.

(** Node's [normalizeString]: empty and [.] segments go, [..] takes the
    segment before it away; [acc] holds the segments kept so far, last
    first. *)
Fixpoint normalize_segments (allowAboveRoot : bool) (segs acc : list string) : list string :=
  match segs with
  | [] => rev acc
  | seg :: rest =>
      if String.eqb seg "" || String.eqb seg "." then
        normalize_segments allowAboveRoot rest acc
      else if String.eqb seg ".." then
        match acc with
        | top :: acc' =>
            if String.eqb top ".." then normalize_segments allowAboveRoot rest (seg :: acc)
            else normalize_segments allowAboveRoot rest acc'
        | [] =>
            if allowAboveRoot then normalize_segments allowAboveRoot rest [seg]
            else normalize_segments allowAboveRoot rest []
        end
      else normalize_segments allowAboveRoot rest (seg :: acc)
  end.

Definition is_absolute (p : string) : bool := String.prefix "/" p.

Definition ends_with_separator (p : string) : bool :=
  match String.get (String.length p - 1) p with
  | Some c => Ascii.eqb c "/"
  | None => false
  end.

(** [path.normalize(p)] *)
Definition normalize (p : string) : string :=
  if String.eqb p "" then "."
  else
    let body :=
      String.concat "/" (normalize_segments (negb (is_absolute p)) (split_path p) []) in
    if String.eqb body "" then
      if is_absolute p then "/" else if ends_with_separator p then "./" else "."
    else
      let body := if ends_with_separator p then (body ++ "/")%string else body in
      if is_absolute p then ("/" ++ body)%string else body.

(** [path.resolve(p)] *)
Definition resolve (p : string) : string :=
  let full := if is_absolute p then p else ("/cwd/" ++ p)%string in
  ("/" ++ String.concat "/" (normalize_segments false (split_path full) []))%string.

(** [path.join(...segments)] *)
Definition join (segments : list string) : string :=
  match filter (fun seg => negb (String.eqb seg "")) segments with
  | [] => "."
  | parts => normalize (String.concat "/" parts)
  end.

(** [s.trim()] on a string held as UTF-8 bytes.  The characters
    JavaScript strips are its white space and line terminators: U+0009 to
    U+000D, U+0020, U+00A0, U+1680, U+2000 to U+200A, U+2028, U+2029,
    U+202F, U+205F, U+3000 and U+FEFF; here, their encodings. *)
Definition white_space : list (list nat) :=
  [[9]; [10]; [11]; [12]; [13]; [32];
   [194; 160];
   [225; 154; 128];
   [226; 128; 128]; [226; 128; 129]; [226; 128; 130]; [226; 128; 131];
   [226; 128; 132]; [226; 128; 133]; [226; 128; 134]; [226; 128; 135];
   [226; 128; 136]; [226; 128; 137]; [226; 128; 138];
   [226; 128; 168]; [226; 128; 169]; [226; 128; 175];
   [226; 129; 159];
   [227; 128; 128];
   [239; 187; 191]].

Fixpoint starts_with_bytes (w l : list nat) : bool :=
  match w, l with
  | [], _ => true
  | a :: w', b :: l' => (a =? b)%nat && starts_with_bytes w' l'
  | _ :: _, [] => false
  end.

(** Drops the characters of [chars] at the head of [l], at most [fuel] of them. *)
Fixpoint strip (chars : list (list nat)) (fuel : nat) (l : list nat) : list nat :=
  match fuel with
  | 0 => l
  | S fuel' =>
      match List.find (fun w => starts_with_bytes w l) chars with
      | Some w => strip chars fuel' (skipn (List.length w) l)
      | None => l
      end
  end.

Definition bytes_of (s : string) : list nat := map nat_of_ascii (list_ascii_of_string s).

Definition string_of (l : list nat) : string := string_of_list_ascii (map ascii_of_nat l).

Definition trimStart (s : string) : string :=
  string_of (strip white_space (String.length s) (bytes_of s)).

Definition trimEnd (s : string) : string :=
  string_of (rev (strip (map (@rev nat) white_space) (String.length s) (rev (bytes_of s)))).

Definition trim_utf8 (s : string) : string := trimEnd (trimStart s).

Definition mktmp (w : World) : result string * World :=
  if tmp_free w then (Ok "/tmp/tmp-1", with_dirs w ("/tmp/tmp-1" :: dirs w))
  else (Err (JsError "ENOSPC"), w).

Definition rmtmp (d : string) (w : World) : result unit * World :=
  (Ok tt, with_dirs w (filter (fun x => negb (String.eqb d x)) (dirs w))).

Definition exec_sync (command : string) (w : World) : result string * World :=
  match assoc command (npm_registry w) with
  | Some out => (Ok out, w)
  | None => (Err (JsError "Command failed"), w)
  end.

Definition http_get (url : string) (w : World) : result string * World :=
  match assoc url (web w) with
  | Some body => (Ok body, w)
  | None => (Err (JsError "Request failed with status code 404"), w)
  end.

Definition untar (C body : string) (w : World) : result unit * World :=
  (Ok tt, with_dirs w (join [C; "package"; "template"] :: join [C; "package"] :: dirs w)).

Definition render_files (templatePath glob projectName appId : string) (w : World)
    : result Files * World :=
  if has_dir w templatePath then
    (Ok (list_to_map (template_files w) ∪ {[ "project.config.json" := appId ]}), w)
  else (Ok ∅, w).

Definition sync_files (context : string) (files : Files) (w : World) : result unit * World :=
  (Ok tt,
   mkWorld (dirs w) (tmp_free w) (npm_registry w) (web w) (template_files w)
     (written w ++ [(context, files)]) (installed w) (generated w)).

Definition install (context : string) (modules : option (list string)) (w : World)
    : result unit * World :=
  (Ok tt,
   mkWorld (dirs w) (tmp_free w) (npm_registry w) (web w) (template_files w)
     (written w) (installed w ++ [(context, modules)]) (generated w)).

Definition builtin_generators (context : string) (w : World) : result (list GenPlugin) * World :=
  (Ok [mkGenPlugin "@mpflow/plugin-babel"], w).

Definition run_generate (g : Generator) (applyAll : bool) (w : World) : result unit * World :=
  (Ok tt,
   mkWorld (dirs w) (tmp_free w) (npm_registry w) (web w) (template_files w)
     (written w) (installed w) (generated w ++ [(g, applyAll)])).

#[global] Instance externals : Externals World := {|
  path_resolve := resolve;
  path_join := join;
  tmp_dir := mktmp;
  tmp_removeCallback := rmtmp;
  execSync := exec_sync;
  trim := trim_utf8;
  axios_get := http_get;
  tar_x := untar;
  renderFiles := render_files;
  syncFiles := sync_files;
  installNodeModules := install;
  getBuiltInPlugins := builtin_generators;
  generate := run_generate;
  dir_exists := has_dir
|}.

(** A machine with an empty disk whose registry knows [some-package] and
    whose web serves two tarballs. *)
Definition world0 : World :=
  mkWorld [] true
    [("npm info some-package dist.tarball",
      String (ascii_of_nat 10) "https://registry.npmjs.org/some-package/-/some-package-1.0.0.tgz"
        ++ String (ascii_of_nat 10) "")%string]
    [("https://registry.npmjs.org/some-package/-/some-package-1.0.0.tgz", "tgz-bytes");
     ("https://example.com/template.tgz", "tgz-bytes")]
    [("app.json", "{}")]
    [] [] [].

Definition store0 : Store World := mkStore ∅ world0.

(** No built-in plugin taps anything. *)
Definition no_builtins : BuiltIns World :=
  mkBuiltIns (mkPlugin None) (mkPlugin None) (mkPlugin None).

(** [files[k] = v] *)
Definition set_entry (k v : string) (files : loc) : Act World Eff Value :=
  fun s => ([EPlugin "set"], mkStore (<[files := <[k := v]> (heap s !!! files)]> (heap s)) (ext s),
            Ok VUndefined).

Definition failing {A} (msg : string) (_ : A) : Act World Eff Value :=
  fun s => ([EPlugin "throw"], s, Err (JsError msg)).

(** A plugin's prepare handler that fills in all three fields. *)
Definition pick_infos (_ : Infos) : Act World Eff (option Infos) :=
  fun s => ([EPlugin "prompt"], s, Ok (Some (mkInfos "picked" "wx9" "file://./mytemplate"))).

Definition user_plugin (calls : list (TapCall World)) : PluginInfo World :=
  mkPluginInfo "user" (mkPlugin (Some (map step_call calls))).

(** A plugin without a name that taps, and one whose [creator] throws
    after its first tap. *)
Definition nameless_plugin (calls : list (TapCall World)) : PluginInfo World :=
  mkPluginInfo "" (mkPlugin (Some (map step_call calls))).

Definition throwing_plugin (c : TapCall World) (msg : string) (rest : list (TapCall World))
    : PluginInfo World :=
  mkPluginInfo "broken"
    (mkPlugin (Some (step_call c :: step_throw (JsError msg) :: map step_call rest))).

(** A local template, and a plugin that adds a file before emit. *)
Definition c_local : CreatorT World :=
  newCreator "/proj" no_builtins
    (mkOptions (Some "file://./mytemplate") (Some "demo") (Some "wx1")
       [user_plugin [tapBeforeEmit (set_entry "extra.txt" "hi")]]).

(** A template behind a URL, no plugins. *)
Definition c_remote : CreatorT World :=
  newCreator "/proj" no_builtins
    (mkOptions (Some "https://example.com/template.tgz") (Some "demo") (Some "wx1") []).

(** The same, with a plugin whose render handler throws. *)
Definition c_remote_reject : CreatorT World :=
  newCreator "/proj" no_builtins
    (mkOptions (Some "https://example.com/template.tgz") (Some "demo") (Some "wx1")
       [user_plugin [tapRender (failing "render failed")]]).

(** A plugin whose beforeEmit handler throws. *)
Definition c_reject : CreatorT World :=
  newCreator "/proj" no_builtins
    (mkOptions (Some "file://./mytemplate") (Some "demo") (Some "wx1")
       [user_plugin [tapBeforeEmit (failing "boom")]]).

(** No options given; a plugin asks for them in prepare. *)
Definition c_prompt : CreatorT World :=
  newCreator "/proj" no_builtins
    (mkOptions None None None [user_plugin [tapPrepare pick_infos]]).

(** A plugin that taps but has no name. *)
Definition c_nameless : CreatorT World :=
  newCreator "/proj" no_builtins
    (mkOptions (Some "file://./mytemplate") (Some "demo") (Some "wx1")
       [nameless_plugin [tapBeforeEmit (set_entry "extra.txt" "hi")]]).

(** Three plugins; the [creator] of the second throws after its first tap. *)
Definition c_throwing : CreatorT World :=
  newCreator "/proj" no_builtins
    (mkOptions (Some "file://./mytemplate") (Some "demo") (Some "wx1")
       [user_plugin [tapBeforeEmit (set_entry "a.txt" "1")];
        throwing_plugin (tapBeforeEmit (set_entry "b.txt" "2")) "bad plugin"
          [tapBeforeEmit (set_entry "c.txt" "3")];
        mkPluginInfo "late" (mkPlugin (Some [step_call (tapEmit (failing "never"))]))]).

End Demo.

(** More of the concrete world: a disk that has the local template, and a
    [files] object that already holds two entries. *)
Module DemoMore.

Definition world_with_template : Demo.World :=
  Demo.with_dirs Demo.world0 ["/cwd/mytemplate/template"].

Definition store_with_files : Store Demo.World :=
  mkStore {[ 1%positive := {[ "app.json" := "old"; "keep.txt" := "kept" ]} ]}
    world_with_template.

Definition local_infos : RenderInfos :=
  mkRenderInfos "demo" "wx1" "/cwd/mytemplate/template".

Definition remote_options : CreatorOptions Demo.World :=
  mkOptions (Some "https://example.com/template.tgz") (Some "demo") (Some "wx1") [].

End DemoMore.

(** * The service plugins

    The generators of the typescript and css plugins rename files. *)
Module Plugins.

(** Whether [path] ends with [suffix]: where the pattern [suffix$] matches. *)
Definition ends_with (suffix path : string) : bool :=
  (String.length suffix <=? String.length path)%nat
  && String.eqb
       (String.substring (String.length path - String.length suffix)
          (String.length suffix) path)
       suffix.

(** [path.replace(/<old>$/, new)] for a literal [old] *)
Definition replace_extension (old new path : string) : string :=
  if ends_with old path
  then (String.substring 0 (String.length path - String.length old) path ++ new)%string
  else path.

(** [file.path.replace(/\.js$/, '.ts')] *)
Definition rename_js_to_ts (path : string) : string :=
  replace_extension ".js" ".ts" path.

(** [file.path.replace(/\.wxss$/, '.less')] *)
Definition rename_wxss_to_less (path : string) : string :=
  replace_extension ".wxss" ".less" path.

End Plugins.

(** * Facts *)

Section Facts.

Context {Ext : Type} {X : Externals Ext}.

Local Abbreviation H := (Act Ext Eff).
Local Abbreviation M := (Act Ext Ev).

(** ** Sequencing *)

Lemma bind_ok {E A B} (m : Act Ext E A) (k : A -> Act Ext E B) s t1 s1 a :
  m s = (t1, s1, Ok a) ->
  bind m k s = (t1 ++ trace_of (k a s1), store_of (k a s1), result_of (k a s1)).
Proof.
  intros Hm. unfold bind. rewrite Hm.
  destruct (k a s1) as [[t2 s2] r]. reflexivity.
Qed.

Lemma bind_err {E A B} (m : Act Ext E A) (k : A -> Act Ext E B) s t1 s1 e :
  m s = (t1, s1, Err e) ->
  bind m k s = (t1, s1, Err e).
Proof. intros Hm. unfold bind. now rewrite Hm. Qed.

Lemma run_eta {E A} (x : list E * Store Ext * result A) :
  x = (trace_of x, store_of x, result_of x).
Proof. now destruct x as [[t s] r]. Qed.

(** ** One tap *)

Lemma callTap_eq {R} st name args (h : H R) s :
  callTap st name args h s
  = (EvCall st name args :: map EvEff (trace_of (h s))
       ++ [EvSettled st name (rejection (result_of (h s)))],
     store_of (h s), result_of (h s)).
Proof. unfold callTap, lift. now destruct (h s) as [[t s'] r]. Qed.

Lemma quiet_effects st (t : list Eff) : Forall (quiet st) (map EvEff t).
Proof. induction t; constructor; simpl; auto. Qed.

(** ** Unfolding a chain of taps *)

Lemma runWaterfall_cons {A} st (show : A -> list Value)
    (t : Tap (A -> H (option A))) rest x s :
  runWaterfall st show (t :: rest) x s
  = match tap_fn t x s with
    | (te, s1, Ok v) =>
        prepend (EvCall st (tap_name t) (show x) :: map EvEff te
                   ++ [EvSettled st (tap_name t) None])
          (runWaterfall st show rest (match v with Some v0 => v0 | None => x end) s1)
    | (te, s1, Err e) =>
        (EvCall st (tap_name t) (show x) :: map EvEff te
           ++ [EvSettled st (tap_name t) (Some e)], s1, Err e)
    end.
Proof.
  cbn [runWaterfall]. unfold bind, callTap, lift, prepend.
  destruct (tap_fn t x s) as [[te s1] [v|e]]; [|reflexivity].
  cbn [rejection].
  now destruct (runWaterfall st show rest _ s1) as [[t2 s2] r2].
Qed.

Lemma runSeries_cons {A} st (show : A -> list Value)
    (t : Tap (A -> H Value)) rest x s :
  runSeries st show (t :: rest) x s
  = match tap_fn t x s with
    | (te, s1, Ok v) =>
        prepend (EvCall st (tap_name t) (show x) :: map EvEff te
                   ++ [EvSettled st (tap_name t) None])
          (runSeries st show rest x s1)
    | (te, s1, Err e) =>
        (EvCall st (tap_name t) (show x) :: map EvEff te
           ++ [EvSettled st (tap_name t) (Some e)], s1, Err e)
    end.
Proof.
  cbn [runSeries]. unfold bind, callTap, lift, prepend.
  destruct (tap_fn t x s) as [[te s1] [v|e]]; [|reflexivity].
  cbn [rejection].
  now destruct (runSeries st show rest x s1) as [[t2 s2] r2].
Qed.

(** ** The body of a hook run: quiet, except for a final rejected tap *)

Lemma quiet_call st name args (te : list Eff) body :
  Forall (quiet st) body ->
  Forall (quiet st)
    ((EvCall st name args :: map EvEff te ++ [EvSettled st name None]) ++ body).
Proof.
  intros Hq. cbn [app]. constructor; [reflexivity|].
  rewrite <- app_assoc. rewrite Forall_app. split; [apply quiet_effects|].
  cbn [app]. constructor; [split; reflexivity | exact Hq].
Qed.

Lemma runWaterfall_body {A} st (show : A -> list Value)
    (taps : list (Tap (A -> H (option A)))) :
  forall x s,
    match rejection (result_of (runWaterfall st show taps x s)) with
    | None => Forall (quiet st) (trace_of (runWaterfall st show taps x s))
    | Some e => exists body name,
        trace_of (runWaterfall st show taps x s) = body ++ [EvSettled st name (Some e)]
        /\ Forall (quiet st) body
    end.
Proof.
  induction taps as [|t rest IH]; intros x s.
  - cbn. constructor.
  - rewrite runWaterfall_cons.
    destruct (tap_fn t x s) as [[te s1] [v|e]].
    + specialize (IH (match v with Some v0 => v0 | None => x end) s1).
      destruct (runWaterfall st show rest _ s1) as [[t2 s2] [y|e]];
        unfold prepend; cbn [trace_of store_of result_of fst snd rejection] in *.
      * now apply quiet_call.
      * destruct IH as (body & name & -> & Hq).
        eexists _, name. split; [apply app_assoc|].
        now apply quiet_call.
    + cbn [trace_of store_of result_of fst snd rejection].
      exists (EvCall st (tap_name t) (show x) :: map EvEff te), (tap_name t).
      split; [reflexivity|].
      constructor; [reflexivity | apply quiet_effects].
Qed.

Lemma runSeries_body {A} st (show : A -> list Value)
    (taps : list (Tap (A -> H Value))) :
  forall x s,
    match rejection (result_of (runSeries st show taps x s)) with
    | None => Forall (quiet st) (trace_of (runSeries st show taps x s))
    | Some e => exists body name,
        trace_of (runSeries st show taps x s) = body ++ [EvSettled st name (Some e)]
        /\ Forall (quiet st) body
    end.
Proof.
  induction taps as [|t rest IH]; intros x s.
  - cbn. constructor.
  - rewrite runSeries_cons.
    destruct (tap_fn t x s) as [[te s1] [v|e]].
    + specialize (IH x s1).
      destruct (runSeries st show rest x s1) as [[t2 s2] [y|e]];
        unfold prepend; cbn [trace_of store_of result_of fst snd rejection] in *.
      * now apply quiet_call.
      * destruct IH as (body & name & -> & Hq).
        eexists _, name. split; [apply app_assoc|].
        now apply quiet_call.
    + cbn [trace_of store_of result_of fst snd rejection].
      exists (EvCall st (tap_name t) (show x) :: map EvEff te), (tap_name t).
      split; [reflexivity|].
      constructor; [reflexivity | apply quiet_effects].
Qed.

Lemma settle_segment {A} st args (m : M A) s :
  match rejection (result_of (m s)) with
  | None => Forall (quiet st) (trace_of (m s))
  | Some e => exists body name,
      trace_of (m s) = body ++ [EvSettled st name (Some e)] /\ Forall (quiet st) body
  end ->
  stage_segment st (rejection (result_of (settle st args m s)))
    (trace_of (settle st args m s)).
Proof.
  unfold settle. destruct (m s) as [[t s'] [a|e]];
    cbn [trace_of store_of result_of fst snd rejection].
  - intros Hq. now constructor.
  - intros (body & name & -> & Hq).
    rewrite <- app_assoc. cbn [app]. now constructor.
Qed.

Lemma promiseW_segment {A} st (show : A -> list Value)
    (hk : AsyncSeriesWaterfallHook Ext A) x s :
  stage_segment st (rejection (result_of (promiseW st show hk x s)))
    (trace_of (promiseW st show hk x s)).
Proof. apply settle_segment, runWaterfall_body. Qed.

Lemma promiseS_segment {A} st (show : A -> list Value)
    (hk : AsyncSeriesHook Ext A) x s :
  stage_segment st (rejection (result_of (promiseS st show hk x s)))
    (trace_of (promiseS st show hk x s)).
Proof. apply settle_segment, runSeries_body. Qed.

(** ** The shape of a run of [create] *)

Lemma emit_cases (c : CreatorT Ext) files s :
  emit_run c files s
    ((promiseS Emit showEmit (emit (hooks c)) (context c, files) ;;;
      promiseS Init showString (init (hooks c)) (context c) ;;;
      promiseS AfterInit showString (afterInit (hooks c)) (context c))%act s).
Proof.
  unfold bind.
  destruct (promiseS Emit _ _ _ s) as [[t5 s5] [[]|e]] eqn:H5;
    [|now constructor].
  destruct (promiseS Init _ _ _ s5) as [[t6 s6] [[]|e]] eqn:H6.
  - destruct (promiseS AfterInit _ _ _ s6) as [[t7 s7] r] eqn:H7.
    eapply settled_afterInit; eauto.
  - eapply rejected_init; eauto.
Qed.

Lemma render_cases (c : CreatorT Ext) infos templatePath files s :
  render_run c infos templatePath files s
    ((promiseS Render showRender (render (hooks c))
        (mkRenderInfos (inf_projectName infos) (inf_appId infos) templatePath, files) ;;;
      promiseS BeforeEmit showFiles (beforeEmit (hooks c)) files ;;;
      promiseS Emit showEmit (emit (hooks c)) (context c, files) ;;;
      promiseS Init showString (init (hooks c)) (context c) ;;;
      promiseS AfterInit showString (afterInit (hooks c)) (context c))%act s).
Proof.
  unfold bind at 1.
  destruct (promiseS Render _ _ _ s) as [[t3 s3] [[]|e]] eqn:H3;
    [|now constructor].
  unfold bind at 1.
  destruct (promiseS BeforeEmit _ _ _ s3) as [[t4 s4] [[]|e]] eqn:H4.
  - pose proof (emit_cases c files s4) as Hrest.
    match type of Hrest with emit_run _ _ _ ?x =>
      destruct x as [[t s'] r] eqn:Hx end.
    change (t3 ++ t4 ++ t) with (t3 ++ t4 ++ trace_of (t, s', r)).
    change s' with (store_of (t, s', r)) at 2.
    change r with (result_of (t, s', r)) at 2.
    eapply after_beforeEmit; eauto.
  - eapply rejected_beforeEmit; eauto.
Qed.

Lemma create_rejected (this : CreatorT Ext) s e :
  initPlugins_rejection this = Some e -> snd (create this s) = ([], s, Err e).
Proof. intros Hrej. unfold create. cbn [snd]. now rewrite Hrej. Qed.

Lemma create_registered (this : CreatorT Ext) s :
  initPlugins_rejection this = None ->
  create_run (initPlugins this) s (snd (create this s)).
Proof.
  intros Hreg. unfold create. cbn [snd]. rewrite Hreg.
  set (c := initPlugins this).
  change (mkInfos (or_empty (projectName c)) (or_empty (appId c)) (or_empty (templateName c)))
    with (prepare_input c).
  unfold bind at 1.
  destruct (promiseW Prepare _ _ _ s) as [[t1 s1] [infos|e]] eqn:H1;
    [|now constructor].
  unfold bind at 1.
  destruct (promiseW ResolveTemplate _ _ _ s1) as [[t2 s2] [templatePath|e]] eqn:H2;
    [|eapply rejected_resolveTemplate; eauto].
  unfold bind at 1. unfold new_object at 1. cbn beta iota zeta.
  pose proof (render_cases c infos templatePath (fresh (dom (heap s2)))
                (mkStore (<[fresh (dom (heap s2)) := ∅]> (heap s2)) (ext s2))) as Hrest.
  match type of Hrest with render_run _ _ _ _ _ ?x =>
    destruct x as [[t s'] r] eqn:Hx end.
  cbn [app].
  change (t1 ++ t2 ++ t) with (t1 ++ t2 ++ trace_of (t, s', r)).
  change s' with (store_of (t, s', r)) at 2.
  change r with (result_of (t, s', r)) at 2.
  eapply after_resolveTemplate; eauto.
Qed.

Lemma create_cases (this : CreatorT Ext) s :
  (exists e, initPlugins_rejection this = Some e /\ snd (create this s) = ([], s, Err e))
  \/ (initPlugins_rejection this = None
      /\ create_run (initPlugins this) s (snd (create this s))).
Proof.
  destruct (initPlugins_rejection this) as [e|] eqn:Hreg.
  - left. exists e. split; [reflexivity | now apply create_rejected].
  - right. split; [reflexivity | now apply create_registered].
Qed.

(** ** Segments and pipelines *)

Lemma quiet_stage st ev st' : quiet st ev -> ev_stage ev = Some st' -> st' = st.
Proof.
  destruct ev; cbn; intros Hq Hs; try contradiction; try discriminate.
  - injection Hs as <-. exact Hq.
  - injection Hs as <-. apply Hq.
Qed.

Lemma quiet_no_mark st ev : quiet st ev -> mark_of ev = [].
Proof. destruct ev; cbn; intros Hq; try contradiction; reflexivity. Qed.

Lemma quiet_no_rejection st ev st' name e :
  quiet st ev -> ev <> EvSettled st' name (Some e).
Proof. intros Hq ->. cbn in Hq. destruct Hq as [_ Hq]. discriminate. Qed.

Lemma quiet_marks st body : Forall (quiet st) body -> stage_marks body = [].
Proof.
  induction 1 as [|ev body Hq _ IH]; [reflexivity|].
  unfold stage_marks in *. cbn [flat_map]. rewrite IH.
  now rewrite (quiet_no_mark st ev Hq).
Qed.

Lemma stage_marks_app t t' : stage_marks (t ++ t') = stage_marks t ++ stage_marks t'.
Proof. apply flat_map_app. Qed.

Lemma segment_marks st r t :
  stage_segment st r t -> stage_marks t = [Begun st; Settled st].
Proof.
  destruct 1 as [args body Hq | args body name e Hq].
  - change (EvStageBegin st args :: body ++ [EvStageSettled st None])
      with ([EvStageBegin st args] ++ body ++ [EvStageSettled st None]).
    rewrite !stage_marks_app, (quiet_marks st body Hq). reflexivity.
  - change (EvStageBegin st args
              :: body ++ [EvSettled st name (Some e); EvStageSettled st (Some e)])
      with ([EvStageBegin st args]
              ++ body ++ [EvSettled st name (Some e); EvStageSettled st (Some e)]).
    rewrite !stage_marks_app, (quiet_marks st body Hq). reflexivity.
Qed.

Lemma segment_stage st r t ev st' :
  stage_segment st r t -> In ev t -> ev_stage ev = Some st' -> st' = st.
Proof.
  destruct 1 as [args body Hq | args body name e Hq]; intros Hin Hs.
  - destruct Hin as [<- | Hin]; [cbn in Hs; congruence|].
    apply in_app_or in Hin as [Hin | [<- | []]].
    + rewrite Forall_forall in Hq. eapply quiet_stage; eauto.
      apply Hq. now apply list_elem_of_In.
    + cbn in Hs. congruence.
  - destruct Hin as [<- | Hin]; [cbn in Hs; congruence|].
    apply in_app_or in Hin as [Hin | [<- | [<- | []]]].
    + rewrite Forall_forall in Hq. eapply quiet_stage; eauto.
      apply Hq. now apply list_elem_of_In.
    + cbn in Hs. congruence.
    + cbn in Hs. congruence.
Qed.

Lemma segment_fulfilled_no_rejection st t st' name e :
  stage_segment st None t -> ~ In (EvSettled st' name (Some e)) t.
Proof.
  intros Hseg Hin. inversion Hseg as [args body Hq Ht|]; subst.
  destruct Hin as [Heq | Hin]; [discriminate|].
  apply in_app_or in Hin as [Hin | [Heq | []]]; [|discriminate].
  rewrite Forall_forall in Hq.
  eapply quiet_no_rejection; [apply Hq, list_elem_of_In, Hin | reflexivity].
Qed.

Lemma segment_rejected_last st e0 t st' name e :
  stage_segment st (Some e0) t ->
  In (EvSettled st' name (Some e)) t ->
  st' = st /\ e = e0 /\
  exists pre, t = pre ++ [EvSettled st' name (Some e); EvStageSettled st' (Some e)].
Proof.
  intros Hseg Hin. inversion Hseg as [|args body n e1 Hq Ht]; subst.
  destruct Hin as [Heq | Hin]; [discriminate|].
  apply in_app_or in Hin as [Hin | [Heq | [Heq | []]]]; try discriminate.
  - exfalso. rewrite Forall_forall in Hq.
    eapply quiet_no_rejection; [apply Hq, list_elem_of_In, Hin | reflexivity].
  - injection Heq as <- <- <-. repeat split.
    exists (EvStageBegin st args :: body). reflexivity.
Qed.

Lemma pipeline_marks sts t r :
  pipeline_trace sts t r ->
  match r with
  | None => stage_marks t = flat_map (fun st => [Begun st; Settled st]) sts
  | Some _ => exists n, n < length sts /\
      stage_marks t = flat_map (fun st => [Begun st; Settled st]) (firstn (S n) sts)
  end.
Proof.
  induction 1 as [|st rest t t' r Hseg _ IH|st rest t e Hseg].
  - reflexivity.
  - rewrite stage_marks_app, (segment_marks _ _ _ Hseg).
    destruct r as [e|].
    + destruct IH as (n & Hn & ->). exists (S n). split; [cbn; lia|]. reflexivity.
    + rewrite IH. reflexivity.
  - exists 0. split; [cbn; lia|]. cbn. rewrite (segment_marks _ _ _ Hseg). reflexivity.
Qed.

Lemma pipeline_rejection sts t r st name e :
  StronglySorted (fun a b => stage_index a < stage_index b) sts ->
  pipeline_trace sts t r ->
  In (EvSettled st name (Some e)) t ->
  In st sts /\ r = Some e /\
  (exists pre, t = pre ++ [EvSettled st name (Some e); EvStageSettled st (Some e)]) /\
  (forall ev st', In ev t -> ev_stage ev = Some st' -> stage_index st' <= stage_index st).
Proof.
  intros Hsorted Hp. revert Hsorted.
  induction Hp as [|st0 rest t t' r Hseg Hp IH|st0 rest t e0 Hseg];
    intros Hsorted Hin.
  - destruct Hin.
  - apply StronglySorted_inv in Hsorted as [Hrest Hlt].
    apply in_app_or in Hin as [Hin | Hin].
    { exfalso. eapply segment_fulfilled_no_rejection; eauto. }
    destruct (IH Hrest Hin) as (Hst & -> & (pre & ->) & Hle).
    split; [now right|]. split; [reflexivity|]. split.
    + exists (t ++ pre). now rewrite app_assoc.
    + intros ev st' Hev Hs. apply in_app_or in Hev as [Hev | Hev].
      * rewrite (segment_stage _ _ _ _ _ Hseg Hev Hs).
        rewrite Forall_forall in Hlt.
        specialize (Hlt st (proj2 (list_elem_of_In _ _) Hst)). lia.
      * eauto.
  - destruct (segment_rejected_last _ _ _ _ _ _ Hseg Hin) as (-> & -> & Hpre).
    split; [now left|]. split; [reflexivity|]. split; [exact Hpre|].
    intros ev st' Hev Hs. now rewrite (segment_stage _ _ _ _ _ Hseg Hev Hs).
Qed.

Lemma stage_order_sorted :
  StronglySorted (fun a b => stage_index a < stage_index b) stage_order.
Proof. unfold stage_order. repeat constructor; cbn; lia. Qed.

(** A [promise] equation gives the segment it logs. *)
Ltac segments :=
  repeat match goal with
  | Hp : promiseW ?st ?show ?hk ?x ?s = (?t, ?s', ?r) |- _ =>
      lazymatch goal with
      | _ : stage_segment st _ t |- _ => fail
      | _ => let Hs := fresh "Hseg" in
             pose proof (promiseW_segment st show hk x s) as Hs;
             rewrite Hp in Hs;
             cbn [trace_of store_of result_of fst snd rejection] in Hs
      end
  | Hp : promiseS ?st ?show ?hk ?x ?s = (?t, ?s', ?r) |- _ =>
      lazymatch goal with
      | _ : stage_segment st _ t |- _ => fail
      | _ => let Hs := fresh "Hseg" in
             pose proof (promiseS_segment st show hk x s) as Hs;
             rewrite Hp in Hs;
             cbn [trace_of store_of result_of fst snd rejection] in Hs
      end
  end.

Lemma emit_pipeline (c : CreatorT Ext) files s run :
  emit_run c files s run ->
  pipeline_trace [Emit; Init; AfterInit] (trace_of run) (rejection (result_of run)).
Proof.
  destruct 1; segments; cbn [trace_of store_of result_of fst snd rejection].
  - now apply pipeline_abort.
  - apply pipeline_next; [assumption|]. now apply pipeline_abort.
  - apply pipeline_next; [assumption|]. apply pipeline_next; [assumption|].
    destruct r as [u|e]; cbn [rejection] in *.
    + rewrite <- (app_nil_r t7). apply pipeline_next; [assumption | constructor].
    + now apply pipeline_abort.
Qed.

Lemma render_pipeline (c : CreatorT Ext) infos templatePath files s run :
  render_run c infos templatePath files s run ->
  pipeline_trace [Render; BeforeEmit; Emit; Init; AfterInit]
    (trace_of run) (rejection (result_of run)).
Proof.
  destruct 1 as [| |s2 t3 s3 t4 s4 rest H3 H4 Hrest];
    segments; cbn [trace_of store_of result_of fst snd rejection].
  - now apply pipeline_abort.
  - apply pipeline_next; [assumption|]. now apply pipeline_abort.
  - apply pipeline_next; [assumption|]. apply pipeline_next; [assumption|].
    eapply emit_pipeline; eauto.
Qed.

Lemma create_pipeline (this : CreatorT Ext) s :
  initPlugins_rejection this = None ->
  pipeline_trace stage_order (trace_of (snd (create this s)))
    (rejection (result_of (snd (create this s)))).
Proof.
  intros Hreg.
  destruct (create_registered this s Hreg)
    as [| |t1 s1 infos t2 s2 templatePath files rest H1 H2 Hfiles Hrest];
    segments; cbn [trace_of store_of result_of fst snd rejection].
  - now apply pipeline_abort.
  - apply pipeline_next; [assumption|]. now apply pipeline_abort.
  - apply pipeline_next; [assumption|]. apply pipeline_next; [assumption|].
    eapply render_pipeline; eauto.
Qed.


(** ** What the taps of a series hook are called with *)

Lemma within_effects st args (t : list Eff) : Forall (within st args) (map EvEff t).
Proof. induction t; constructor; cbn; auto. Qed.

Lemma runSeries_within {A} st (show : A -> list Value)
    (taps : list (Tap (A -> H Value))) x :
  forall s, Forall (within st (show x)) (trace_of (runSeries st show taps x s)).
Proof.
  induction taps as [|t rest IH]; intros s.
  - cbn. constructor.
  - rewrite runSeries_cons.
    destruct (tap_fn t x s) as [[te s1] [v|e]].
    + unfold prepend. cbn [trace_of fst]. cbn [app].
      constructor; [now split|].
      rewrite <- app_assoc, Forall_app. split; [apply within_effects|].
      constructor; [reflexivity | apply IH].
    + cbn [trace_of fst].
      constructor; [now split|].
      rewrite Forall_app. split; [apply within_effects|].
      now repeat constructor.
Qed.

Lemma promiseS_within {A} st (show : A -> list Value)
    (hk : AsyncSeriesHook Ext A) x s :
  Forall (within st (show x)) (trace_of (promiseS st show hk x s)).
Proof.
  unfold promiseS, settle.
  pose proof (runSeries_within st show (s_taps hk) x s) as Hb.
  destruct (runSeries st show (s_taps hk) x s) as [[t s'] r].
  cbn [trace_of fst] in *.
  constructor; [now split|].
  rewrite Forall_app. split; [exact Hb|]. now repeat constructor.
Qed.

Lemma segment_passes st r t context files :
  stage_index st < 2 \/ 4 < stage_index st ->
  stage_segment st r t -> Forall (passes_files context files) t.
Proof.
  intros Hst Hseg. rewrite Forall_forall. intros ev Hev.
  apply list_elem_of_In in Hev.
  pose proof (fun st' => segment_stage st r t ev st' Hseg Hev) as Htag.
  destruct ev as [st' a|st' a|st' n a|st' n a|e]; cbn; try exact I;
    rewrite (Htag st' eq_refl) in *; destruct st; cbn in Hst; try lia; exact I.
Qed.

Lemma within_passes_render context files infos t :
  Forall (within Render (showRender (infos, files))) t ->
  Forall (passes_files context files) t.
Proof.
  intros Hw. eapply Forall_impl; [exact Hw|].
  intros [st a|st a|st n a|st n a|e]; cbn; try tauto.
  - intros [-> ->]. now exists infos.
  - intros [-> ->]. now exists infos.
Qed.

Lemma within_passes_beforeEmit context files t :
  Forall (within BeforeEmit (showFiles files)) t ->
  Forall (passes_files context files) t.
Proof.
  intros Hw. eapply Forall_impl; [exact Hw|].
  intros [st a|st a|st n a|st n a|e]; cbn; try tauto.
  - now intros [-> ->].
  - now intros [-> ->].
Qed.

Lemma within_passes_emit context files t :
  Forall (within Emit (showEmit (context, files))) t ->
  Forall (passes_files context files) t.
Proof.
  intros Hw. eapply Forall_impl; [exact Hw|].
  intros [st a|st a|st n a|st n a|e]; cbn; try tauto.
  - now intros [-> ->].
  - now intros [-> ->].
Qed.

(** A series [promise] equation gives what its log is made of. *)
Ltac withins :=
  repeat match goal with
  | Hp : promiseS ?st ?show ?hk ?x ?s = (?t, ?s', ?r) |- _ =>
      lazymatch goal with
      | _ : Forall (within st _) t |- _ => fail
      | _ => let Hw := fresh "Hwithin" in
             pose proof (promiseS_within st show hk x s) as Hw;
             rewrite Hp in Hw; cbn [trace_of fst] in Hw
      end
  end.

Lemma emit_run_passes (c : CreatorT Ext) files s run :
  emit_run c files s run -> Forall (passes_files (context c) files) (trace_of run).
Proof.
  destruct 1; segments; withins; cbn [trace_of fst]; rewrite ?Forall_app;
    repeat split;
    first [ now apply within_passes_emit
          | eapply segment_passes; [|eassumption]; cbn; lia ].
Qed.

Lemma render_run_passes (c : CreatorT Ext) infos templatePath files s run :
  render_run c infos templatePath files s run ->
  Forall (passes_files (context c) files) (trace_of run).
Proof.
  destruct 1 as [| |s2 t3 s3 t4 s4 rest H3 H4 Hrest];
    segments; withins; cbn [trace_of fst]; rewrite ?Forall_app;
    repeat split;
    first [ eapply within_passes_render; eassumption
          | apply within_passes_beforeEmit; assumption
          | eapply emit_run_passes; eassumption ].
Qed.

Lemma create_split (this : CreatorT Ext) s t s4 files :
  initPlugins_rejection this = None ->
  create_until_emit (initPlugins this) s = (t, s4, Ok files) ->
  snd (create this s) = prepend t (create_from_emit (initPlugins this) files s4).
Proof.
  intros Hreg.
  unfold create, create_until_emit, create_from_emit, prepare_input. cbn [snd].
  rewrite Hreg.
  set (c := initPlugins this).
  unfold bind at 1 6.
  destruct (promiseW Prepare _ _ _ s) as [[t1 s1] [infos|e]]; [|discriminate].
  unfold bind at 1 5.
  destruct (promiseW ResolveTemplate _ _ _ s1) as [[t2 s2] [templatePath|e]];
    [|discriminate].
  unfold bind at 1 4. unfold new_object. cbn beta iota zeta.
  set (l := fresh (dom (heap s2))).
  set (s2' := mkStore (<[l := ∅]> (heap s2)) (ext s2)).
  unfold bind at 1 3.
  destruct (promiseS Render _ _ _ s2') as [[t3 s3] [[]|e]]; [|discriminate].
  unfold bind at 1 2.
  destruct (promiseS BeforeEmit _ _ _ s3) as [[t4 s4'] [[]|e]]; [|discriminate].
  unfold ret. cbn [app]. intros [= <- <- <-].
  unfold prepend.
  match goal with |- context [bind ?m ?k s4'] => destruct (bind m k s4') as [[t5 s5] r5] end.
  cbn [trace_of store_of result_of fst snd].
  now rewrite !app_nil_r, <- !app_assoc.
Qed.

Lemma until_passes (c : CreatorT Ext) s t s4 files :
  create_until_emit c s = (t, s4, Ok files) ->
  Forall (passes_files (context c) files) t.
Proof.
  unfold create_until_emit.
  unfold bind at 1.
  destruct (promiseW Prepare _ _ _ s) as [[t1 s1] [infos|e]] eqn:H1; [|discriminate].
  unfold bind at 1.
  destruct (promiseW ResolveTemplate _ _ _ s1) as [[t2 s2] [templatePath|e]] eqn:H2;
    [|discriminate].
  unfold bind at 1. unfold new_object. cbn beta iota zeta.
  set (l := fresh (dom (heap s2))).
  set (s2' := mkStore (<[l := ∅]> (heap s2)) (ext s2)).
  unfold bind at 1.
  destruct (promiseS Render _ _ _ s2') as [[t3 s3] [[]|e]] eqn:H3; [|discriminate].
  unfold bind at 1.
  destruct (promiseS BeforeEmit _ _ _ s3) as [[t4 s4'] [[]|e]] eqn:H4; [|discriminate].
  unfold ret. intros [= <- <- <-].
  segments; withins. cbn [app]. rewrite app_nil_r, !Forall_app.
  repeat split;
    first [ eapply within_passes_render; eassumption
          | apply within_passes_beforeEmit; assumption
          | eapply segment_passes; [|eassumption]; cbn; lia ].
Qed.

(** ** Claims about the pipeline *)

(** C1: in every run of [create] the seven hooks are promised in the order
    prepare, resolveTemplate, render, beforeEmit, emit, init, afterInit;
    the log is made of their segments back to back, so a hook is promised
    only after the previous one has settled (and fulfilled).  When [create]
    is fulfilled all seven were run, each once; when it is rejected the
    hooks run are a prefix of the seven, the last of them the one that
    rejected.  The prefix is empty exactly when the awaited [initPlugins]
    was rejected: then [create] is rejected with that error, nothing is
    logged and the store is untouched. *)
Theorem create_runs_stages_in_order (this : CreatorT Ext) (s : Store Ext) :
  let run := snd (create this s) in
  match initPlugins_rejection this with
  | Some e => run = ([], s, Err e)
  | None => pipeline_trace stage_order (trace_of run) (rejection (result_of run))
  end
  /\ match result_of run with
     | Ok _ =>
         stage_marks (trace_of run)
         = [Begun Prepare; Settled Prepare;
            Begun ResolveTemplate; Settled ResolveTemplate;
            Begun Render; Settled Render;
            Begun BeforeEmit; Settled BeforeEmit;
            Begun Emit; Settled Emit;
            Begun Init; Settled Init;
            Begun AfterInit; Settled AfterInit]
     | Err e =>
         exists n, n <= 7 /\
           stage_marks (trace_of run)
           = flat_map (fun st => [Begun st; Settled st]) (firstn n stage_order)
           /\ (n = 0 <-> initPlugins_rejection this = Some e /\ trace_of run = [])
     end.
Proof.
  intros run.
  destruct (initPlugins_rejection this) as [e|] eqn:Hreg.
  - pose proof (create_rejected this s e Hreg) as Hrun. fold run in Hrun.
    split; [exact Hrun|]. rewrite Hrun. cbn [result_of trace_of fst snd].
    exists 0. split; [lia|]. split; [reflexivity|]. now split.
  - pose proof (create_pipeline this s Hreg) as Hp. fold run in Hp.
    split; [exact Hp|].
    apply pipeline_marks in Hp.
    destruct (result_of run) as [u|e]; cbn [rejection] in Hp; [exact Hp|].
    destruct Hp as (n & Hn & Hmarks). exists (S n). split; [cbn in Hn; lia|].
    split; [exact Hmarks|]. split; [discriminate|]. intros [Hno _]. discriminate.
Qed.

(** C3: when the promise of a function tapped on any hook is rejected
    during [create], [create] is rejected with that same reason, the
    rejection is the last thing that happens (the hook settles rejected and
    the log ends), and nothing of any later hook appears in the log; in
    particular after a rejection in beforeEmit the emit, init and afterInit
    hooks are never promised. *)
Theorem create_aborts_on_rejection (this : CreatorT Ext) (s : Store Ext)
    (st : Stage) (name : string) (e : error) :
  let run := snd (create this s) in
  In (EvSettled st name (Some e)) (trace_of run) ->
  result_of run = Err e
  /\ (exists pre,
        trace_of run = pre ++ [EvSettled st name (Some e); EvStageSettled st (Some e)])
  /\ (forall ev st', In ev (trace_of run) -> ev_stage ev = Some st' ->
        stage_index st' <= stage_index st)
  /\ (st = BeforeEmit ->
      forall ev, In ev (trace_of run) ->
        ev_stage ev <> Some Emit /\ ev_stage ev <> Some Init
        /\ ev_stage ev <> Some AfterInit).
Proof.
  intros run Hin.
  destruct (initPlugins_rejection this) as [e0|] eqn:Hreg.
  { subst run. rewrite (create_rejected this s e0 Hreg) in Hin. destruct Hin. }
  destruct (pipeline_rejection _ _ _ _ _ _ stage_order_sorted
              (create_pipeline this s Hreg) Hin) as (_ & Hr & Hpre & Hle).
  fold run in Hr, Hpre, Hle.
  split.
  { destruct (result_of run) as [u|e']; cbn in Hr; congruence. }
  split; [exact Hpre|]. split; [exact Hle|].
  intros -> ev Hev.
  repeat split; intros Hs; specialize (Hle ev _ Hev Hs); cbn in Hle; lia.
Qed.

(** C7: within one run of [create] there is one object [files]: it is what
    the render, beforeEmit and emit hooks are promised with and what every
    function tapped on them is called with.  No copy is made between the
    hooks: once [initPlugins] has returned and the hooks up to beforeEmit
    have been fulfilled, the rest of [create] is the emit, init and
    afterInit hooks run on that same object in the very store the render
    and beforeEmit taps left behind.  (When [initPlugins] is rejected no
    hook is promised and no object is made.) *)
Theorem create_shares_files (this : CreatorT Ext) (s : Store Ext) :
  let run := snd (create this s) in
  (exists files, Forall (passes_files (context this) files) (trace_of run))
  /\ (forall t s4 files,
        initPlugins_rejection this = None ->
        create_until_emit (initPlugins this) s = (t, s4, Ok files) ->
        Forall (passes_files (context this) files) (trace_of run)
        /\ run = prepend t (create_from_emit (initPlugins this) files s4))
  /\ (forall e, initPlugins_rejection this = Some e -> run = ([], s, Err e)).
Proof.
  intros run. split; [|split; [|intros e; apply create_rejected]].
  - subst run.
    destruct (create_cases this s) as [(e0 & _ & ->) | [_ Hc]];
      [exists 1%positive; constructor|].
    change (context this) with (context (initPlugins this)).
    destruct Hc as [t1 s1 e H1|t1 s1 infos t2 s2 e H1 H2
                    |t1 s1 infos t2 s2 templatePath files rest H1 H2 Hfiles Hrest];
      [exists 1%positive | exists 1%positive | exists files];
      segments; cbn [trace_of fst]; rewrite ?Forall_app; repeat split;
      first [ eapply render_run_passes; eassumption
            | eapply segment_passes; [|eassumption]; cbn; lia ].
  - intros t s4 files Hreg Hu.
    pose proof (create_split this s t s4 files Hreg Hu) as Hsplit. fold run in Hsplit.
    split; [|exact Hsplit].
    rewrite Hsplit. unfold prepend. cbn [trace_of fst].
    rewrite Forall_app. split.
    + now apply (until_passes _ _ _ _ _ Hu).
    + apply (emit_run_passes (initPlugins this) files s4), emit_cases.
Qed.


(** ** Registration only ever appends *)

Lemma hooks_extend_refl (h : Hooks Ext) : hooks_extend h h.
Proof. unfold hooks_extend. repeat split; exists []; now rewrite app_nil_r. Qed.

Lemma hooks_extend_trans (h1 h2 h3 : Hooks Ext) :
  hooks_extend h1 h2 -> hooks_extend h2 h3 -> hooks_extend h1 h3.
Proof.
  unfold hooks_extend.
  intros ([a1 E1] & [a2 E2] & [a3 E3] & [a4 E4] & [a5 E5] & [a6 E6] & [a7 E7])
         ([b1 F1] & [b2 F2] & [b3 F3] & [b4 F4] & [b5 F5] & [b6 F6] & [b7 F7]).
  rewrite F1, F2, F3, F4, F5, F6, F7, E1, E2, E3, E4, E5, E6, E7.
  repeat split; eexists; symmetry; apply app_assoc.
Qed.

Lemma applyTap_extends id (h h' : Hooks Ext) c :
  applyTap id h c = Ok h' -> hooks_extend h h'.
Proof.
  unfold applyTap. destruct (tap_name_error id); [discriminate|]. intros [= <-].
  unfold hooks_extend.
  destruct c; cbn; repeat split;
    first [ exists []; now rewrite app_nil_r | eexists; reflexivity ].
Qed.

Lemma runCreator_extends id steps :
  forall h : Hooks Ext, hooks_extend h (fst (runCreator id steps h)).
Proof.
  induction steps as [|[c|e] steps IH]; intros h; cbn [runCreator].
  - apply hooks_extend_refl.
  - destruct (applyTap id h c) as [h'|e] eqn:Ha.
    + eapply hooks_extend_trans; [eapply applyTap_extends; exact Ha | apply IH].
    + apply hooks_extend_refl.
  - apply hooks_extend_refl.
Qed.

Lemma registerPlugin_extends (h : Hooks Ext) p : hooks_extend h (fst (registerPlugin h p)).
Proof.
  unfold registerPlugin. destruct (creator (module p)).
  - apply runCreator_extends.
  - apply hooks_extend_refl.
Qed.

Lemma registerPlugins_extends plugins :
  forall h : Hooks Ext, hooks_extend h (fst (registerPlugins plugins h)).
Proof.
  induction plugins as [|p plugins IH]; intros h; cbn [registerPlugins].
  - apply hooks_extend_refl.
  - pose proof (registerPlugin_extends h p) as Hp.
    destruct (registerPlugin h p) as [h' [e|]]; cbn [fst] in *.
    + exact Hp.
    + eapply hooks_extend_trans; [exact Hp | apply IH].
Qed.

Lemma initPlugins_extends (this : CreatorT Ext) :
  hooks_extend (hooks this) (hooks (initPlugins this)).
Proof.
  unfold initPlugins, setHooks. cbn [hooks]. apply registerPlugins_extends.
Qed.

Lemma initPlugins_context (this : CreatorT Ext) :
  context (initPlugins this) = context this.
Proof. reflexivity. Qed.

Lemma iter_initPlugins_context n (this : CreatorT Ext) :
  context (Nat.iter n initPlugins this) = context this.
Proof. induction n; cbn; auto. Qed.

Lemma defaults_first_extend ctx (h h' : Hooks Ext) :
  defaults_first ctx h -> hooks_extend h h' -> defaults_first ctx h'.
Proof.
  unfold defaults_first, hooks_extend.
  intros ([a2 E2] & [a3 E3] & [a5 E5] & [a6 E6])
         (_ & [b2 F2] & [b3 F3] & _ & [b5 F5] & [b6 F6] & _).
  rewrite F2, F3, F5, F6, E2, E3, E5, E6.
  repeat split; eexists; reflexivity.
Qed.

Lemma newCreator_defaults_first ctx b o :
  defaults_first ctx (hooks (newCreator ctx b o)).
Proof. unfold defaults_first. cbn. repeat split; eexists; reflexivity. Qed.

Lemma iter_initPlugins_defaults_first ctx b o n :
  defaults_first ctx (hooks (Nat.iter n initPlugins (newCreator ctx b o))).
Proof.
  induction n as [|n IH]; cbn [Nat.iter].
  - apply newCreator_defaults_first.
  - eapply defaults_first_extend; [exact IH | apply initPlugins_extends].
Qed.

(** ** The view of one stage *)

Lemma stage_view_app st t t' :
  stage_view st (t ++ t') = stage_view st t ++ stage_view st t'.
Proof. apply filter_app. Qed.

Lemma stage_view_in st ev t :
  ev_stage ev = Some st -> stage_view st (ev :: t) = ev :: stage_view st t.
Proof. intros Hs. unfold stage_view. now rewrite filter_cons_True. Qed.

Lemma stage_view_effects st (te : list Eff) : stage_view st (map EvEff te) = [].
Proof.
  induction te as [|e te IH]; [reflexivity|].
  cbn [map]. unfold stage_view in *. now rewrite filter_cons_False.
Qed.

Lemma stage_view_other st st' r t :
  st <> st' -> stage_segment st' r t -> stage_view st t = [].
Proof.
  intros Hne Hseg.
  assert (Hall : forall ev, In ev t -> ev_stage ev <> Some st).
  { intros ev Hev Hs. apply Hne. eapply segment_stage; eauto. }
  clear Hseg. induction t as [|ev t IH]; [reflexivity|].
  unfold stage_view in *. rewrite filter_cons_False.
  - apply IH. intros ev' Hev'. apply Hall. now right.
  - apply Hall. now left.
Qed.

Lemma runs_first_intro st name args (te : list Eff) r body r' :
  match r with Some _ => body = [] /\ r' = r | None => True end ->
  runs_first name st
    (EvStageBegin st args :: EvCall st name args
       :: (map EvEff te ++ EvSettled st name r :: body) ++ [EvStageSettled st r']).
Proof.
  intros Hr. right.
  exists args, r, (stage_view st (body ++ [EvStageSettled st r'])). split.
  - rewrite stage_view_in by reflexivity.
    rewrite stage_view_in by reflexivity.
    rewrite <- app_assoc, stage_view_app, stage_view_effects. cbn [app].
    rewrite stage_view_in by reflexivity. reflexivity.
  - destruct r as [e|]; [|exact I].
    destruct Hr as [-> ->]. cbn [app]. now rewrite stage_view_in.
Qed.

Lemma promiseW_runs_first {A} st (show : A -> list Value)
    (hk : AsyncSeriesWaterfallHook Ext A) x s name fn more :
  w_taps hk = mkTap name fn :: more ->
  runs_first name st (trace_of (promiseW st show hk x s)).
Proof.
  intros Htaps. unfold promiseW, settle. rewrite Htaps, runWaterfall_cons.
  cbn [tap_fn tap_name].
  destruct (fn x s) as [[te s1] [v|e]].
  - destruct (runWaterfall st show more _ s1) as [[t2 s2] r2].
    unfold prepend. cbn [trace_of store_of result_of fst snd app].
    rewrite <- (app_assoc (map EvEff te) [_] t2). cbn [app].
    now apply runs_first_intro.
  - cbn [trace_of fst rejection app]. now apply runs_first_intro.
Qed.

Lemma promiseS_runs_first {A} st (show : A -> list Value)
    (hk : AsyncSeriesHook Ext A) x s name fn more :
  s_taps hk = mkTap name fn :: more ->
  runs_first name st (trace_of (promiseS st show hk x s)).
Proof.
  intros Htaps. unfold promiseS, settle. rewrite Htaps, runSeries_cons.
  cbn [tap_fn tap_name].
  destruct (fn x s) as [[te s1] [v|e]].
  - destruct (runSeries st show more x s1) as [[t2 s2] r2].
    unfold prepend. cbn [trace_of store_of result_of fst snd app].
    rewrite <- (app_assoc (map EvEff te) [_] t2). cbn [app].
    now apply runs_first_intro.
  - cbn [trace_of fst rejection app]. now apply runs_first_intro.
Qed.

Lemma runs_first_app_l name st t t' :
  stage_view st t' = [] -> runs_first name st t -> runs_first name st (t ++ t').
Proof.
  intros Ht' [Hv | (args & r & rest & Hv & Hr)]; unfold runs_first;
    rewrite stage_view_app, Ht', app_nil_r; [now left | right; eauto].
Qed.

Lemma runs_first_app_r name st t t' :
  stage_view st t = [] -> runs_first name st t' -> runs_first name st (t ++ t').
Proof.
  intros Ht [Hv | (args & r & rest & Hv & Hr)]; unfold runs_first;
    rewrite stage_view_app, Ht; cbn [app]; [now left | right; eauto].
Qed.

Lemma runs_first_never name st t : stage_view st t = [] -> runs_first name st t.
Proof. now left. Qed.


(** The other stages leave nothing in the view of [st]. *)
Ltac views st :=
  repeat match goal with
  | Hseg : stage_segment ?st' _ ?t |- _ =>
      lazymatch goal with
      | _ : stage_view st t = [] |- _ => fail
      | _ => assert (stage_view st t = [])
               by (eapply stage_view_other; [|exact Hseg]; discriminate)
      end
  end.

Ltac use_views st :=
  unfold runs_first; rewrite ?stage_view_app;
  repeat match goal with
  | Hv : stage_view st ?t = [] |- _ => rewrite Hv; clear Hv
  end;
  cbn [app]; rewrite ?app_nil_r.

Lemma emit_run_first (c : CreatorT Ext) ctx files s run :
  defaults_first ctx (hooks c) ->
  emit_run c files s run ->
  stage_view ResolveTemplate (trace_of run) = []
  /\ stage_view Render (trace_of run) = []
  /\ runs_first "creator" Emit (trace_of run)
  /\ runs_first "creator" Init (trace_of run).
Proof.
  intros (_ & _ & [m5 E5] & [m6 E6]) Hrun.
  destruct Hrun as [s4 t5 s5 e H5|s4 t5 s5 t6 s6 e H5 H6|s4 t5 s5 t6 s6 t7 s7 r H5 H6 H7];
    pose proof (promiseS_runs_first Emit showEmit _ (context c, files) s4 _ _ _ E5) as F5;
    rewrite H5 in F5; cbn [trace_of fst] in F5;
    try (pose proof (promiseS_runs_first Init showString _ (context c) s5 _ _ _ E6) as F6;
         rewrite H6 in F6; cbn [trace_of fst] in F6);
    segments; cbn [trace_of fst];
    (split; [views ResolveTemplate; use_views ResolveTemplate; reflexivity|]);
    (split; [views Render; use_views Render; reflexivity|]);
    (split; [views Emit; use_views Emit; exact F5|]);
    views Init; use_views Init; first [exact F6 | now left].
Qed.

Lemma render_run_first (c : CreatorT Ext) ctx infos templatePath files s run :
  defaults_first ctx (hooks c) ->
  render_run c infos templatePath files s run ->
  stage_view ResolveTemplate (trace_of run) = []
  /\ runs_first "creator" Render (trace_of run)
  /\ runs_first "creator" Emit (trace_of run)
  /\ runs_first "creator" Init (trace_of run).
Proof.
  intros Hd Hrun. pose proof Hd as (_ & [m3 E3] & _ & _).
  destruct Hrun as [s2 t3 s3 e H3|s2 t3 s3 t4 s4 e H3 H4|s2 t3 s3 t4 s4 rest H3 H4 Hrest];
    pose proof (promiseS_runs_first Render showRender _
                  (mkRenderInfos (inf_projectName infos) (inf_appId infos) templatePath, files)
                  s2 _ _ _ E3) as F3;
    rewrite H3 in F3; cbn [trace_of fst] in F3;
    segments; cbn [trace_of fst].
  - split; [views ResolveTemplate; use_views ResolveTemplate; reflexivity|].
    split; [exact F3|].
    split; views Emit; views Init; now left.
  - split; [views ResolveTemplate; use_views ResolveTemplate; reflexivity|].
    split; [views Render; use_views Render; exact F3|].
    split; [views Emit; use_views Emit; now left|].
    views Init; use_views Init; now left.
  - destruct (emit_run_first c ctx files s4 rest Hd Hrest) as (V2 & V3 & F5 & F6).
    split; [views ResolveTemplate; use_views ResolveTemplate; reflexivity|].
    split; [views Render; use_views Render; exact F3|].
    split; [views Emit; use_views Emit; exact F5|].
    views Init; use_views Init; exact F6.
Qed.

(** C8: on a creator as its constructor made it, after any number of
    earlier [create] calls, the functions the constructor tapped under the
    name [creator] on the resolveTemplate, render, emit and init hooks are
    still the first taps of these hooks when [create] has registered the
    plugins (registration only appends); and in the run, on each of these
    four hooks, the first function called is that tap and its promise
    settles before any other function tapped on the hook is called. *)
Theorem defaults_run_before_plugins (ctx : string) (b : BuiltIns Ext)
    (o : CreatorOptions Ext) (n : nat) (s : Store Ext) :
  let this := Nat.iter n initPlugins (newCreator ctx b o) in
  let run := snd (create this s) in
  defaults_first ctx (hooks (fst (create this s)))
  /\ runs_first "creator" ResolveTemplate (trace_of run)
  /\ runs_first "creator" Render (trace_of run)
  /\ runs_first "creator" Emit (trace_of run)
  /\ runs_first "creator" Init (trace_of run).
Proof.
  intros this run.
  assert (Hd : defaults_first ctx (hooks (initPlugins this))).
  { apply (iter_initPlugins_defaults_first ctx b o (S n)). }
  split; [exact Hd|].
  subst run. pose proof Hd as ([m2 E2] & _).
  destruct (create_cases this s) as [(e0 & _ & ->) | [_ Hc]];
    [repeat split; now left|].
  destruct Hc
    as [t1 s1 e H1|t1 s1 infos t2 s2 e H1 H2
        |t1 s1 infos t2 s2 templatePath files rest H1 H2 Hfiles Hrest];
    try (pose proof (promiseW_runs_first ResolveTemplate showString _
                       (inf_templateName infos) s1 _ _ _ E2) as F2;
         rewrite H2 in F2; cbn [trace_of fst] in F2);
    segments; cbn [trace_of fst].
  - repeat split; apply runs_first_never;
      (eapply stage_view_other; [|eassumption]; discriminate).
  - split; [views ResolveTemplate; use_views ResolveTemplate; exact F2|].
    split; [views Render; use_views Render; now left|].
    split; [views Emit; use_views Emit; now left|].
    views Init; use_views Init; now left.
  - destruct (render_run_first _ ctx _ _ _ _ rest Hd Hrest) as (V2 & F3 & F5 & F6).
    split; [views ResolveTemplate; use_views ResolveTemplate; exact F2|].
    split; [views Render; use_views Render; exact F3|].
    split; [views Emit; use_views Emit; exact F5|].
    views Init; use_views Init; exact F6.
Qed.


(** ** The two kinds of hook *)

Lemma runWaterfall_snoc {A} st (show : A -> list Value)
    (taps : list (Tap (A -> H (option A)))) t :
  forall x s,
    runWaterfall st show (taps ++ [t]) x s
    = (y <- runWaterfall st show taps x ;;
       r <- callTap st (tap_name t) (show y) (tap_fn t y) ;;
       ret (match r with Some z => z | None => y end))%act s.
Proof.
  induction taps as [|t0 taps IH]; intros x s.
  - cbn [app runWaterfall]. unfold bind, ret. cbn [app].
    destruct (callTap st (tap_name t) (show x) (tap_fn t x) s) as [[t1 s1] [r|e]];
      [|reflexivity].
    now rewrite app_nil_r.
  - cbn [app]. rewrite runWaterfall_cons. unfold bind at 1.
    rewrite runWaterfall_cons.
    destruct (tap_fn t0 x s) as [[te s1] [v|e]]; [|reflexivity].
    rewrite IH. unfold prepend, bind.
    destruct (runWaterfall st show taps _ s1) as [[t2 s2] [y|e]];
      cbn [trace_of store_of result_of fst snd]; [|reflexivity].
    destruct (callTap st (tap_name t) (show y) (tap_fn t y) s2) as [[t3 s3] [r|e]];
      cbn [trace_of store_of result_of fst snd ret].
    + unfold ret. now rewrite !app_nil_r, <- !app_assoc.
    + now rewrite <- !app_assoc.
Qed.

Lemma runSeries_map_resolved {A} st (show : A -> list Value) f
    (taps : list (Tap (A -> H Value))) x :
  forall s,
    runSeries st show (map (map_resolved f) taps) x s = runSeries st show taps x s.
Proof.
  induction taps as [|t taps IH]; intros s; [reflexivity|].
  cbn [map]. rewrite !runSeries_cons.
  unfold map_resolved at 1 2 3 4. cbn [tap_name tap_fn]. unfold bind, ret.
  destruct (tap_fn t x s) as [[te s1] [v|e]]; [|reflexivity].
  now rewrite app_nil_r, IH.
Qed.

Lemma runSeries_snoc {A} st (show : A -> list Value)
    (taps : list (Tap (A -> H Value))) t x :
  forall s,
    runSeries st show (taps ++ [t]) x s
    = (runSeries st show taps x ;;;
       callTap st (tap_name t) (show x) (tap_fn t x) ;;;
       ret tt)%act s.
Proof.
  induction taps as [|t0 taps IH]; intros s.
  - cbn [app runSeries]. unfold bind, ret. cbn [app].
    now destruct (callTap st (tap_name t) (show x) (tap_fn t x) s) as [[t1 s1] [r|e]].
  - cbn [app]. rewrite runSeries_cons. unfold bind at 1.
    rewrite runSeries_cons.
    destruct (tap_fn t0 x s) as [[te s1] [v|e]]; [|reflexivity].
    rewrite IH. unfold prepend, bind.
    destruct (runSeries st show taps x s1) as [[t2 s2] [[]|e]];
      cbn [trace_of store_of result_of fst snd]; [|reflexivity].
    destruct (callTap st (tap_name t) (show x) (tap_fn t x) s2) as [[t3 s3] [r|e]];
      cbn [trace_of store_of result_of fst snd ret].
    + unfold ret. now rewrite !app_nil_r, <- !app_assoc.
    + now rewrite <- !app_assoc.
Qed.

Lemma segment_series_input st r t context files :
  stage_index st < 2 ->
  stage_segment st r t -> Forall (series_input context files) t.
Proof.
  intros Hst Hseg. rewrite Forall_forall. intros ev Hev.
  apply list_elem_of_In in Hev.
  pose proof (fun st' => segment_stage st r t ev st' Hseg Hev) as Htag.
  destruct ev as [st' a|st' a|st' n a|st' n a|e]; cbn; try exact I;
    rewrite (Htag st' eq_refl) in *; destruct st; cbn in Hst; try lia; exact I.
Qed.

Lemma within_series_input context files st args t :
  series_input context files (EvStageBegin st args) ->
  Forall (within st args) t -> Forall (series_input context files) t.
Proof.
  intros Hargs Hw. eapply Forall_impl; [exact Hw|].
  intros [st' a|st' a|st' n a|st' n a|e]; cbn; try tauto.
  - now intros [-> ->].
  - now intros [-> ->].
Qed.

Lemma emit_run_series_input (c : CreatorT Ext) files s run :
  emit_run c files s run -> Forall (series_input (context c) files) (trace_of run).
Proof.
  destruct 1; withins; cbn [trace_of fst]; rewrite ?Forall_app; repeat split;
    (eapply within_series_input; [|eassumption]); reflexivity.
Qed.

Lemma render_run_series_input (c : CreatorT Ext) infos templatePath files s run :
  render_run c infos templatePath files s run ->
  Forall (series_input (context c) files) (trace_of run).
Proof.
  destruct 1 as [| |s2 t3 s3 t4 s4 rest H3 H4 Hrest];
    withins; cbn [trace_of fst]; rewrite ?Forall_app; repeat split;
    first [ eapply emit_run_series_input; eassumption
          | eapply within_series_input; [|eassumption];
            first [reflexivity | cbn; eauto] ].
Qed.

Lemma create_series_input (this : CreatorT Ext) s :
  exists files,
    Forall (series_input (context this) files) (trace_of (snd (create this s))).
Proof.
  destruct (create_cases this s) as [(e0 & _ & ->) | [_ Hc]];
    [exists 1%positive; constructor|].
  change (context this) with (context (initPlugins this)).
  destruct Hc as [t1 s1 e H1|t1 s1 infos t2 s2 e H1 H2
                  |t1 s1 infos t2 s2 templatePath files rest H1 H2 Hfiles Hrest];
    [exists 1%positive | exists 1%positive | exists files];
    segments; cbn [trace_of fst]; rewrite ?Forall_app; repeat split;
    first [ eapply render_run_series_input; eassumption
          | eapply segment_series_input; [|eassumption]; cbn; lia ].
Qed.

(** C2: [Creator.hooks] has exactly the seven hooks; prepare and
    resolveTemplate are waterfall hooks, the other five series hooks, and
    once [initPlugins] has returned [create] promises each of them in turn.
    A tapped function is called on the store as it is and its promise
    awaited.  A waterfall hook without taps resolves to its argument; a
    function tapped on it is called after those tapped before, with what
    they produced, and what it resolves to is the hook's result (the value
    is kept when it resolves to [undefined]).  A function tapped on a series
    hook is called after those tapped before, once they are fulfilled, with
    the very arguments given to [promise]; replacing what the functions
    resolve to changes nothing.  What a series hook is promised with is not
    what the hook before it resolved to but what [create] built: one
    [files] object for render, beforeEmit and emit, the project directory
    for emit, init and afterInit. *)
Theorem hooks_composition :
  (forall st, In st stage_order) /\ NoDup stage_order /\ length stage_order = 7
  /\ (forall (h : Hooks Ext) st,
        kind (hookOf h st)
        = match st with
          | Prepare | ResolveTemplate => Waterfall
          | Render | BeforeEmit | Emit | Init | AfterInit => Series
          end)
  /\ (forall (this : CreatorT Ext) s,
        initPlugins_rejection this = None ->
        create_run (initPlugins this) s (snd (create this s)))
  /\ (forall (this : CreatorT Ext) s,
        exists files,
          Forall (series_input (context this) files) (trace_of (snd (create this s))))
  /\ (forall R st name args (h : H R) s,
        callTap st name args h s
        = (EvCall st name args :: map EvEff (trace_of (h s))
             ++ [EvSettled st name (rejection (result_of (h s)))],
           store_of (h s), result_of (h s)))
  /\ (forall A st (show : A -> list Value) x (s : Store Ext),
        promiseW st show (mkWaterfall []) x s
        = ([EvStageBegin st (show x); EvStageSettled st None], s, Ok x))
  /\ (forall A st (show : A -> list Value) (taps : list (Tap (A -> H (option A)))) t x s,
        runWaterfall st show (taps ++ [t]) x s
        = (y <- runWaterfall st show taps x ;;
           r <- callTap st (tap_name t) (show y) (tap_fn t y) ;;
           ret (match r with Some z => z | None => y end))%act s)
  /\ (forall A st (show : A -> list Value) (hk : AsyncSeriesWaterfallHook Ext A)
        name fn x s,
        promiseW st show (tapPromiseW hk name fn) x s
        = settle st (show x)
            (y <- runWaterfall st show (w_taps hk) x ;;
             r <- callTap st name (show y) (fn y) ;;
             ret (match r with Some z => z | None => y end))%act s)
  /\ (forall A st (show : A -> list Value) (x : A) (s : Store Ext),
        promiseS st show (mkSeries []) x s
        = ([EvStageBegin st (show x); EvStageSettled st None], s, Ok tt))
  /\ (forall A st (show : A -> list Value) (taps : list (Tap (A -> H Value))) t x s,
        runSeries st show (taps ++ [t]) x s
        = (runSeries st show taps x ;;;
           callTap st (tap_name t) (show x) (tap_fn t x) ;;;
           ret tt)%act s)
  /\ (forall A st (show : A -> list Value) (hk : AsyncSeriesHook Ext A) name fn x s,
        promiseS st show (tapPromiseS hk name fn) x s
        = settle st (show x)
            (runSeries st show (s_taps hk) x ;;;
             callTap st name (show x) (fn x) ;;;
             ret tt)%act s)
  /\ (forall A st (show : A -> list Value) (hk : AsyncSeriesHook Ext A) x s,
        Forall (within st (show x)) (trace_of (promiseS st show hk x s)))
  /\ (forall A st (show : A -> list Value) f (taps : list (Tap (A -> H Value))) x s,
        promiseS st show (mkSeries (map (map_resolved f) taps)) x s
        = promiseS st show (mkSeries taps) x s).
Proof.
  split; [intros []; cbn; tauto|].
  split; [apply (bool_decide_unpack _); reflexivity|].
  split; [reflexivity|].
  split; [intros h []; reflexivity|].
  split; [apply create_registered|].
  split; [apply create_series_input|].
  split; [intros; apply callTap_eq|].
  split; [reflexivity|].
  split; [intros; apply runWaterfall_snoc|].
  split.
  { intros. unfold promiseW, tapPromiseW, settle. cbn [w_taps].
    now rewrite runWaterfall_snoc. }
  split; [reflexivity|].
  split; [intros; apply runSeries_snoc|].
  split.
  { intros. unfold promiseS, tapPromiseS, settle. cbn [s_taps].
    now rewrite runSeries_snoc. }
  split; [intros; apply promiseS_within|].
  intros. unfold promiseS. cbn [s_taps]. unfold settle.
  now rewrite runSeries_map_resolved.
Qed.

(** ** Locating the template *)

(** C4 (amended): for a reference starting with [file://],
    [getTemplatePath] drops the seven characters of the marker, resolves the
    rest to an absolute path and joins [template] to it; it only writes two
    lines to the console (no temporary directory, no subprocess, no request,
    no extraction), leaves the store as it was, and resolves to that path
    whether or not the directory exists. *)
Theorem getTemplatePath_local (templateName : string) (s : Store Ext) :
  startsWith templateName "file://" = true ->
  let localTemplatePath :=
    path_join [path_resolve (substr templateName 7); "template"] in
  getTemplatePath templateName s
  = ([EConsoleLog (MsgUseTemplate templateName);
      EConsoleLog (MsgLocalTemplate localTemplatePath)],
     s, Ok localTemplatePath).
Proof.
  intros Hfile. unfold getTemplatePath. rewrite Hfile. reflexivity.
Qed.

Lemma getTemplatePath_download (templateName : string) (s : Store Ext) :
  startsWith templateName "file://" = false ->
  getTemplatePath templateName s
  = match tmp_dir (ext s) with
    | (Err e, x1) =>
        ([EConsoleLog (MsgUseTemplate templateName); ETmpDir], mkStore (heap s) x1, Err e)
    | (Ok tmpPath, x1) =>
        if test_http_url templateName then
          prepend [EConsoleLog (MsgUseTemplate templateName); ETmpDir]
            (downloadTemplate tmpPath templateName (mkStore (heap s) x1))
        else
          match execSync ("npm info " ++ templateName ++ " dist.tarball")%string x1 with
          | (Err e, x2) =>
              ([EConsoleLog (MsgUseTemplate templateName); ETmpDir;
                EConsoleLog (MsgNpmLookup templateName);
                EExecSync ("npm info " ++ templateName ++ " dist.tarball")%string],
               mkStore (heap s) x2, Err e)
          | (Ok out, x2) =>
              prepend [EConsoleLog (MsgUseTemplate templateName); ETmpDir;
                       EConsoleLog (MsgNpmLookup templateName);
                       EExecSync ("npm info " ++ templateName ++ " dist.tarball")%string]
                (downloadTemplate tmpPath (trim out) (mkStore (heap s) x2))
          end
    end.
Proof.
  intros Hfile. unfold getTemplatePath, downloadTemplate. rewrite Hfile.
  unfold bind, console_log, log, extcall, ret, prepend.
  cbn [heap ext app trace_of store_of result_of fst snd].
  destruct (tmp_dir (ext s)) as [[tmpPath|e] x1]; [|reflexivity].
  destruct (test_http_url templateName); cbn [negb heap ext app].
  - destruct (axios_get templateName x1) as [[body|e] x2]; [|reflexivity].
    cbn [heap ext app].
    destruct (tar_x tmpPath body x2) as [[[]|e] x3]; reflexivity.
  - destruct (execSync _ x1) as [[out|e] x2]; [|reflexivity].
    cbn [heap ext app].
    destruct (axios_get (trim out) x2) as [[body|e] x3]; [|reflexivity].
    cbn [heap ext app].
    destruct (tar_x tmpPath body x3) as [[[]|e] x4]; reflexivity.
Qed.


Lemma downloadTemplate_no_lookup tmpPath url (s : Store Ext) :
  lookups (trace_of (downloadTemplate tmpPath url s)) = [].
Proof.
  unfold downloadTemplate, bind, console_log, log, extcall, ret.
  cbn [heap ext app].
  destruct (axios_get url (ext s)) as [[body|e] x2]; [|reflexivity].
  cbn [heap ext app].
  destruct (tar_x tmpPath body x2) as [[[]|e] x3]; reflexivity.
Qed.

Lemma lookups_app t t' : lookups (t ++ t') = lookups t ++ lookups t'.
Proof. apply flat_map_app. Qed.

Lemma lookups_prefix t pre post : lookups t = [] -> t = pre ++ post -> lookups pre = [].
Proof.
  intros Ht ->. rewrite lookups_app in Ht. now apply app_eq_nil in Ht.
Qed.

(** Cutting [a :: t] before one of its elements. *)
Lemma split_cons {A} (a : A) t pre ev post :
  a :: t = pre ++ ev :: post ->
  (pre = [] /\ ev = a /\ post = t) \/ exists pre', pre = a :: pre' /\ t = pre' ++ ev :: post.
Proof.
  destruct pre as [|b pre']; cbn; intros [= -> ->]; [left | right]; eauto.
Qed.

(** C5: for a reference that neither starts with [file://] nor is an
    http(s) URL, [getTemplatePath] runs [npm info <name> dist.tarball] at
    most once, and whenever it requests or extracts anything, exactly that
    one lookup has been run before; once the temporary directory and the
    lookup have succeeded, what follows is [downloadTemplate] on the
    trimmed output, which is also all a URL reference does after obtaining
    its temporary directory. *)
Theorem getTemplatePath_package (templateName : string) (s : Store Ext) :
  startsWith templateName "file://" = false ->
  test_http_url templateName = false ->
  let command := ("npm info " ++ templateName ++ " dist.tarball")%string in
  let run := getTemplatePath templateName s in
  (lookups (trace_of run) = [] \/ lookups (trace_of run) = [command])
  /\ (forall pre ev post,
        trace_of run = pre ++ ev :: post -> is_download ev = true ->
        lookups pre = [command])
  /\ (forall tmpPath x1 out x2,
        tmp_dir (ext s) = (Ok tmpPath, x1) ->
        execSync command x1 = (Ok out, x2) ->
        run = prepend [EConsoleLog (MsgUseTemplate templateName); ETmpDir;
                       EConsoleLog (MsgNpmLookup templateName); EExecSync command]
                (downloadTemplate tmpPath (trim out) (mkStore (heap s) x2)))
  /\ (forall url tmpPath x1,
        startsWith url "file://" = false -> test_http_url url = true ->
        tmp_dir (ext s) = (Ok tmpPath, x1) ->
        getTemplatePath url s
        = prepend [EConsoleLog (MsgUseTemplate url); ETmpDir]
            (downloadTemplate tmpPath url (mkStore (heap s) x1))).
Proof.
  intros Hfile Hhttp command run.
  assert (Hrun : run = getTemplatePath templateName s) by reflexivity.
  rewrite (getTemplatePath_download _ _ Hfile), Hhttp in Hrun. fold command in Hrun.
  repeat split.
  - clearbody run. subst run.
    destruct (tmp_dir (ext s)) as [[tmpPath|e] x1]; [|now left].
    cbv beta iota zeta.
    destruct (execSync _ x1) as [[out|e] x2]; right.
    + unfold prepend. cbn [trace_of fst]. rewrite lookups_app.
      change (trace_of (downloadTemplate tmpPath (trim out) (mkStore (heap s) x2)))
        with (fst (fst (downloadTemplate tmpPath (trim out) (mkStore (heap s) x2)))).
      pose proof (downloadTemplate_no_lookup tmpPath (trim out) (mkStore (heap s) x2)) as Hn.
      unfold trace_of in Hn. rewrite Hn. reflexivity.
    + reflexivity.
  - clearbody run. subst run. intros pre ev post.
    destruct (tmp_dir (ext s)) as [[tmpPath|e] x1].
    + cbv beta iota zeta.
      destruct (execSync _ x1) as [[out|e] x2]; intros Hsplit Hdown;
        unfold prepend in Hsplit; cbn [trace_of fst app] in Hsplit.
      * apply split_cons in Hsplit as [(_ & -> & _) | (p1 & -> & Hsplit)]; [discriminate|].
        apply split_cons in Hsplit as [(_ & -> & _) | (p2 & -> & Hsplit)]; [discriminate|].
        apply split_cons in Hsplit as [(_ & -> & _) | (p3 & -> & Hsplit)]; [discriminate|].
        apply split_cons in Hsplit as [(_ & -> & _) | (p4 & -> & Hsplit)]; [discriminate|].
        cbn [lookups flat_map app]. f_equal.
        change (flat_map _ p4) with (lookups p4).
        eapply lookups_prefix; [|exact Hsplit].
        apply downloadTemplate_no_lookup.
      * apply split_cons in Hsplit as [(_ & -> & _) | (p1 & -> & Hsplit)]; [discriminate|].
        apply split_cons in Hsplit as [(_ & -> & _) | (p2 & -> & Hsplit)]; [discriminate|].
        apply split_cons in Hsplit as [(_ & -> & _) | (p3 & -> & Hsplit)]; [discriminate|].
        apply split_cons in Hsplit as [(_ & -> & _) | (p4 & -> & Hsplit)]; [discriminate|].
        now destruct p4.
    + intros Hsplit Hdown. cbn [trace_of fst] in Hsplit.
      apply split_cons in Hsplit as [(_ & -> & _) | (p1 & -> & Hsplit)]; [discriminate|].
      apply split_cons in Hsplit as [(_ & -> & _) | (p2 & -> & Hsplit)]; [discriminate|].
      now destruct p2.
  - intros tmpPath x1 out x2 Htmp Hexec.
    rewrite Htmp in Hrun. cbv beta iota zeta in Hrun.
    rewrite Hexec in Hrun. exact Hrun.
  - intros url tmpPath x1 Hf Hu Htmp.
    now rewrite (getTemplatePath_download _ _ Hf), Htmp, Hu.
Qed.

Lemma getTemplatePath_keeps_tmp (templateName : string) (s : Store Ext) :
  Forall (fun e => is_tmp_remove e = false) (trace_of (getTemplatePath templateName s)).
Proof.
  destruct (startsWith templateName "file://") eqn:Hfile.
  - unfold getTemplatePath. rewrite Hfile. cbn. now repeat constructor.
  - rewrite (getTemplatePath_download _ _ Hfile).
    assert (Hd : forall tmpPath url s',
               Forall (fun e => is_tmp_remove e = false)
                 (trace_of (downloadTemplate tmpPath url s'))).
    { intros tmpPath url s'.
      unfold downloadTemplate, bind, console_log, log, extcall, ret.
      cbn [heap ext app].
      destruct (axios_get url (ext s')) as [[body|e] x2]; [|now repeat constructor].
      cbn [heap ext app].
      destruct (tar_x tmpPath body x2) as [[[]|e] x3]; now repeat constructor. }
    destruct (tmp_dir (ext s)) as [[tmpPath|e] x1]; [|now repeat constructor].
    destruct (test_http_url templateName).
    + unfold prepend. cbn [trace_of fst app]. repeat (constructor; [reflexivity|]).
      apply Hd.
    + destruct (execSync _ x1) as [[out|e] x2]; [|now repeat constructor].
      unfold prepend. cbn [trace_of fst app]. repeat (constructor; [reflexivity|]).
      apply Hd.
Qed.

(** ** Installing plugins afterwards *)

(** C9: [installPlugin] on the empty list does nothing at all; on a
    non-empty list it first installs the named packages into the project,
    and if that succeeds runs [generate(true)] on a generator over exactly
    those plugins carrying one registered transform, owned by [creator] on
    [mpflow.config.js], that adds the same names to the [plugins] field. *)
Theorem installPlugin_steps (this_context : string) (s : Store Ext) :
  installPlugin this_context [] s = ([], s, Ok tt)
  /\ (forall p ps,
        let pluginNames := p :: ps in
        let generator :=
          {| g_context := this_context;
             g_plugins := map mkGenPlugin pluginNames;
             g_processFiles :=
               [ {| pf_owner := "creator";
                    pf_glob := "mpflow.config.js";
                    pf_transform :=
                      {| tr_codemod := "@mpflow/service-core/lib/codemods/add-to-exports";
                         tr_fieldName := "plugins";
                         tr_items := pluginNames |} |} ] |} in
        installPlugin this_context pluginNames s
        = match installNodeModules this_context (Some pluginNames) (ext s) with
          | (Err e, x1) =>
              ([EInstallNodeModules this_context (Some pluginNames)],
               mkStore (heap s) x1, Err e)
          | (Ok _, x1) =>
              ([EInstallNodeModules this_context (Some pluginNames);
                EGenerate generator true],
               mkStore (heap s) (snd (generate generator true x1)),
               fst (generate generator true x1))
          end).
Proof.
  split; [reflexivity|].
  intros p ps pluginNames generator. subst generator pluginNames.
  unfold installPlugin, bind, extcall, processFile, newGenerator.
  cbn [heap ext g_context g_plugins g_processFiles app].
  destruct (installNodeModules this_context (Some (p :: ps)) (ext s)) as [[[]|e] x1];
    [|reflexivity].
  cbn [heap ext].
  now destruct (generate _ true x1) as [r x2].
Qed.

(** ** What the hooks are fed *)

Lemma promiseW_head {A} st (show : A -> list Value)
    (hk : AsyncSeriesWaterfallHook Ext A) x s :
  exists rest, trace_of (promiseW st show hk x s) = EvStageBegin st (show x) :: rest.
Proof.
  unfold promiseW, settle.
  destruct (runWaterfall st show (w_taps hk) x s) as [[t s'] r]. cbn. eauto.
Qed.

Lemma pipeline_stages sts t r ev st :
  pipeline_trace sts t r -> In ev t -> ev_stage ev = Some st -> In st sts.
Proof.
  induction 1 as [|st0 rest t t' r Hseg _ IH|st0 rest t e Hseg]; intros Hin Hs.
  - destruct Hin.
  - apply in_app_or in Hin as [Hin | Hin].
    + left. symmetry. eapply segment_stage; eauto.
    + right. auto.
  - left. symmetry. eapply segment_stage; eauto.
Qed.

Lemma render_run_begin (c : CreatorT Ext) infos templatePath files s run args :
  render_run c infos templatePath files s run ->
  In (EvStageBegin Render args) (trace_of run) ->
  args = [VRenderInfos (mkRenderInfos (inf_projectName infos) (inf_appId infos) templatePath);
          VObject files].
Proof.
  intros Hrun Hin.
  assert (Hlater : forall t, pipeline_trace [BeforeEmit; Emit; Init; AfterInit] t
                               (rejection (result_of run)) \/
                             (exists r, pipeline_trace [Emit; Init; AfterInit] t r) \/
                             (exists r sg, stage_segment BeforeEmit r t /\ sg = r) ->
                             ~ In (EvStageBegin Render args) t).
  { intros t [Hp | [[r Hp] | (r & sg & Hp & _)]] Hin'.
    - pose proof (pipeline_stages _ _ _ _ Render Hp Hin' eq_refl) as Hs.
      cbn in Hs. intuition discriminate.
    - pose proof (pipeline_stages _ _ _ _ Render Hp Hin' eq_refl) as Hs.
      cbn in Hs. intuition discriminate.
    - pose proof (segment_stage _ _ _ _ Render Hp Hin' eq_refl). discriminate. }
  assert (Hown : forall t,
             Forall (within Render
                       (showRender (mkRenderInfos (inf_projectName infos) (inf_appId infos)
                                      templatePath, files))) t ->
             In (EvStageBegin Render args) t ->
             args = [VRenderInfos (mkRenderInfos (inf_projectName infos) (inf_appId infos)
                                     templatePath); VObject files]).
  { intros t Hw Hin'. rewrite Forall_forall in Hw.
    specialize (Hw _ (proj2 (list_elem_of_In _ _) Hin')). cbn in Hw. apply Hw. }
  destruct Hrun as [s2 t3 s3 e H3|s2 t3 s3 t4 s4 e H3 H4|s2 t3 s3 t4 s4 rest H3 H4 Hrest];
    segments; withins; cbn [trace_of fst] in Hin.
  - eauto.
  - apply in_app_or in Hin as [Hin | Hin]; [eauto|].
    exfalso. eapply Hlater; [|exact Hin]. right. right. eauto.
  - apply in_app_or in Hin as [Hin | Hin]; [eauto|].
    apply in_app_or in Hin as [Hin | Hin]; exfalso.
    + eapply Hlater; [|exact Hin]. right. right. eauto.
    + eapply Hlater; [|exact Hin]. right. left.
      eexists. eapply emit_pipeline; eauto.
Qed.

Lemma segment_begin st r t st' args :
  stage_segment st r t -> In (EvStageBegin st' args) t ->
  exists rest, t = EvStageBegin st' args :: rest.
Proof.
  assert (Hq : forall body, Forall (quiet st) body -> ~ In (EvStageBegin st' args) body).
  { intros body Hb Hin. rewrite Forall_forall in Hb.
    exact (Hb _ (proj2 (list_elem_of_In _ _) Hin)). }
  intros [a body Hb|a body name e Hb] [Heq | Hin].
  - rewrite Heq. eauto.
  - apply in_app_or in Hin as [Hin | [Hin | []]]; [now apply Hq in Hin | discriminate].
  - rewrite Heq. eauto.
  - apply in_app_or in Hin as [Hin | [Hin | [Hin | []]]];
      [now apply Hq in Hin | discriminate | discriminate].
Qed.

Lemma promiseW_begin {A} st (show : A -> list Value)
    (hk : AsyncSeriesWaterfallHook Ext A) x s st' args :
  In (EvStageBegin st' args) (trace_of (promiseW st show hk x s)) ->
  st' = st /\ args = show x.
Proof.
  intros Hin.
  destruct (segment_begin _ _ _ _ _ (promiseW_segment st show hk x s) Hin) as [rest Hrest].
  destruct (promiseW_head st show hk x s) as [rest' Hhead].
  rewrite Hhead in Hrest. now injection Hrest as -> ->.
Qed.

(** C10: [create] promises the prepare hook with an object whose fields
    are the creator's, an absent one replaced by the empty string (the
    constructor stores the options as given): once [initPlugins] has
    returned this is the first thing that happens, and the prepare hook is
    never promised with anything else.  When [initPlugins] is rejected
    nothing is promised.  What prepare resolves to is what goes on:
    resolveTemplate is promised with its [templateName], render with its
    [projectName] and [appId].  The creator's own three fields are the same
    after [create] as before. *)
Theorem create_uses_prepare_output (this : CreatorT Ext) (s : Store Ext) :
  let run := snd (create this s) in
  let input :=
    mkInfos (or_empty (projectName this)) (or_empty (appId this))
      (or_empty (templateName this)) in
  (or_empty None = "" /\ forall v, or_empty (Some v) = v)
  /\ (forall ctx b o,
        projectName (newCreator ctx b o) = opt_projectName o
        /\ appId (newCreator ctx b o) = opt_appId o
        /\ templateName (newCreator ctx b o) = opt_templateName o)
  /\ match initPlugins_rejection this with
     | Some e => run = ([], s, Err e)
     | None => exists rest, trace_of run = EvStageBegin Prepare [VInfos input] :: rest
     end
  /\ (forall args, In (EvStageBegin Prepare args) (trace_of run) -> args = [VInfos input])
  /\ (forall t1 s1 infos,
        initPlugins_rejection this = None ->
        promiseW Prepare showInfos (prepare (hooks (initPlugins this))) input s
        = (t1, s1, Ok infos) ->
        (exists rest,
           trace_of run
           = t1 ++ EvStageBegin ResolveTemplate [VString (inf_templateName infos)] :: rest)
        /\ (forall args, In (EvStageBegin Render args) (trace_of run) ->
              exists templatePath files,
                args = [VRenderInfos
                          (mkRenderInfos (inf_projectName infos) (inf_appId infos)
                             templatePath);
                        VObject files]))
  /\ (projectName (fst (create this s)) = projectName this
      /\ appId (fst (create this s)) = appId this
      /\ templateName (fst (create this s)) = templateName this).
Proof.
  intros run input.
  split; [now split|]. split; [intros; repeat split|].
  split.
  { destruct (initPlugins_rejection this) as [e|] eqn:Hreg.
    - now apply create_rejected.
    - pose proof (create_registered this s Hreg) as Hc. fold run in Hc.
      destruct Hc as [t1 s1 e H1|t1 s1 infos t2 s2 e H1 H2
                      |t1 s1 infos t2 s2 templatePath files rest H1 H2 Hfiles Hrest];
        destruct (promiseW_head Prepare showInfos (prepare (hooks (initPlugins this)))
                    (prepare_input (initPlugins this)) s) as [tl Htl];
        rewrite H1 in Htl; cbn [trace_of fst] in Htl; subst t1;
        cbn [trace_of fst app]; eauto. }
  split.
  { intros args Hin.
    destruct (create_cases this s) as [(e0 & _ & Hrun) | [Hreg Hc]].
    { fold run in Hrun. rewrite Hrun in Hin. destruct Hin. }
    fold run in Hc.
    assert (Hown : forall t1 s1 r,
               promiseW Prepare showInfos (prepare (hooks (initPlugins this)))
                 (prepare_input (initPlugins this)) s = (t1, s1, r) ->
               In (EvStageBegin Prepare args) t1 -> args = [VInfos input]).
    { intros t1 s1 r H1 Hin1.
      pose proof (promiseW_begin Prepare showInfos (prepare (hooks (initPlugins this)))
                    (prepare_input (initPlugins this)) s Prepare args) as Hb.
      rewrite H1 in Hb. now destruct (Hb Hin1). }
    destruct Hc as [t1 s1 e H1|t1 s1 infos t2 s2 e H1 H2
                    |t1 s1 infos t2 s2 templatePath files rest H1 H2 Hfiles Hrest];
      segments; cbn [trace_of fst] in Hin.
    - eauto.
    - apply in_app_or in Hin as [Hin | Hin]; [eauto|].
      match goal with
      | Hs : stage_segment ResolveTemplate _ t2 |- _ =>
          pose proof (segment_stage _ _ _ _ Prepare Hs Hin eq_refl)
      end. discriminate.
    - apply in_app_or in Hin as [Hin | Hin]; [eauto|].
      apply in_app_or in Hin as [Hin | Hin].
      + match goal with
        | Hs : stage_segment ResolveTemplate _ t2 |- _ =>
            pose proof (segment_stage _ _ _ _ Prepare Hs Hin eq_refl)
        end. discriminate.
      + pose proof (pipeline_stages _ _ _ _ Prepare
                      (render_pipeline _ _ _ _ _ _ Hrest) Hin eq_refl) as Hs.
        cbn in Hs. intuition discriminate. }
  split; [|repeat split].
  intros t1' s1' infos' Hreg Hprep.
  pose proof (create_registered this s Hreg) as Hc. fold run in Hc.
  change input with (prepare_input (initPlugins this)) in Hprep.
  destruct Hc as [t1 s1 e H1|t1 s1 infos t2 s2 e H1 H2
                  |t1 s1 infos t2 s2 templatePath files rest H1 H2 Hfiles Hrest];
    rewrite Hprep in H1; try discriminate; injection H1 as <- <- <-;
    destruct (promiseW_head ResolveTemplate showString
                (resolveTemplate (hooks (initPlugins this)))
                (inf_templateName infos') s1') as [tl Htl];
    rewrite H2 in Htl; cbn [trace_of fst] in Htl; subst t2;
    cbn [trace_of fst]; (split; [cbn [app]; eauto|]);
    intros args Hin; segments.
  - exfalso. apply in_app_or in Hin as [Hin | Hin];
      match goal with
      | Hs : stage_segment _ _ ?t, Hi : In _ ?t |- _ =>
          pose proof (segment_stage _ _ _ _ Render Hs Hi eq_refl)
      end; discriminate.
  - apply in_app_or in Hin as [Hin | Hin]; [|apply in_app_or in Hin as [Hin | Hin]];
      try (match goal with
           | Hs : stage_segment _ _ ?t, Hi : In _ ?t |- _ =>
               pose proof (segment_stage _ _ _ _ Render Hs Hi eq_refl)
           end; discriminate).
    exists templatePath, files. eapply render_run_begin; eauto.
Qed.

End Facts.

(** * Runs on the concrete world *)

(** C4, as stated, fails: the reference names a directory that does not
    exist, and [getTemplatePath] still resolves, to the path of that
    missing directory, instead of rejecting. *)
Lemma local_template_directory_unchecked :
  startsWith "file://./mytemplate" "file://" = true
  /\ dir_exists (ext Demo.store0) "/cwd/mytemplate/template" = false
  /\ result_of (getTemplatePath "file://./mytemplate" Demo.store0)
     = Ok "/cwd/mytemplate/template"
  /\ ~ (exists e, result_of (getTemplatePath "file://./mytemplate" Demo.store0) = Err e).
Proof.
  split; [reflexivity|]. split; [reflexivity|]. split; [reflexivity|].
  intros [e He]. vm_compute in He. discriminate He.
Qed.

Lemma getTemplatePath_local_witness :
  getTemplatePath "file://./mytemplate" Demo.store0
  = ([EConsoleLog (MsgUseTemplate "file://./mytemplate");
      EConsoleLog (MsgLocalTemplate "/cwd/mytemplate/template")],
     Demo.store0, Ok "/cwd/mytemplate/template").
Proof.
  exact (getTemplatePath_local "file://./mytemplate" Demo.store0 eq_refl).
Defined.

Lemma getTemplatePath_package_witness :
  lookups (trace_of (getTemplatePath "some-package" Demo.store0))
  = ["npm info some-package dist.tarball"].
Proof.
  destruct (getTemplatePath_package "some-package" Demo.store0 eq_refl eq_refl)
    as (_ & Hbefore & _).
  apply (Hbefore
           [EConsoleLog (MsgUseTemplate "some-package"); ETmpDir;
            EConsoleLog (MsgNpmLookup "some-package");
            EExecSync "npm info some-package dist.tarball";
            EConsoleLog
              (MsgDownload "https://registry.npmjs.org/some-package/-/some-package-1.0.0.tgz")]
           (EAxiosGet "https://registry.npmjs.org/some-package/-/some-package-1.0.0.tgz")
           [ETarExtract "/tmp/tmp-1"]).
  - vm_compute. reflexivity.
  - reflexivity.
Defined.

Lemma create_aborts_on_rejection_witness :
  result_of (snd (create Demo.c_reject Demo.store0)) = Err (JsError "boom")
  /\ forall ev, In ev (trace_of (snd (create Demo.c_reject Demo.store0))) ->
       ev_stage ev <> Some Emit /\ ev_stage ev <> Some Init
       /\ ev_stage ev <> Some AfterInit.
Proof.
  assert (Hin : In (EvSettled BeforeEmit "user" (Some (JsError "boom")))
                  (trace_of (snd (create Demo.c_reject Demo.store0)))).
  { vm_compute. repeat (first [left; reflexivity | right]). }
  destruct (create_aborts_on_rejection Demo.c_reject Demo.store0
              BeforeEmit "user" (JsError "boom") Hin) as (Hr & _ & _ & Hlater).
  split; [exact Hr | exact (Hlater eq_refl)].
Defined.

Lemma create_shares_files_witness :
  Forall (passes_files "/proj" 1%positive)
    (trace_of (snd (create Demo.c_local Demo.store0)))
  /\ snd (create Demo.c_local Demo.store0)
     = prepend (trace_of (create_until_emit (initPlugins Demo.c_local) Demo.store0))
         (create_from_emit (initPlugins Demo.c_local) 1%positive
            (store_of (create_until_emit (initPlugins Demo.c_local) Demo.store0))).
Proof.
  apply (proj1 (proj2 (create_shares_files Demo.c_local Demo.store0))).
  - vm_compute. reflexivity.
  - vm_compute. reflexivity.
Defined.

Lemma create_uses_prepare_output_witness :
  exists rest,
    trace_of (snd (create Demo.c_prompt Demo.store0))
    = [EvStageBegin Prepare [VInfos (mkInfos "" "" "")];
       EvCall Prepare "user" [VInfos (mkInfos "" "" "")];
       EvEff (EPlugin "prompt"); EvSettled Prepare "user" None;
       EvStageSettled Prepare None]
      ++ EvStageBegin ResolveTemplate [VString "file://./mytemplate"] :: rest.
Proof.
  destruct (create_uses_prepare_output Demo.c_prompt Demo.store0)
    as (_ & _ & _ & _ & Hflow & _).
  refine (proj1 (Hflow
            [EvStageBegin Prepare [VInfos (mkInfos "" "" "")];
             EvCall Prepare "user" [VInfos (mkInfos "" "" "")];
             EvEff (EPlugin "prompt"); EvSettled Prepare "user" None;
             EvStageSettled Prepare None]
            Demo.store0 (mkInfos "picked" "wx9" "file://./mytemplate") _ _)).
  - vm_compute. reflexivity.
  - vm_compute. reflexivity.
Defined.

(** C6: the code never removes the temporary directory.  A creator whose
    template is behind a URL allocates [/tmp/tmp-1] for the download; the
    callback that removes it is never run, neither when [create] is
    fulfilled nor when the render hook is rejected, and the directory is
    still on disk when [create] has settled. *)
Theorem remote_template_tmp_dir_left_behind :
  let run := snd (create Demo.c_remote Demo.store0) in
  let failed := snd (create Demo.c_remote_reject Demo.store0) in
  result_of run = Ok tt
  /\ In (EvEff ETmpDir) (trace_of run)
  /\ Forall (fun ev => match ev with EvEff e => is_tmp_remove e = false | _ => True end)
       (trace_of run)
  /\ dir_exists (ext (store_of run)) "/tmp/tmp-1" = true
  /\ result_of failed = Err (JsError "render failed")
  /\ In (EvEff ETmpDir) (trace_of failed)
  /\ Forall (fun ev => match ev with EvEff e => is_tmp_remove e = false | _ => True end)
       (trace_of failed)
  /\ dir_exists (ext (store_of failed)) "/tmp/tmp-1" = true.
Proof.
  cbv zeta.
  split; [vm_compute; reflexivity|].
  split; [vm_compute; repeat (first [left; reflexivity | right])|].
  split; [vm_compute; repeat constructor|].
  split; [vm_compute; reflexivity|].
  split; [vm_compute; reflexivity|].
  split; [vm_compute; repeat (first [left; reflexivity | right])|].
  split; [vm_compute; repeat constructor|].
  vm_compute; reflexivity.
Qed.

(** The file a plugin adds in beforeEmit is among those the default emit
    handler writes. *)
Example plugin_entry_reaches_emit :
  exists files,
    In (EvEff (ESyncFiles "/proj" files))
      (trace_of (snd (create Demo.c_local Demo.store0)))
    /\ files !! "extra.txt" = Some "hi".
Proof.
  eexists. split.
  - vm_compute. repeat (first [left; reflexivity | right]).
  - vm_compute. reflexivity.
Qed.

(** With nothing given and a plugin answering in prepare, the creator's
    fields stay empty while render gets the plugin's answers. *)
Example prompt_fills_infos :
  projectName (fst (create Demo.c_prompt Demo.store0)) = None
  /\ In (EvStageBegin Render
           [VRenderInfos (mkRenderInfos "picked" "wx9" "/cwd/mytemplate/template");
            VObject 1%positive])
        (trace_of (snd (create Demo.c_prompt Demo.store0))).
Proof.
  split; [reflexivity|].
  vm_compute. repeat (first [left; reflexivity | right]).
Qed.

(** * More about the creator *)

Section MoreFacts.

Context {Ext : Type} {X : Externals Ext}.

Local Abbreviation H := (Act Ext Eff).
Local Abbreviation M := (Act Ext Ev).

(** ** Registration order *)

Lemma hooks_app_assoc (a b c : Hooks Ext) :
  hooks_app (hooks_app a b) c = hooks_app a (hooks_app b c).
Proof. unfold hooks_app. cbn. now rewrite <- !app_assoc. Qed.

Lemma hooks_app_nothing (h : Hooks Ext) : hooks_app h (registered []) = h.
Proof.
  destruct h as [[p] [r] [re] [b] [e] [i] [a]]. unfold hooks_app. cbn.
  now rewrite !app_nil_r.
Qed.

Lemma registered_app (ps qs : list (PluginInfo Ext)) :
  registered (ps ++ qs) = hooks_app (registered ps) (registered qs).
Proof. unfold registered, hooks_app. cbn. now rewrite !flat_map_app. Qed.

Lemma callsOf_calls (done : list (TapCall Ext)) : callsOf (map step_call done) = done.
Proof.
  unfold callsOf. induction done as [|c done IH]; cbn; [reflexivity | now rewrite IH].
Qed.

Lemma registered_calling_cons name (c : TapCall Ext) calls :
  registered [calling name (c :: calls)]
  = hooks_app (registered [calling name [c]]) (registered [calling name calls]).
Proof.
  unfold registered, hooks_app, calling, pluginCalls.
  cbn [flat_map module creator id]. rewrite !callsOf_calls. cbn.
  rewrite !app_nil_r. destruct c; reflexivity.
Qed.

Lemma registered_calling_nil id : registered [calling id []] = registered (@nil (PluginInfo Ext)).
Proof. reflexivity. Qed.

Lemma tap_name_error_named id : id <> "" -> tap_name_error id = None.
Proof.
  intros Hid. unfold tap_name_error.
  destruct (String.eqb_spec id ""); [contradiction | reflexivity].
Qed.

Lemma tap_name_error_nameless :
  tap_name_error "" = Some (JsError "Missing name for tapPromise").
Proof. reflexivity. Qed.

Lemma applyTap_app id (h : Hooks Ext) c :
  id <> "" -> applyTap id h c = Ok (hooks_app h (registered [calling id [c]])).
Proof.
  intros Hid. unfold applyTap. rewrite (tap_name_error_named id Hid). f_equal.
  destruct h as [[p] [r] [re] [b] [e] [i] [a]].
  destruct c; unfold hooks_app, registered, tapPromiseW, tapPromiseS; cbn;
    now rewrite !app_nil_r.
Qed.

Lemma applyTap_nameless (h : Hooks Ext) c :
  applyTap "" h c = Err (JsError "Missing name for tapPromise").
Proof. reflexivity. Qed.

(** A [creator] function, step by step. *)
Lemma runCreator_spec id (steps : list (CreatorStep Ext)) :
  forall h,
    match snd (runCreator id steps h) with
    | None =>
        Forall (fun st => exists c, st = step_call c) steps
        /\ (steps = [] \/ id <> "")
        /\ fst (runCreator id steps h) = hooks_app h (registered [calling id (callsOf steps)])
    | Some e =>
        exists done rest,
          steps = map step_call done ++ rest
          /\ fails_at id done rest e
          /\ fst (runCreator id steps h) = hooks_app h (registered [calling id done])
    end.
Proof.
  induction steps as [|[c|e] steps IH]; intros h; cbn [runCreator].
  - cbn [snd fst]. split; [constructor|]. split; [now left|].
    cbn [callsOf flat_map]. rewrite registered_calling_nil. symmetry. apply hooks_app_nothing.
  - destruct (String.eqb_spec id "") as [-> | Hid].
    + rewrite applyTap_nameless. cbn [snd fst].
      exists [], (step_call c :: steps). split; [reflexivity|]. split.
      * left. exists c, steps. repeat split.
      * rewrite registered_calling_nil. symmetry. apply hooks_app_nothing.
    + rewrite (applyTap_app id h c Hid).
      specialize (IH (hooks_app h (registered [calling id [c]]))).
      destruct (snd (runCreator id steps _)) as [e|].
      * destruct IH as (done & rest & -> & Hfail & Hh).
        exists (c :: done), rest. split; [reflexivity|]. split.
        -- destruct Hfail as [(c' & rest' & -> & -> & _) | (rest' & -> & _)].
           ++ now contradiction Hid.
           ++ right. exists rest'. split; [reflexivity | now right].
        -- rewrite Hh, hooks_app_assoc. now rewrite <- registered_calling_cons.
      * destruct IH as (Hall & _ & Hh).
        split; [constructor; eauto|]. split; [now right|].
        rewrite Hh, hooks_app_assoc.
        change (callsOf (step_call c :: steps)) with (c :: callsOf steps).
        now rewrite <- registered_calling_cons.
  - cbn [snd fst]. exists [], (step_throw e :: steps). split; [reflexivity|]. split.
    + right. exists steps. split; [reflexivity | now left].
    + rewrite registered_calling_nil. symmetry. apply hooks_app_nothing.
Qed.

Lemma registered_one_calling (p : PluginInfo Ext) steps :
  creator (module p) = Some steps ->
  registered [calling (id p) (callsOf steps)] = registered [p].
Proof.
  intros Hp. unfold registered, calling, pluginCalls.
  cbn [flat_map module creator id]. now rewrite Hp, callsOf_calls.
Qed.

Lemma registered_one_none (p : PluginInfo Ext) :
  creator (module p) = None -> registered [p] = registered [].
Proof.
  intros Hp. unfold registered, pluginCalls. cbn [flat_map]. now rewrite Hp.
Qed.

(** One plugin. *)
Lemma registerPlugin_spec (h : Hooks Ext) p :
  match snd (registerPlugin h p) with
  | None => registers p /\ fst (registerPlugin h p) = hooks_app h (registered [p])
  | Some e =>
      exists steps done rest,
        creator (module p) = Some steps
        /\ steps = map step_call done ++ rest
        /\ fails_at (id p) done rest e
        /\ fst (registerPlugin h p) = hooks_app h (registered [calling (id p) done])
  end.
Proof.
  unfold registerPlugin, registers.
  destruct (creator (module p)) as [steps|] eqn:Hp.
  - pose proof (runCreator_spec (id p) steps h) as Hrun.
    destruct (snd (runCreator (id p) steps h)) as [e|].
    + destruct Hrun as (done & rest & Hsteps & Hfail & Hh). now exists steps, done, rest.
    + destruct Hrun as (Hall & Hid & Hh). split; [now split|].
      now rewrite Hh, (registered_one_calling p steps Hp).
  - cbn [snd fst]. split; [exact I|].
    rewrite (registered_one_none p Hp). symmetry. apply hooks_app_nothing.
Qed.

(** The whole loop. *)
Lemma registerPlugins_spec (plugins : list (PluginInfo Ext)) :
  forall h,
    match snd (registerPlugins plugins h) with
    | None =>
        Forall registers plugins
        /\ fst (registerPlugins plugins h) = hooks_app h (registered plugins)
    | Some e =>
        exists before p after steps done rest,
          plugins = before ++ p :: after
          /\ Forall registers before
          /\ creator (module p) = Some steps
          /\ steps = map step_call done ++ rest
          /\ fails_at (id p) done rest e
          /\ fst (registerPlugins plugins h)
             = hooks_app h (registered (before ++ [calling (id p) done]))
    end.
Proof.
  induction plugins as [|p plugins IH]; intros h; cbn [registerPlugins].
  - cbn [snd fst]. split; [constructor|]. symmetry. apply hooks_app_nothing.
  - pose proof (registerPlugin_spec h p) as Hp.
    destruct (registerPlugin h p) as [h' [e|]]; cbn [snd fst] in *.
    + destruct Hp as (steps & done & rest & Hc & Hsteps & Hfail & ->).
      exists [], p, plugins, steps, done, rest. repeat split; try assumption. constructor.
    + destruct Hp as [Hreg ->].
      specialize (IH (hooks_app h (registered [p]))).
      destruct (snd (registerPlugins plugins _)) as [e|].
      * destruct IH as (before & q & after & steps & done & rest
                        & -> & Hbefore & Hc & Hsteps & Hfail & Hh).
        exists (p :: before), q, after, steps, done, rest.
        repeat split; try assumption; [now constructor|].
        rewrite Hh, hooks_app_assoc.
        now rewrite <- registered_app.
      * destruct IH as [Hall Hh]. split; [now constructor|].
        rewrite Hh, hooks_app_assoc. now rewrite <- registered_app.
Qed.

Lemma registers_not_failing (p : PluginInfo Ext) steps done rest e :
  registers p -> creator (module p) = Some steps ->
  steps = map step_call done ++ rest -> fails_at (id p) done rest e -> False.
Proof.
  unfold registers. intros Hreg Hc Hsteps Hfail. rewrite Hc in Hreg.
  destruct Hreg as [Hall Hid]. subst steps.
  apply Forall_app in Hall as [_ Hall].
  destruct Hfail as [(c & rest' & -> & Hnameless & -> & _) | (rest' & -> & _)].
  - destruct Hid as [Hnil | Hid]; [discriminate Hnil | contradiction].
  - apply Forall_cons in Hall as [[c Hc'] _]. discriminate Hc'.
Qed.

Lemma initPlugins_rejection_none (this : CreatorT Ext) :
  initPlugins_rejection this = None <-> Forall registers (resolvePlugins this).
Proof.
  unfold initPlugins_rejection. cbv zeta.
  pose proof (registerPlugins_spec (resolvePlugins this) (hooks this)) as Hspec.
  destruct (snd (registerPlugins (resolvePlugins this) (hooks this))) as [e|].
  - split; [discriminate|]. intros Hall. exfalso.
    destruct Hspec as (before & p & after & steps & done & rest
                       & Hps & _ & Hc & Hsteps & Hfail & _).
    rewrite Hps in Hall. apply Forall_app in Hall as [_ Hall].
    apply Forall_cons in Hall as [Hp _].
    exact (registers_not_failing p steps done rest e Hp Hc Hsteps Hfail).
  - split; [|reflexivity]. intros _. apply Hspec.
Qed.

Lemma initPlugins_hooks (this : CreatorT Ext) :
  initPlugins_rejection this = None ->
  hooks (initPlugins this) = hooks_app (hooks this) (registered (resolvePlugins this)).
Proof.
  unfold initPlugins_rejection, initPlugins, setHooks. cbv zeta. cbn [hooks].
  intros Hreg.
  pose proof (registerPlugins_spec (resolvePlugins this) (hooks this)) as Hspec.
  rewrite Hreg in Hspec. apply Hspec.
Qed.

Lemma hooks_app_afterInit (h : Hooks Ext) plugins :
  s_taps (afterInit (hooks_app h (registered plugins))) = s_taps (afterInit h).
Proof. unfold hooks_app, registered. cbn. apply app_nil_r. Qed.

Lemma initPlugins_afterInit (this : CreatorT Ext) :
  s_taps (afterInit (hooks (initPlugins this))) = s_taps (afterInit (hooks this)).
Proof.
  unfold initPlugins, setHooks. cbv zeta. cbn [hooks].
  pose proof (registerPlugins_spec (resolvePlugins this) (hooks this)) as Hspec.
  destruct (snd (registerPlugins (resolvePlugins this) (hooks this))) as [e|].
  - destruct Hspec as (before & p & after & steps & done & rest & _ & _ & _ & _ & _ & ->).
    apply hooks_app_afterInit.
  - destruct Hspec as [_ ->]. apply hooks_app_afterInit.
Qed.

(** X1: [initPlugins] goes through the three built-in plugins
    (request-app-id, recommended, init-git, in this order) and then the
    plugins given at construction in their order.  It returns exactly when
    no [creator] throws and every plugin that taps has a name; then each
    hook holds the taps it had, followed by those of the plugins in that
    order, within a plugin in the order of its [api.tap*] calls, each under
    the plugin's id (a plugin without a [creator] function adds nothing).
    When it is rejected, the plugins before the failing one are registered
    in full, the failing one up to the call before the exception, the later
    ones not at all; the error is the one thrown, or tapable's for a missing
    name.  Either way nothing is tapped on afterInit. *)
Theorem initPlugins_registers_in_order (this : CreatorT Ext) :
  resolvePlugins this
  = [ mkPluginInfo "@mpflow/cli/lib/creator-plugins/request-app-id"
        (request_app_id (builtins this));
      mkPluginInfo "@mpflow/cli/lib/creator-plugins/recommended"
        (recommended (builtins this));
      mkPluginInfo "@mpflow/cli/lib/creator-plugins/init-git"
        (init_git (builtins this)) ]
    ++ inlinePlugins this
  /\ (initPlugins_rejection this = None <-> Forall registers (resolvePlugins this))
  /\ (initPlugins_rejection this = None ->
      hooks (initPlugins this) = hooks_app (hooks this) (registered (resolvePlugins this)))
  /\ (forall e, initPlugins_rejection this = Some e ->
      exists before p after steps done rest,
        resolvePlugins this = before ++ p :: after
        /\ Forall registers before
        /\ creator (module p) = Some steps
        /\ steps = map step_call done ++ rest
        /\ fails_at (id p) done rest e
        /\ hooks (initPlugins this)
           = hooks_app (hooks this) (registered (before ++ [calling (id p) done])))
  /\ s_taps (afterInit (hooks (initPlugins this))) = s_taps (afterInit (hooks this)).
Proof.
  split; [reflexivity|]. split; [apply initPlugins_rejection_none|].
  split; [apply initPlugins_hooks|]. split; [|apply initPlugins_afterInit].
  intros e. unfold initPlugins_rejection, initPlugins, setHooks. cbv zeta. cbn [hooks].
  intros Hrej.
  pose proof (registerPlugins_spec (resolvePlugins this) (hooks this)) as Hspec.
  rewrite Hrej in Hspec. exact Hspec.
Qed.

Lemma iter_initPlugins_plugins n (this : CreatorT Ext) :
  resolvePlugins (Nat.iter n initPlugins this) = resolvePlugins this.
Proof.
  induction n as [|n IH]; [reflexivity|].
  change (Nat.iter (S n) initPlugins this) with (initPlugins (Nat.iter n initPlugins this)).
  exact IH.
Qed.

Lemma iter_initPlugins_rejection n (this : CreatorT Ext) :
  initPlugins_rejection this = None ->
  initPlugins_rejection (Nat.iter n initPlugins this) = None.
Proof.
  intros Hreg. apply initPlugins_rejection_none.
  rewrite iter_initPlugins_plugins. now apply initPlugins_rejection_none.
Qed.

Lemma iter_initPlugins_hooks n (this : CreatorT Ext) :
  initPlugins_rejection this = None ->
  hooks (Nat.iter n initPlugins this)
  = hooks_app_n n (hooks this) (registered (resolvePlugins this)).
Proof.
  intros Hreg. induction n as [|n IH]; [reflexivity|].
  change (Nat.iter (S n) initPlugins this) with (initPlugins (Nat.iter n initPlugins this)).
  cbn [hooks_app_n].
  rewrite initPlugins_hooks by now apply iter_initPlugins_rejection.
  now rewrite IH, iter_initPlugins_plugins.
Qed.

Lemma iter_initPlugins_afterInit n (this : CreatorT Ext) :
  s_taps (afterInit (hooks (Nat.iter n initPlugins this))) = s_taps (afterInit (hooks this)).
Proof.
  induction n as [|n IH]; [reflexivity|].
  change (Nat.iter (S n) initPlugins this) with (initPlugins (Nat.iter n initPlugins this)).
  now rewrite initPlugins_afterInit.
Qed.

(** X2: on a creator whose plugins all register, every [create]
    registers all of them again.  After [n] earlier calls each hook holds
    its original taps followed by [n] copies of the plugins' taps, the next
    [create] registers without an exception too, and it runs with one copy
    more. *)
Theorem repeated_create_registers_again (n : nat) (this : CreatorT Ext)
    (s : Store Ext) :
  initPlugins_rejection this = None ->
  hooks (Nat.iter n initPlugins this)
  = hooks_app_n n (hooks this) (registered (resolvePlugins this))
  /\ initPlugins_rejection (Nat.iter n initPlugins this) = None
  /\ hooks (fst (create (Nat.iter n initPlugins this) s))
     = hooks_app_n (S n) (hooks this) (registered (resolvePlugins this)).
Proof.
  intros Hreg.
  split; [now apply iter_initPlugins_hooks|].
  split; [now apply iter_initPlugins_rejection|].
  now apply (iter_initPlugins_hooks (S n)).
Qed.

(** ** afterInit *)

(** The segment of another stage shows nothing in the view of [st]. *)
Ltac no_view st t :=
  match goal with
  | Hs : stage_segment ?st' ?r t |- _ =>
      rewrite (stage_view_other st st' r t ltac:(discriminate) Hs)
  end.

(** Each [promise] equation among the hypotheses gives its segment. *)
Ltac segs :=
  repeat match goal with
  | Hp : promiseW ?st ?show ?hk ?x ?s = (?t, ?s', ?r) |- _ =>
      lazymatch goal with
      | _ : stage_segment st _ t |- _ => fail
      | _ => let Hs := fresh "Hseg" in
             pose proof (promiseW_segment st show hk x s) as Hs;
             rewrite Hp in Hs;
             cbn [trace_of store_of result_of fst snd rejection] in Hs
      end
  | Hp : promiseS ?st ?show ?hk ?x ?s = (?t, ?s', ?r) |- _ =>
      lazymatch goal with
      | _ : stage_segment st _ t |- _ => fail
      | _ => let Hs := fresh "Hseg" in
             pose proof (promiseS_segment st show hk x s) as Hs;
             rewrite Hp in Hs;
             cbn [trace_of store_of result_of fst snd rejection] in Hs
      end
  end.

Lemma emit_run_afterInit (c : CreatorT Ext) files s run :
  s_taps (afterInit (hooks c)) = [] ->
  emit_run c files s run ->
  (stage_view AfterInit (trace_of run) = [] /\ exists e, result_of run = Err e)
  \/ (stage_view AfterInit (trace_of run)
       = [EvStageBegin AfterInit [VString (context c)]; EvStageSettled AfterInit None]
      /\ result_of run = Ok tt).
Proof.
  intros Hnone Hrun.
  destruct Hrun as [s4 t5 s5 e H5|s4 t5 s5 t6 s6 e H5 H6|s4 t5 s5 t6 s6 t7 s7 r H5 H6 H7].
  - left. segs. cbn [trace_of result_of fst snd]. split; [|eauto].
    eapply stage_view_other; [|eassumption]. discriminate.
  - left. segs. cbn [trace_of result_of fst snd]. split; [|eauto].
    rewrite stage_view_app.
    no_view AfterInit t5.
    no_view AfterInit t6.
    reflexivity.
  - right. segs. cbn [trace_of result_of fst snd].
    unfold promiseS, settle in H7. rewrite Hnone in H7. cbn in H7.
    injection H7 as <- <- <-.
    rewrite !stage_view_app.
    no_view AfterInit t5.
    no_view AfterInit t6.
    split; reflexivity.
Qed.

(** X3: no [CreatorAPI] method taps afterInit and the constructor does
    not either, so on a creator as constructed, after any number of [create]
    calls, the afterInit hook has no taps: in a run it is either never
    reached ([create] was rejected earlier) or it is promised with the
    project directory and fulfilled at once, and [create] is fulfilled.
    [create] is never rejected in afterInit. *)
Theorem afterInit_never_tapped (ctx : string) (b : BuiltIns Ext)
    (o : CreatorOptions Ext) (n : nat) (s : Store Ext) :
  let this := Nat.iter n initPlugins (newCreator ctx b o) in
  let run := snd (create this s) in
  s_taps (afterInit (hooks (fst (create this s)))) = []
  /\ ((stage_view AfterInit (trace_of run) = [] /\ exists e, result_of run = Err e)
      \/ (stage_view AfterInit (trace_of run)
           = [EvStageBegin AfterInit [VString ctx]; EvStageSettled AfterInit None]
          /\ result_of run = Ok tt)).
Proof.
  intros this run.
  assert (Hnone : s_taps (afterInit (hooks (initPlugins this))) = []).
  { change (initPlugins this) with (Nat.iter (S n) initPlugins (newCreator ctx b o)).
    now rewrite iter_initPlugins_afterInit. }
  split; [exact Hnone|].
  assert (Hctx : context (initPlugins this) = ctx).
  { change (initPlugins this) with (Nat.iter (S n) initPlugins (newCreator ctx b o)).
    apply iter_initPlugins_context. }
  subst run.
  destruct (create_cases this s) as [(e0 & _ & ->) | [_ Hc]];
    [left; split; [reflexivity | now exists e0]|].
  destruct Hc
    as [t1 s1 e H1|t1 s1 infos t2 s2 e H1 H2
        |t1 s1 infos t2 s2 templatePath files rest H1 H2 Hfiles Hrest].
  - left. segs. cbn [trace_of result_of fst snd]. split; [|eauto].
    eapply stage_view_other; [|eassumption]. discriminate.
  - left. segs. cbn [trace_of result_of fst snd]. split; [|eauto].
    rewrite stage_view_app.
    no_view AfterInit t1.
    no_view AfterInit t2.
    reflexivity.
  - segs. cbn [trace_of result_of fst snd].
    rewrite !stage_view_app.
    no_view AfterInit t1.
    no_view AfterInit t2.
    cbn [app].
    destruct Hrest as [s2' t3 s3 e H3|s2' t3 s3 t4 s4 e H3 H4
                       |s2' t3 s3 t4 s4 rest H3 H4 Hrest].
    + left. segs. cbn [trace_of result_of fst snd]. split; [|eauto].
      eapply stage_view_other; [|eassumption]. discriminate.
    + left. segs. cbn [trace_of result_of fst snd]. split; [|eauto].
      rewrite stage_view_app.
      no_view AfterInit t3.
      no_view AfterInit t4.
      reflexivity.
    + segs. cbn [trace_of result_of fst snd].
      rewrite !stage_view_app.
      no_view AfterInit t3.
      no_view AfterInit t4.
      cbn [app]. rewrite <- Hctx.
      eapply emit_run_afterInit; eassumption.
Qed.


(** ** More about [getTemplatePath] *)

Lemma substring_all (s : string) : String.substring 0 (String.length s) s = s.
Proof. induction s as [|c s IH]; cbn; [reflexivity | now rewrite IH]. Qed.

(** X4: a reference [file://P] resolves to [P] made absolute, with
    [template] joined to it, whatever [P] is: the marker is stripped exactly,
    nothing of [P] is lost or reinterpreted, and nothing outside the process
    is touched. *)
Theorem getTemplatePath_strips_marker (rest : string) (s : Store Ext) :
  getTemplatePath ("file://" ++ rest)%string s
  = ([EConsoleLog (MsgUseTemplate ("file://" ++ rest)%string);
      EConsoleLog (MsgLocalTemplate (path_join [path_resolve rest; "template"]))],
     s, Ok (path_join [path_resolve rest; "template"])).
Proof.
  unfold getTemplatePath.
  assert (Hp : startsWith ("file://" ++ rest)%string "file://" = true).
  { unfold startsWith. cbn. now destruct rest. }
  rewrite Hp.
  assert (Hs : substr ("file://" ++ rest)%string 7 = rest).
  { unfold substr. cbv [String.append]. fold String.append.
    cbn [String.length Nat.sub String.substring]. rewrite Nat.sub_0_r.
    apply substring_all. }
  rewrite Hs. reflexivity.
Qed.

Lemma downloadTemplate_cases tmpPath url (s : Store Ext) :
  downloadTemplate tmpPath url s
  = match axios_get url (ext s) with
    | (Err e, x2) =>
        ([EConsoleLog (MsgDownload url); EAxiosGet url], mkStore (heap s) x2, Err e)
    | (Ok body, x2) =>
        match tar_x tmpPath body x2 with
        | (Err e, x3) =>
            ([EConsoleLog (MsgDownload url); EAxiosGet url; ETarExtract tmpPath],
             mkStore (heap s) x3, Err e)
        | (Ok _, x3) =>
            ([EConsoleLog (MsgDownload url); EAxiosGet url; ETarExtract tmpPath],
             mkStore (heap s) x3, Ok (path_join [tmpPath; "package"; "template"]))
        end
    end.
Proof.
  unfold downloadTemplate, bind, console_log, log, extcall, ret.
  cbn [heap ext app].
  destruct (axios_get url (ext s)) as [[body|e] x2]; [|reflexivity].
  cbn [heap ext app].
  destruct (tar_x tmpPath body x2) as [[[]|e] x3]; reflexivity.
Qed.

(** X5: for an http(s) URL [getTemplatePath] never asks npm: no
    subprocess is run, and the only request made is to the URL exactly as
    given (it is not trimmed or rewritten). *)
Theorem getTemplatePath_url_direct (url : string) (s : Store Ext) :
  startsWith url "file://" = false ->
  test_http_url url = true ->
  let run := getTemplatePath url s in
  lookups (trace_of run) = []
  /\ Forall (fun e => match e with
                      | EAxiosGet u => u = url
                      | EExecSync _ | EConsoleLog (MsgNpmLookup _) => False
                      | _ => True
                      end) (trace_of run).
Proof.
  intros Hfile Hhttp run. subst run.
  rewrite (getTemplatePath_download _ _ Hfile), Hhttp.
  destruct (tmp_dir (ext s)) as [[tmpPath|e] x1].
  - unfold prepend. rewrite downloadTemplate_cases. cbn [heap ext].
    destruct (axios_get url x1) as [[body|e] x2].
    + destruct (tar_x tmpPath body x2) as [[[]|e] x3]; cbn; split;
        try reflexivity; repeat constructor.
    + cbn. split; [reflexivity | repeat constructor].
  - cbn. split; [reflexivity | repeat constructor].
Qed.

(** X6: whenever [getTemplatePath] resolves for a reference that does not
    start with [file://], the path is [package/template] inside the
    temporary directory that this very call obtained from [tmp.dir], and
    exactly one request and one extraction (into that directory) were made,
    in this order. *)
Theorem getTemplatePath_resolves_into_tmp (templateName : string) (s : Store Ext)
    (p : string) :
  startsWith templateName "file://" = false ->
  result_of (getTemplatePath templateName s) = Ok p ->
  exists tmpPath x1 url,
    tmp_dir (ext s) = (Ok tmpPath, x1)
    /\ p = path_join [tmpPath; "package"; "template"]
    /\ filter (fun e => is_download e = true) (trace_of (getTemplatePath templateName s))
       = [EAxiosGet url; ETarExtract tmpPath]
    /\ (test_http_url templateName = true -> url = templateName).
Proof.
  intros Hfile. rewrite (getTemplatePath_download _ _ Hfile).
  destruct (tmp_dir (ext s)) as [[tmpPath|e] x1]; [|discriminate].
  destruct (test_http_url templateName).
  - unfold prepend. rewrite downloadTemplate_cases. cbn [heap ext].
    destruct (axios_get templateName x1) as [[body|e] x2]; [|discriminate].
    destruct (tar_x tmpPath body x2) as [[[]|e] x3]; [|discriminate].
    cbn. intros [= <-]. exists tmpPath, x1, templateName. repeat split.
  - destruct (execSync _ x1) as [[out|e] x2]; [|discriminate].
    unfold prepend. rewrite downloadTemplate_cases. cbn [heap ext].
    destruct (axios_get (trim out) x2) as [[body|e] x3]; [|discriminate].
    destruct (tar_x tmpPath body x3) as [[[]|e] x4]; [|discriminate].
    cbn. intros [= <-]. exists tmpPath, x1, (trim out). repeat split. discriminate.
Qed.

(** X7: [getTemplatePath] makes each outside call at most once and stops
    at the first that fails: for a reference not starting with [file://]
    the calls made are an initial part of tmp.dir, (npm info, only when the
    reference is no URL,) request, extraction; the temporary directory is
    always asked for first, and when the promise is fulfilled all of them
    were made. *)
Theorem getTemplatePath_no_retry (templateName : string) (s : Store Ext) :
  startsWith templateName "file://" = false ->
  let run := getTemplatePath templateName s in
  let plan :=
    if test_http_url templateName
    then [KTmpDir; KAxiosGet; KTarExtract]
    else [KTmpDir; KExecSync; KAxiosGet; KTarExtract] in
  exists k,
    1 <= k <= length plan
    /\ call_kinds (trace_of run) = firstn k plan
    /\ ((exists p, result_of run = Ok p) -> k = length plan).
Proof.
  intros Hfile run plan. subst run plan.
  rewrite (getTemplatePath_download _ _ Hfile).
  assert (Hno : forall e : error, ~ (exists p : string, @Err string e = Ok p)).
  { intros e [p Hp]. discriminate. }
  destruct (tmp_dir (ext s)) as [[tmpPath|e] x1].
  - destruct (test_http_url templateName).
    + unfold prepend. rewrite downloadTemplate_cases. cbn [heap ext].
      destruct (axios_get templateName x1) as [[body|e] x2].
      * destruct (tar_x tmpPath body x2) as [[[]|e] x3];
          exists 3; cbn; repeat split; lia.
      * exists 2. cbn. repeat split; try lia. intros Hp. now apply Hno in Hp.
    + destruct (execSync _ x1) as [[out|e] x2].
      * unfold prepend. rewrite downloadTemplate_cases. cbn [heap ext].
        destruct (axios_get (trim out) x2) as [[body|e] x3].
        -- destruct (tar_x tmpPath body x3) as [[[]|e] x4];
             exists 4; cbn; repeat split; lia.
        -- exists 3. cbn. repeat split; try lia. intros Hp. now apply Hno in Hp.
      * exists 2. cbn. repeat split; try lia. intros Hp. now apply Hno in Hp.
  - exists 1. destruct (test_http_url templateName); cbn; repeat split; try lia;
      intros Hp; now apply Hno in Hp.
Qed.


(** ** What the default handlers do to the heap *)

Lemma keeps_heap_ret {A} (a : A) : keeps_heap (ret a : H A).
Proof. intros s. reflexivity. Qed.

Lemma keeps_heap_log (e : Eff) : keeps_heap (log e : H unit).
Proof. intros s. reflexivity. Qed.

Lemma keeps_heap_extcall {A} e (f : Ext -> result A * Ext) : keeps_heap (extcall e f).
Proof. intros s. unfold extcall. now destruct (f (ext s)). Qed.

Lemma keeps_heap_bind {A B} (m : H A) (k : A -> H B) :
  keeps_heap m -> (forall a, keeps_heap (k a)) -> keeps_heap (bind m k).
Proof.
  intros Hm Hk s. unfold bind.
  specialize (Hm s). destruct (m s) as [[t1 s1] [a|e]]; cbn in *; [|exact Hm].
  specialize (Hk a s1). destruct (k a s1) as [[t2 s2] r]; cbn in *. congruence.
Qed.

Lemma keeps_heap_getTemplatePath templateName : keeps_heap (getTemplatePath templateName).
Proof.
  unfold getTemplatePath.
  apply keeps_heap_bind; [apply keeps_heap_log|]. intros _.
  destruct (startsWith templateName "file://").
  - apply keeps_heap_bind; [apply keeps_heap_log|]. intros _. apply keeps_heap_ret.
  - apply keeps_heap_bind; [apply keeps_heap_extcall|]. intros tmpPath.
    apply keeps_heap_bind.
    + destruct (negb (test_http_url templateName)); [|apply keeps_heap_ret].
      apply keeps_heap_bind; [apply keeps_heap_log|]. intros _.
      apply keeps_heap_bind; [apply keeps_heap_extcall|]. intros out.
      apply keeps_heap_ret.
    + intros url.
      apply keeps_heap_bind; [apply keeps_heap_log|]. intros _.
      apply keeps_heap_bind; [apply keeps_heap_extcall|]. intros body.
      apply keeps_heap_bind; [apply keeps_heap_extcall|]. intros _.
      apply keeps_heap_ret.
Qed.

(** X8: of everything [Creator] itself runs, only the default render
    handler writes to an object: resolving the template, the default emit
    and init handlers and [installPlugin] leave the whole heap as it was
    (whether they succeed or fail), and the default render handler changes
    at most the [files] object it was given. *)
Theorem only_render_writes_the_heap :
  (forall templateName, keeps_heap (getTemplatePath templateName))
  /\ (forall templateName, keeps_heap (default_resolveTemplate templateName))
  /\ (forall a, keeps_heap (default_emit a))
  /\ (forall this_context context, keeps_heap (default_init this_context context))
  /\ (forall this_context pluginNames, keeps_heap (installPlugin this_context pluginNames))
  /\ (forall infos files (s : Store Ext) l,
        l <> files ->
        heap (store_of (default_render (infos, files) s)) !! l = heap s !! l).
Proof.
  split; [apply keeps_heap_getTemplatePath|].
  split.
  { intros templateName. unfold default_resolveTemplate.
    apply keeps_heap_bind; [apply keeps_heap_getTemplatePath|].
    intros p. apply keeps_heap_ret. }
  split.
  { intros [context files]. unfold default_emit.
    apply keeps_heap_bind; [|intros _; apply keeps_heap_ret].
    intros s. apply keeps_heap_extcall. }
  split.
  { intros this_context context. unfold default_init.
    repeat (apply keeps_heap_bind; [apply keeps_heap_extcall|]; intros ?).
    apply keeps_heap_ret. }
  split.
  { intros this_context [|p ps]; [apply keeps_heap_ret|].
    unfold installPlugin.
    apply keeps_heap_bind; [apply keeps_heap_extcall|]. intros _.
    apply keeps_heap_extcall. }
  intros infos files s l Hne.
  unfold default_render, bind, extcall, object_assign, ret.
  destruct (renderFiles _ _ _ _ (ext s)) as [[rendered|e] x']; cbn; [|reflexivity].
  now rewrite lookup_insert_ne.
Qed.

(** ** The default render handler *)

(** X9: when [renderFiles] succeeds, the default render handler merges
    its result into the [files] object as [Object.assign] does: every
    rendered entry is in [files] afterwards with the rendered content (an
    entry of the same name put there before is overwritten), and every other
    entry of [files] is kept.  When [renderFiles] fails the handler is
    rejected with its error and [files] is what it was. *)
Theorem default_render_assigns (infos : RenderInfos) (files : loc) (s : Store Ext) :
  let run := default_render (infos, files) s in
  match renderFiles (ri_templatePath infos) "**/*" (ri_projectName infos)
          (ri_appId infos) (ext s) with
  | (Ok rendered, x') =>
      result_of run = Ok VUndefined
      /\ (forall k v, rendered !! k = Some v ->
            (heap (store_of run) !!! files) !! k = Some v)
      /\ (forall k, rendered !! k = None ->
            (heap (store_of run) !!! files) !! k = (heap s !!! files) !! k)
  | (Err e, x') =>
      result_of run = Err e /\ heap (store_of run) = heap s
  end.
Proof.
  intros run. subst run.
  unfold default_render, bind, extcall, object_assign, ret.
  destruct (renderFiles _ _ _ _ (ext s)) as [[rendered|e] x']; cbn;
    [|split; reflexivity].
  split; [reflexivity|]. rewrite lookup_total_insert_eq. split.
  - intros k v Hk. now apply lookup_union_Some_l.
  - intros k Hk. now apply lookup_union_r.
Qed.

(** ** The default init handler *)

(** X10: the default init handler runs the generator only last and only
    with [false]: whenever [generate] is called, the project's own
    dependencies and then [@mpflow/service] have been installed and the
    built-in plugins looked up, in this order and each on the world the
    previous call left, and the generator was made for this creator's
    directory over exactly the plugins that lookup returned, without any
    registered file processor; the world [generate] leaves is the one the
    handler leaves.  If the handler is fulfilled, [generate] was called. *)
Theorem default_init_generates_last (this_context context : string) (s : Store Ext) :
  let run := default_init this_context context s in
  (forall g applyAll,
     In (EGenerate g applyAll) (trace_of run) ->
     applyAll = false
     /\ (exists x1 x2 plugins x3,
           installNodeModules context None (ext s) = (Ok tt, x1)
           /\ installNodeModules this_context (Some ["@mpflow/service"]) x1 = (Ok tt, x2)
           /\ getBuiltInPlugins this_context x2 = (Ok plugins, x3)
           /\ g = newGenerator this_context plugins
           /\ g_plugins g = plugins
           /\ ext (store_of run) = snd (generate g false x3))
     /\ g_processFiles g = []
     /\ g_context g = this_context
     /\ trace_of run
        = [EInstallNodeModules context None;
           EInstallNodeModules this_context (Some ["@mpflow/service"]);
           EGetBuiltInPlugins this_context;
           EGenerate g false])
  /\ (forall v, result_of run = Ok v ->
        v = VUndefined /\ exists g, In (EGenerate g false) (trace_of run)).
Proof.
  intros run. subst run.
  unfold default_init, bind, extcall, ret. cbn [heap ext].
  destruct (installNodeModules context None (ext s)) as [[[]|e] x1].
  2:{ cbn. split; [intros g a [Hin | []]; discriminate | discriminate]. }
  cbn [heap ext].
  destruct (installNodeModules this_context _ x1) as [[[]|e] x2] eqn:H2.
  2:{ cbn. split; [intros g a [Hin | [Hin | []]]; discriminate | discriminate]. }
  cbn [heap ext].
  destruct (getBuiltInPlugins this_context x2) as [[plugins|e] x3] eqn:H3.
  2:{ cbn. split; [intros g a [Hin | [Hin | [Hin | []]]]; discriminate | discriminate]. }
  cbn [heap ext].
  destruct (generate _ false x3) as [[[]|e] x4] eqn:H4; cbn.
  - split.
    + intros g a [Hin | [Hin | [Hin | [Hin | []]]]]; try discriminate.
      injection Hin as <- <-. split; [reflexivity|]. split; [|repeat split].
      exists x1, x2, plugins, x3. rewrite H4. repeat split; assumption.
    + intros v [= <-]. split; [reflexivity|]. eexists. do 3 right. left. reflexivity.
  - split; [|discriminate].
    intros g a [Hin | [Hin | [Hin | [Hin | []]]]]; try discriminate.
    injection Hin as <- <-. split; [reflexivity|]. split; [|repeat split].
    exists x1, x2, plugins, x3. rewrite H4. repeat split; assumption.
Qed.


(** ** [create] without plugins *)

Lemma effects_app t t' : effects (t ++ t') = effects t ++ effects t'.
Proof. apply flat_map_app. Qed.

Lemma effects_lifted (t : list Eff) : effects (map EvEff t) = t.
Proof. induction t as [|e t IH]; [reflexivity|]. cbn. now rewrite <- IH at 2. Qed.

Lemma registerPlugins_none (plugins : list (PluginInfo Ext)) (h : Hooks Ext) :
  Forall (fun p => creator (module p) = None) plugins ->
  registerPlugins plugins h = (h, None).
Proof.
  induction 1 as [|p plugins Hp _ IH]; [reflexivity|].
  cbn [registerPlugins]. unfold registerPlugin. now rewrite Hp.
Qed.

Lemma promiseW_nil {A} st (show : A -> list Value) x (s : Store Ext) :
  promiseW st show (mkWaterfall []) x s
  = ([EvStageBegin st (show x); EvStageSettled st None], s, Ok x).
Proof. reflexivity. Qed.

Lemma promiseS_nil {A} st (show : A -> list Value) (x : A) (s : Store Ext) :
  promiseS st show (mkSeries []) x s
  = ([EvStageBegin st (show x); EvStageSettled st None], s, Ok tt).
Proof. reflexivity. Qed.

Lemma promiseW_one {A} st (show : A -> list Value) name
    (fn : A -> H (option A)) x (s : Store Ext) :
  promiseW st show (mkWaterfall [mkTap name fn]) x s
  = (EvStageBegin st (show x) :: EvCall st name (show x)
       :: map EvEff (trace_of (fn x s))
       ++ [EvSettled st name (rejection (result_of (fn x s)));
           EvStageSettled st (rejection (result_of (fn x s)))],
     store_of (fn x s),
     match result_of (fn x s) with
     | Ok (Some v) => Ok v
     | Ok None => Ok x
     | Err e => Err e
     end).
Proof.
  unfold promiseW, settle. cbn [w_taps]. rewrite runWaterfall_cons.
  cbn [tap_fn tap_name runWaterfall].
  destruct (fn x s) as [[te s1] [[v|]|e]]; unfold prepend, ret;
    cbn [trace_of store_of result_of fst snd rejection app];
    rewrite ?app_nil_r, <- ?app_assoc; reflexivity.
Qed.

Lemma promiseS_one {A} st (show : A -> list Value) name
    (fn : A -> H Value) x (s : Store Ext) :
  promiseS st show (mkSeries [mkTap name fn]) x s
  = (EvStageBegin st (show x) :: EvCall st name (show x)
       :: map EvEff (trace_of (fn x s))
       ++ [EvSettled st name (rejection (result_of (fn x s)));
           EvStageSettled st (rejection (result_of (fn x s)))],
     store_of (fn x s),
     match result_of (fn x s) with
     | Ok _ => Ok tt
     | Err e => Err e
     end).
Proof.
  unfold promiseS, settle. cbn [s_taps]. rewrite runSeries_cons.
  cbn [tap_fn tap_name runSeries].
  destruct (fn x s) as [[te s1] [v|e]]; unfold prepend, ret;
    cbn [trace_of store_of result_of fst snd rejection app];
    rewrite ?app_nil_r, <- ?app_assoc; reflexivity.
Qed.

Lemma effects_begin st args t : effects (EvStageBegin st args :: t) = effects t.
Proof. reflexivity. Qed.

Lemma effects_stage_settled st r t : effects (EvStageSettled st r :: t) = effects t.
Proof. reflexivity. Qed.

Lemma effects_call st name args t : effects (EvCall st name args :: t) = effects t.
Proof. reflexivity. Qed.

Lemma effects_settled st name r t : effects (EvSettled st name r :: t) = effects t.
Proof. reflexivity. Qed.

Lemma effects_nil : effects [] = [].
Proof. reflexivity. Qed.

(** Dropping the hook events of a log piece by piece. *)
Ltac eff_norm :=
  repeat first
    [ rewrite effects_app | rewrite effects_lifted | rewrite effects_begin
    | rewrite effects_stage_settled | rewrite effects_call
    | rewrite effects_settled | rewrite effects_nil ];
  cbn [app ext]; rewrite ?app_nil_r.

Lemma extcall_ok {A} e (f : Ext -> result A * Ext) (s : Store Ext) a x' :
  f (ext s) = (Ok a, x') -> extcall e f s = ([e], mkStore (heap s) x', Ok a).
Proof. intros Hf. unfold extcall. now rewrite Hf. Qed.

Lemma extcall_err {A} e (f : Ext -> result A * Ext) (s : Store Ext) err x' :
  f (ext s) = (Err err, x') -> extcall e f s = ([e], mkStore (heap s) x', Err err).
Proof. intros Hf. unfold extcall. now rewrite Hf. Qed.

Lemma default_init_ext this_context context (s s' : Store Ext) :
  ext s = ext s' ->
  trace_of (default_init this_context context s)
  = trace_of (default_init this_context context s')
  /\ ext (store_of (default_init this_context context s))
     = ext (store_of (default_init this_context context s'))
  /\ result_of (default_init this_context context s)
     = result_of (default_init this_context context s').
Proof.
  intros Hext. unfold default_init, bind, extcall, ret, newGenerator.
  cbn [heap ext]. rewrite Hext.
  destruct (installNodeModules context None (ext s')) as [[[]|e] x1]; cbn [heap ext];
    [|now repeat split].
  destruct (installNodeModules this_context _ x1) as [[[]|e] x2]; cbn [heap ext];
    [|now repeat split].
  destruct (getBuiltInPlugins this_context x2) as [[plugins|e] x3]; cbn [heap ext];
    [|now repeat split].
  destruct (generate _ false x3) as [[[]|e] x4]; now repeat split.
Qed.

(** X11: when neither the built-in plugins nor the plugins given at
    construction have a [creator] function, [create] on a new creator does
    to the outside world exactly what the four default handlers do one
    after the other: resolve the template named in the options (the empty
    string when absent), render it for the given project name and app id,
    write exactly the rendered files to the project directory, and
    initialise it.  Effects, final outside world and outcome are the same. *)
Theorem create_without_plugins_runs_defaults (ctx : string) (b : BuiltIns Ext)
    (o : CreatorOptions Ext) (s : Store Ext) :
  creator (request_app_id b) = None ->
  creator (recommended b) = None ->
  creator (init_git b) = None ->
  Forall (fun p => creator (module p) = None) (opt_plugins o) ->
  let run := snd (create (newCreator ctx b o) s) in
  let plain :=
    create_without_plugins ctx (or_empty (opt_templateName o))
      (or_empty (opt_projectName o)) (or_empty (opt_appId o)) s in
  effects (trace_of run) = trace_of plain
  /\ ext (store_of run) = ext (store_of plain)
  /\ result_of run = result_of plain.
Proof.
  intros H1 H2 H3 Hinline run plain.
  assert (Hnone : registerPlugins (resolvePlugins (newCreator ctx b o))
                    (hooks (newCreator ctx b o))
                  = (hooks (newCreator ctx b o), None)).
  { apply registerPlugins_none. unfold resolvePlugins, resolvePluginInfos.
    repeat (constructor; [assumption|]). exact Hinline. }
  assert (Hsame : initPlugins (newCreator ctx b o) = newCreator ctx b o).
  { unfold initPlugins. cbv zeta. now rewrite Hnone. }
  assert (Hreg : initPlugins_rejection (newCreator ctx b o) = None).
  { unfold initPlugins_rejection. cbv zeta. now rewrite Hnone. }
  clear Hnone.
  subst run plain. unfold create. cbn zeta. rewrite Hsame, Hreg. cbn [snd].
  unfold newCreator.
  cbn [hooks prepare resolveTemplate render beforeEmit emit init afterInit
       context projectName appId templateName initial_hooks].
  unfold tapPromiseW, tapPromiseS. cbn [w_taps s_taps app].
  unfold create_without_plugins.
  set (tn := or_empty (opt_templateName o)).
  set (pn := or_empty (opt_projectName o)).
  set (ai := or_empty (opt_appId o)).
  rewrite (bind_ok _ _ _ _ _ _ (promiseW_nil Prepare showInfos (mkInfos pn ai tn) s)).
  cbn [inf_templateName inf_projectName inf_appId].
  pose proof (promiseW_one ResolveTemplate showString "creator"
                default_resolveTemplate tn s) as R2.
  assert (Hres : default_resolveTemplate tn s
                 = (trace_of (getTemplatePath tn s), store_of (getTemplatePath tn s),
                    match result_of (getTemplatePath tn s) with
                    | Ok p => Ok (Some p)
                    | Err e => Err e
                    end)).
  { unfold default_resolveTemplate, bind, ret.
    destruct (getTemplatePath tn s) as [[tg sg] [p|e]]; cbn; [|reflexivity].
    now rewrite app_nil_r. }
  rewrite Hres in R2. cbn [trace_of store_of result_of fst snd] in R2. clear Hres.
  destruct (getTemplatePath tn s) as [[tg sg] [p|e]] eqn:Hg;
    cbn [trace_of store_of result_of fst snd rejection] in R2.
  2:{ rewrite (bind_err _ _ _ _ _ _ R2).
      rewrite (bind_err _ _ _ _ _ _ Hg).
      cbn [trace_of store_of result_of fst snd]. eff_norm.
      now repeat split. }
  rewrite (bind_ok _ _ _ _ _ _ R2). clear R2.
  rewrite (bind_ok _ _ _ _ _ _ Hg).
  set (files := fresh (dom (heap sg))).
  set (sg' := mkStore (<[files := ∅]> (heap sg)) (ext sg)).
  assert (R3 : new_object sg = ([], sg', Ok files)) by reflexivity.
  rewrite (bind_ok _ _ _ _ _ _ R3). clear R3.
  pose proof (promiseS_one Render showRender "creator" default_render
                (mkRenderInfos pn ai p, files) sg') as R4.
  destruct (renderFiles p "**/*" pn ai (ext sg)) as [[rendered|e] x3] eqn:Hr.
  2:{ assert (Hd : default_render (mkRenderInfos pn ai p, files) sg'
                   = ([ERenderFiles p "**/*" pn ai], mkStore (heap sg') x3, Err e)).
      { unfold default_render. cbn [ri_templatePath ri_projectName ri_appId].
        apply bind_err. now apply extcall_err. }
      rewrite Hd in R4. cbn [trace_of store_of result_of fst snd rejection] in R4.
      rewrite (bind_err _ _ _ _ _ _ R4).
      rewrite (bind_err _ _ _ _ _ _ (extcall_err _ _ sg e x3 Hr)).
      cbn [trace_of store_of result_of fst snd]. eff_norm.
      now repeat split. }
  set (s3 := mkStore (<[files := rendered]> (heap sg')) x3).
  assert (Hd : default_render (mkRenderInfos pn ai p, files) sg'
               = ([ERenderFiles p "**/*" pn ai], s3, Ok VUndefined)).
  { unfold default_render. cbn [ri_templatePath ri_projectName ri_appId].
    rewrite (bind_ok _ _ _ _ _ _ (extcall_ok _ _ sg' rendered x3 Hr)).
    unfold object_assign, bind, ret. cbn [heap ext trace_of store_of result_of fst snd app].
    subst s3 sg'. cbn [heap]. rewrite lookup_total_insert_eq.
    now rewrite (right_id_L ∅ (∪)). }
  rewrite Hd in R4. cbn [trace_of store_of result_of fst snd rejection] in R4. clear Hd.
  rewrite (bind_ok _ _ _ _ _ _ R4). clear R4.
  rewrite (bind_ok _ _ _ _ _ _ (extcall_ok _ _ sg rendered x3 Hr)).
  rewrite (bind_ok _ _ _ _ _ _ (promiseS_nil BeforeEmit showFiles files s3)).
  pose proof (promiseS_one Emit showEmit "creator" default_emit (ctx, files) s3) as R6.
  assert (Hfiles : heap s3 !!! files = rendered).
  { subst s3. cbn [heap]. apply lookup_total_insert_eq. }
  destruct (syncFiles ctx rendered x3) as [[[]|e] x5] eqn:Hs.
  2:{ assert (He : default_emit (ctx, files) s3
                   = ([ESyncFiles ctx rendered], mkStore (heap s3) x5, Err e)).
      { unfold default_emit. apply bind_err. rewrite Hfiles. now apply extcall_err. }
      rewrite He in R6. cbn [trace_of store_of result_of fst snd rejection] in R6.
      rewrite (bind_err _ _ _ _ _ _ R6).
      rewrite (bind_err _ _ _ _ _ _
                 (extcall_err _ _ (mkStore (heap sg) x3) e x5 Hs)).
      cbn [trace_of store_of result_of fst snd]. eff_norm.
      now repeat split. }
  assert (He : default_emit (ctx, files) s3
               = ([ESyncFiles ctx rendered], mkStore (heap s3) x5, Ok VUndefined)).
  { unfold default_emit, bind. rewrite Hfiles.
    rewrite (extcall_ok _ _ s3 tt x5 Hs). reflexivity. }
  rewrite He in R6. cbn [trace_of store_of result_of fst snd rejection] in R6. clear He.
  rewrite (bind_ok _ _ _ _ _ _ R6). clear R6.
  rewrite (bind_ok _ _ _ _ _ _ (extcall_ok _ _ (mkStore (heap sg) x3) tt x5 Hs)).
  set (s5 := mkStore (heap s3) x5).
  set (q5 := mkStore (heap (mkStore (heap sg) x3)) x5).
  pose proof (promiseS_one Init showString "creator" (default_init ctx) ctx s5) as R7.
  destruct (default_init_ext ctx ctx s5 q5 eq_refl) as (Et & Ex & Er).
  destruct (default_init ctx ctx s5) as [[ti si] ri] eqn:Hi.
  destruct (default_init ctx ctx q5) as [[ti' si'] ri'] eqn:Hi'.
  cbn [trace_of store_of result_of fst snd] in Et, Ex, Er, R7. subst ti' ri'.
  destruct ri as [v|e]; cbn [rejection] in R7.
  - rewrite (bind_ok _ _ _ _ _ _ R7).
    rewrite (bind_ok _ _ _ _ _ _ Hi').
    rewrite promiseS_nil. unfold ret.
    cbn [trace_of store_of result_of fst snd]. eff_norm.
    now repeat split.
  - rewrite (bind_err _ _ _ _ _ _ R7).
    rewrite (bind_err _ _ _ _ _ _ Hi').
    cbn [trace_of store_of result_of fst snd]. eff_norm.
    now repeat split.
Qed.

End MoreFacts.

(** * More runs on the concrete world *)

Lemma getTemplatePath_url_direct_witness :
  lookups (trace_of (getTemplatePath "https://example.com/template.tgz" Demo.store0)) = [].
Proof.
  exact (proj1 (getTemplatePath_url_direct "https://example.com/template.tgz"
                  Demo.store0 eq_refl eq_refl)).
Defined.

Lemma getTemplatePath_resolves_into_tmp_witness :
  exists tmpPath x1 url,
    tmp_dir (ext Demo.store0) = (Ok tmpPath, x1)
    /\ "/tmp/tmp-1/package/template" = path_join [tmpPath; "package"; "template"]
    /\ filter (fun e => is_download e = true)
         (trace_of (getTemplatePath "some-package" Demo.store0))
       = [EAxiosGet url; ETarExtract tmpPath]
    /\ (test_http_url "some-package" = true -> url = "some-package").
Proof.
  exact (getTemplatePath_resolves_into_tmp "some-package" Demo.store0
           "/tmp/tmp-1/package/template" eq_refl eq_refl).
Defined.

Lemma getTemplatePath_no_retry_witness :
  exists k,
    1 <= k <= 4
    /\ call_kinds (trace_of (getTemplatePath "some-package" Demo.store0))
       = firstn k [KTmpDir; KExecSync; KAxiosGet; KTarExtract]
    /\ ((exists p, result_of (getTemplatePath "some-package" Demo.store0) = Ok p) -> k = 4).
Proof.
  exact (getTemplatePath_no_retry "some-package" Demo.store0 eq_refl).
Defined.

Lemma only_render_writes_the_heap_witness :
  heap (store_of (default_render (DemoMore.local_infos, 1%positive)
                    DemoMore.store_with_files)) !! 2%positive
  = heap DemoMore.store_with_files !! 2%positive.
Proof.
  refine (proj2 (proj2 (proj2 (proj2 (proj2 only_render_writes_the_heap))))
            DemoMore.local_infos 1%positive DemoMore.store_with_files 2%positive _).
  discriminate.
Defined.

Lemma default_render_assigns_witness :
  (heap (store_of (default_render (DemoMore.local_infos, 1%positive)
                     DemoMore.store_with_files)) !!! 1%positive) !! "app.json"
  = Some "{}".
Proof.
  pose proof (default_render_assigns DemoMore.local_infos 1%positive
                DemoMore.store_with_files) as Hassign.
  cbv zeta in Hassign.
  change (renderFiles (ri_templatePath DemoMore.local_infos) "**/*"
            (ri_projectName DemoMore.local_infos) (ri_appId DemoMore.local_infos)
            (ext DemoMore.store_with_files))
    with (Ok (list_to_map [("app.json", "{}")] ∪ {[ "project.config.json" := "wx1" ]} : Files),
          DemoMore.world_with_template) in Hassign.
  cbv beta iota in Hassign.
  destruct Hassign as (_ & Hin & _).
  apply Hin. vm_compute. reflexivity.
Defined.

Lemma default_init_generates_last_witness :
  trace_of (default_init "/proj" "/proj" Demo.store0)
  = [EInstallNodeModules "/proj" None;
     EInstallNodeModules "/proj" (Some ["@mpflow/service"]);
     EGetBuiltInPlugins "/proj";
     EGenerate (newGenerator "/proj" [mkGenPlugin "@mpflow/plugin-babel"]) false].
Proof.
  refine (proj2 (proj2 (proj2 (proj2
            (proj1 (default_init_generates_last "/proj" "/proj" Demo.store0)
               (newGenerator "/proj" [mkGenPlugin "@mpflow/plugin-babel"]) false _))))).
  vm_compute. do 3 right. left. reflexivity.
Defined.

Lemma repeated_create_registers_again_witness :
  map tap_name
    (s_taps (beforeEmit (hooks (fst (create (Nat.iter 2 initPlugins Demo.c_local)
                                       Demo.store0)))))
  = ["user"; "user"; "user"].
Proof.
  rewrite (proj2 (proj2 (repeated_create_registers_again 2 Demo.c_local Demo.store0
                           eq_refl))).
  reflexivity.
Defined.

(** A plugin without a name that taps: [create] is rejected by tapable's
    check before anything is promised. *)
Example nameless_plugin_rejects_create :
  snd (create Demo.c_nameless Demo.store0)
  = ([], Demo.store0, Err (JsError "Missing name for tapPromise")).
Proof. reflexivity. Qed.

(** A [creator] that throws: the taps made before stay on the hooks, its
    later calls and the plugins after it are never registered, and [create]
    is rejected with what was thrown. *)
Example throwing_creator_stops_registration :
  initPlugins_rejection Demo.c_throwing = Some (JsError "bad plugin")
  /\ map tap_name (s_taps (beforeEmit (hooks (initPlugins Demo.c_throwing))))
     = ["user"; "broken"]
  /\ map tap_name (s_taps (emit (hooks (initPlugins Demo.c_throwing)))) = ["creator"]
  /\ snd (create Demo.c_throwing Demo.store0)
     = ([], Demo.store0, Err (JsError "bad plugin")).
Proof. repeat split. Qed.

Lemma create_without_plugins_runs_defaults_witness :
  effects (trace_of (snd (create Demo.c_remote Demo.store0)))
  = trace_of (create_without_plugins "/proj" "https://example.com/template.tgz"
                "demo" "wx1" Demo.store0).
Proof.
  exact (proj1 (create_without_plugins_runs_defaults "/proj" Demo.no_builtins
                  DemoMore.remote_options Demo.store0 eq_refl eq_refl eq_refl
                  (List.Forall_nil _))).
Defined.

(** * The service plugins *)

Lemma append_cons c (a b : string) : (String c a ++ b)%string = String c (a ++ b)%string.
Proof. reflexivity. Qed.

Lemma append_nil_l (b : string) : ("" ++ b)%string = b.
Proof. reflexivity. Qed.

Lemma append_nil_r (a : string) : (a ++ "")%string = a.
Proof.
  induction a as [|c a IH]; [reflexivity|]. now rewrite append_cons, IH.
Qed.

Lemma length_app_string (a b : string) :
  String.length (a ++ b)%string = String.length a + String.length b.
Proof.
  induction a as [|c a IH]; [reflexivity|].
  rewrite append_cons. cbn [String.length]. now rewrite IH.
Qed.

Lemma substring_all_of (b : string) : String.substring 0 (String.length b) b = b.
Proof. induction b as [|c b IH]; cbn; [reflexivity | now rewrite IH]. Qed.

Lemma substring_app_l (a b : string) :
  String.substring 0 (String.length a) (a ++ b)%string = a.
Proof.
  induction a as [|c a IH].
  - rewrite append_nil_l. cbn. now destruct b.
  - rewrite append_cons. cbn [String.length String.substring]. now rewrite IH.
Qed.

Lemma substring_app_r (a b : string) :
  String.substring (String.length a) (String.length b) (a ++ b)%string = b.
Proof.
  induction a as [|c a IH].
  - rewrite append_nil_l. apply substring_all_of.
  - rewrite append_cons. cbn [String.length String.substring]. exact IH.
Qed.

Lemma ends_with_app (suffix stem : string) :
  Plugins.ends_with suffix (stem ++ suffix)%string = true.
Proof.
  unfold Plugins.ends_with. rewrite length_app_string.
  replace (String.length stem + String.length suffix - String.length suffix)
    with (String.length stem) by lia.
  rewrite substring_app_r, String.eqb_refl, andb_true_r.
  apply Nat.leb_le. lia.
Qed.

Lemma ends_with_other (suffix other stem : string) :
  String.length other = String.length suffix ->
  other <> suffix ->
  Plugins.ends_with suffix (stem ++ other)%string = false.
Proof.
  intros Hlen Hne. unfold Plugins.ends_with. rewrite length_app_string, <- Hlen.
  replace (String.length stem + String.length other - String.length other)
    with (String.length stem) by lia.
  rewrite substring_app_r.
  apply String.eqb_neq in Hne. rewrite Hne. apply andb_false_r.
Qed.

Lemma replace_extension_app (old new stem : string) :
  Plugins.replace_extension old new (stem ++ old)%string = (stem ++ new)%string.
Proof.
  unfold Plugins.replace_extension. rewrite ends_with_app, length_app_string.
  replace (String.length stem + String.length old - String.length old)
    with (String.length stem) by lia.
  now rewrite substring_app_l.
Qed.

Lemma substring_split n (path : string) :
  n <= String.length path ->
  path = (String.substring 0 n path
            ++ String.substring n (String.length path - n) path)%string.
Proof.
  revert path. induction n as [|n IH]; intros path Hn.
  - rewrite Nat.sub_0_r, substring_all_of.
    destruct path; reflexivity.
  - destruct path as [|c path]; cbn in Hn; [lia|].
    cbn [String.length String.substring Nat.sub].
    rewrite append_cons. f_equal. apply IH. lia.
Qed.

Lemma ends_with_split (suffix path : string) :
  Plugins.ends_with suffix path = true ->
  exists stem, path = (stem ++ suffix)%string.
Proof.
  unfold Plugins.ends_with. intros H.
  apply andb_true_iff in H as [Hle Heq].
  apply Nat.leb_le in Hle. apply String.eqb_eq in Heq.
  exists (String.substring 0 (String.length path - String.length suffix) path).
  assert (Hs : String.length suffix
               = String.length path - (String.length path - String.length suffix))
    by lia.
  set (n := String.length path - String.length suffix) in *.
  rewrite <- Heq, Hs.
  apply substring_split. unfold n. lia.
Qed.

(** X12: the typescript generator's renaming turns [stem.js] into
    [stem.ts] for every stem, leaves a path that does not end in [.js]
    as it is, keeps the length of the path, and renaming twice is the same
    as renaming once; the css generator's renaming does the same from
    [.wxss] to [.less]. *)
Theorem generators_rename_extensions :
  (forall stem, Plugins.rename_js_to_ts (stem ++ ".js")%string = (stem ++ ".ts")%string)
  /\ (forall path, Plugins.ends_with ".js" path = false ->
        Plugins.rename_js_to_ts path = path)
  /\ (forall path, String.length (Plugins.rename_js_to_ts path) = String.length path)
  /\ (forall path,
        Plugins.rename_js_to_ts (Plugins.rename_js_to_ts path)
        = Plugins.rename_js_to_ts path)
  /\ (forall stem,
        Plugins.rename_wxss_to_less (stem ++ ".wxss")%string = (stem ++ ".less")%string)
  /\ (forall path, Plugins.ends_with ".wxss" path = false ->
        Plugins.rename_wxss_to_less path = path)
  /\ (forall path,
        String.length (Plugins.rename_wxss_to_less path) = String.length path)
  /\ (forall path,
        Plugins.rename_wxss_to_less (Plugins.rename_wxss_to_less path)
        = Plugins.rename_wxss_to_less path).
Proof.
  assert (Hkeep : forall old new path,
             Plugins.ends_with old path = false ->
             Plugins.replace_extension old new path = path).
  { intros old new path H. unfold Plugins.replace_extension. now rewrite H. }
  assert (Hcases : forall old new path,
             (Plugins.ends_with old path = false
              /\ Plugins.replace_extension old new path = path)
             \/ exists stem, path = (stem ++ old)%string
                  /\ Plugins.replace_extension old new path = (stem ++ new)%string).
  { intros old new path. destruct (Plugins.ends_with old path) eqn:He.
    - right. destruct (ends_with_split _ _ He) as [stem ->].
      exists stem. split; [reflexivity | apply replace_extension_app].
    - left. split; [reflexivity | now apply Hkeep]. }
  unfold Plugins.rename_js_to_ts, Plugins.rename_wxss_to_less.
  split; [intros; apply replace_extension_app|].
  split; [intros; now apply Hkeep|].
  split.
  { intros path. destruct (Hcases ".js" ".ts" path) as [[_ ->] | (stem & -> & ->)];
      [reflexivity|]. now rewrite !length_app_string. }
  split.
  { intros path. destruct (Hcases ".js" ".ts" path) as [[He ->] | (stem & -> & ->)].
    - now apply Hkeep.
    - apply Hkeep. now apply ends_with_other. }
  split; [intros; apply replace_extension_app|].
  split; [intros; now apply Hkeep|].
  split.
  { intros path. destruct (Hcases ".wxss" ".less" path) as [[_ ->] | (stem & -> & ->)];
      [reflexivity|]. now rewrite !length_app_string. }
  intros path. destruct (Hcases ".wxss" ".less" path) as [[He ->] | (stem & -> & ->)].
  - now apply Hkeep.
  - apply Hkeep. now apply ends_with_other.
Qed.
